(** * Auto-accept agent: remote control engine

    A shallow embedding of the string built-ins and of the parts of the
    repository that follow:

    - [JS]         the string built-ins the scripts call
                   ([trim], [includes], [startsWith], [lastIndexOf],
                   [substring], the three [replace] calls of
                   [isAcceptButton]);
    - [Agent]      the script injected into a page
                   (main_scripts/cdp-handler.js, second half: [Analytics],
                   [isCommandBanned], [isAcceptButton], [performClick],
                   [__autoAcceptStart], [__autoAcceptStop] and the three
                   loops), a pass of [performClick] taken as one step;
    - [Async]      [performClick] as the event loop runs it, stretch by
                   stretch between its waits, with the two click calls it
                   makes on an element;
    - [Tabs]       [stripTimeSuffix], [deduplicateNames] and the round of
                   the tabs in the background loops;
    - [CDP]        the command channel of [class CDPHandler]
                   ([sendCommand], the socket handlers of [connectToPage]);
    - [Discovery], [Sync]
                   [scanForInstances], [getPages] and one cycle of
                   [CDPHandler.start] with [injectAndStart];
    - [Extension]  the polling tick of extension.js ([startPolling],
                   [syncSessions]);
    - [ROI]        the weekly statistics of extension.js
                   ([loadROIStats], [collectAndSaveStats],
                   [incrementSessionCount]).

    Strings the scripts inspect are sequences of UTF-16 code units; names
    that are only stored and compared (page ids, instance ids, store keys,
    error messages) are Rocq strings.  Numbers are integers: the counters
    and timestamps of the scripts are integral and far below 2^53, where
    JavaScript numbers are exact. *)

From Stdlib Require Import ZArith NArith List Bool Lia.
From Stdlib Require Import String Ascii Sorted Permutation.
From stdpp Require Import gmap strings list pretty.

Local Open Scope Z_scope.

(* ===================================================================== *)
(** * JavaScript strings *)
(* ===================================================================== *)

Module JS.

(** A string is its list of UTF-16 code units. *)
Definition jsstring := list N.

(** Literals of the scripts, written as Rocq strings. *)
Definition js (s : string) : jsstring :=
  List.map N_of_ascii (list_ascii_of_string s).

Definition unit_eqb (a b : N) : bool := N.eqb a b.

Fixpoint jseqb (a b : jsstring) : bool :=
  match a, b with
  | [], [] => true
  | x :: a', y :: b' => unit_eqb x y && jseqb a' b'
  | _, _ => false
  end.

(** [!s] for a string: only the empty string is falsy. *)
Definition falsy (s : jsstring) : bool :=
  match s with [] => true | _ => false end.

(** WhiteSpace and LineTerminator of ECMAScript: what [trim] strips and
    what [\s] matches. *)
Definition isWhiteSpace (c : N) : bool :=
  ((9 <=? c) && (c <=? 13))%N
  || (c =? 32)%N || (c =? 160)%N || (c =? 5760)%N
  || ((8192 <=? c) && (c <=? 8202))%N
  || (c =? 8232)%N || (c =? 8233)%N || (c =? 8239)%N
  || (c =? 8287)%N || (c =? 12288)%N || (c =? 65279)%N.

(** [\w] without the unicode flag: [A-Za-z0-9_]. *)
Definition isWordChar (c : N) : bool :=
  ((48 <=? c) && (c <=? 57))%N
  || ((65 <=? c) && (c <=? 90))%N
  || (c =? 95)%N
  || ((97 <=? c) && (c <=? 122))%N.

(** The class of the zero-width replace: U+200B to U+200D, and U+FEFF. *)
Definition isZeroWidth (c : N) : bool :=
  ((8203 <=? c) && (c <=? 8205))%N || (c =? 65279)%N.

Fixpoint trimStart (s : jsstring) : jsstring :=
  match s with
  | c :: s' => if isWhiteSpace c then trimStart s' else s
  | [] => []
  end.

Definition trimEnd (s : jsstring) : jsstring := rev (trimStart (rev s)).

Definition trim (s : jsstring) : jsstring := trimEnd (trimStart s).

(** [s.startsWith(p)] *)
Fixpoint startsWith (s p : jsstring) {struct p} : bool :=
  match p, s with
  | [], _ => true
  | _ :: _, [] => false
  | y :: p', x :: s' => unit_eqb x y && startsWith s' p'
  end.

(** [s.includes(p)] *)
Fixpoint includes (s p : jsstring) : bool :=
  startsWith s p ||
  match s with
  | [] => false
  | _ :: s' => includes s' p
  end.

(** [s.lastIndexOf(c)] for a one-character needle; -1 when absent. *)
Fixpoint lastIndexOf_from (i : Z) (s : jsstring) (c : N) : Z :=
  match s with
  | [] => -1
  | x :: s' =>
      let r := lastIndexOf_from (i + 1) s' c in
      if 0 <=? r then r else if unit_eqb x c then i else -1
  end.

Definition lastIndexOf (s : jsstring) (c : N) : Z := lastIndexOf_from 0 s c.

(** [s.substring(a, b)] for [0 <= a <= b]; the scripts call it so. *)
Definition substring (s : jsstring) (a b : Z) : jsstring :=
  take (Z.to_nat (b - a)) (drop (Z.to_nat a) s).

(** [s.substring(a)] *)
Definition substringFrom (s : jsstring) (a : Z) : jsstring :=
  drop (Z.to_nat a) s.

(** [s.length] *)
Definition jslength (s : jsstring) : Z := Z.of_nat (length s).

(** What the scripts take from the engine and this development does not
    compute: Unicode case mapping and regular expressions given at run
    time.  [RegExp_new p f = None] is [new RegExp(p, f)] throwing. *)
Class Runtime := {
  toLowerCase : jsstring -> jsstring;
  regex : Type;
  RegExp_new : jsstring -> jsstring -> option regex;
  RegExp_test : regex -> jsstring -> bool
}.

(** Case mapping on the ASCII range, where every engine agrees. *)
Definition asciiLower (c : N) : N :=
  if ((65 <=? c) && (c <=? 90))%N then (c + 32)%N else c.

(** An engine for ASCII text whose patterns never compile: enough to run
    the scripts on inputs without a usable delimited pattern. *)
Inductive noRegex : Type := .

Definition asciiRuntime : Runtime := {|
  toLowerCase := List.map asciiLower;
  regex := noRegex;
  RegExp_new := fun _ _ => None;
  RegExp_test := fun _ _ => false
|}.

(** The substring relation the spec speaks of: [p] occurs in [s]. *)
Definition occursIn (p s : jsstring) : Prop :=
  exists pre post, s = pre ++ p ++ post.

(** ** The three [replace] calls of [isAcceptButton] *)

(** Prefix match under the [i] flag: code units are compared after
    canonicalisation, which on a pattern of ASCII letters identifies
    exactly a letter and its other case.  Returns what follows the match. *)
Fixpoint matchLiteralCI (s p : jsstring) {struct p} : option jsstring :=
  match p, s with
  | [], _ => Some s
  | _ :: _, [] => None
  | y :: p', x :: s' =>
      if unit_eqb (asciiLower x) (asciiLower y) then matchLiteralCI s' p'
      else None
  end.

(** The alternation [(alt|ctrl|cmd|shift)], tried left to right. *)
Fixpoint matchAlternation (alts : list jsstring) (s : jsstring)
  : option jsstring :=
  match alts with
  | [] => None
  | p :: alts' =>
      match matchLiteralCI s p with
      | Some rest => Some rest
      | None => matchAlternation alts' s
      end
  end.

Fixpoint skipWord (s : jsstring) : jsstring :=
  match s with
  | c :: s' => if isWordChar c then skipWord s' else s
  | [] => []
  end.

(** One attempt of [/\s*(alt|ctrl|cmd|shift)\s*\+\s*\w+/i] at the head of
    [s]; [Some rest] when it matches, [rest] being what follows the match.
    The greedy stars never need to give back: a keyword, the plus sign and a
    word character are not white space. *)
Definition matchHint (s : jsstring) : option jsstring :=
  match matchAlternation [js "alt"; js "ctrl"; js "cmd"; js "shift"]
                         (trimStart s) with
  | None => None
  | Some s1 =>
      match trimStart s1 with
      | c :: s2 =>
          if unit_eqb c 43 then
            match trimStart s2 with
            | d :: s3 => if isWordChar d then Some (skipWord s3) else None
            | [] => None
            end
          else None
      | [] => None
      end
  end.

(** [s.replace(/\s*(alt|ctrl|cmd|shift)\s*\+\s*\w+/gi, '')]: scanning
    from the left, every match is deleted and the scan resumes after it.
    [skip] counts the code units of the current match still to delete. *)
Fixpoint stripHints_from (skip : nat) (s : jsstring) : jsstring :=
  match s with
  | [] => []
  | c :: s' =>
      match skip with
      | S k => stripHints_from k s'
      | O =>
          match matchHint s with
          | Some rest => stripHints_from (length s - length rest - 1) s'
          | None => c :: stripHints_from 0 s'
          end
      end
  end.

Definition stripHints (s : jsstring) : jsstring := stripHints_from 0 s.

(** [s.replace(/[\u200B-\u200D\uFEFF]/g, '')] *)
Definition stripZeroWidth (s : jsstring) : jsstring :=
  List.filter (fun c => negb (isZeroWidth c)) s.

(** [s.replace(/\s+/g, ' ')]: [inRun] is true inside a run of white space
    whose blank has been written already. *)
Fixpoint collapseWhite_from (inRun : bool) (s : jsstring) : jsstring :=
  match s with
  | [] => []
  | c :: s' =>
      if isWhiteSpace c then
        if inRun then collapseWhite_from true s'
        else 32%N :: collapseWhite_from true s'
      else c :: collapseWhite_from false s'
  end.

Definition collapseWhite (s : jsstring) : jsstring :=
  collapseWhite_from false s.

End JS.

(* ===================================================================== *)
(** * The injected agent *)
(* ===================================================================== *)

Module Agent.
Import JS.

(** ** Analytics *)

Inductive ActionType := FILE_EDIT | TERMINAL_COMMAND.

(** [window.__autoAcceptState.stats]; the two conversation fields, which no
    function below reads or writes, are left out. *)
Record Stats := mkStats {
  clicksThisSession : Z;
  blockedThisSession : Z;
  sessionStartTime : option Z;
  fileEditsThisSession : Z;
  terminalCommandsThisSession : Z;
  actionsWhileAway : Z;
  isWindowFocused : bool
}.

Definition createDefaultStats : Stats :=
  {| clicksThisSession := 0;
     blockedThisSession := 0;
     sessionStartTime := None;
     fileEditsThisSession := 0;
     terminalCommandsThisSession := 0;
     actionsWhileAway := 0;
     isWindowFocused := true |}.

Definition TERMINAL_KEYWORDS : list jsstring :=
  [js "run"; js "execute"; js "command"; js "terminal"].

Section WithRuntime.
Context {rt : Runtime}.

Definition categorizeClick (buttonText : jsstring) : ActionType :=
  let text := toLowerCase buttonText in
  if existsb (fun keyword => includes text keyword) TERMINAL_KEYWORDS
  then TERMINAL_COMMAND
  else FILE_EDIT.

Definition trackClick (buttonText : jsstring) (stats : Stats) : Stats :=
  let clicks := clicksThisSession stats + 1 in
  let terminal :=
    match categorizeClick buttonText with
    | TERMINAL_COMMAND => terminalCommandsThisSession stats + 1
    | FILE_EDIT => terminalCommandsThisSession stats
    end in
  let edits :=
    match categorizeClick buttonText with
    | TERMINAL_COMMAND => fileEditsThisSession stats
    | FILE_EDIT => fileEditsThisSession stats + 1
    end in
  let away :=
    if isWindowFocused stats then actionsWhileAway stats
    else actionsWhileAway stats + 1 in
  {| clicksThisSession := clicks;
     blockedThisSession := blockedThisSession stats;
     sessionStartTime := sessionStartTime stats;
     fileEditsThisSession := edits;
     terminalCommandsThisSession := terminal;
     actionsWhileAway := away;
     isWindowFocused := isWindowFocused stats |}.

End WithRuntime.

Definition trackBlocked (stats : Stats) : Stats :=
  {| clicksThisSession := clicksThisSession stats;
     blockedThisSession := blockedThisSession stats + 1;
     sessionStartTime := sessionStartTime stats;
     fileEditsThisSession := fileEditsThisSession stats;
     terminalCommandsThisSession := terminalCommandsThisSession stats;
     actionsWhileAway := actionsWhileAway stats;
     isWindowFocused := isWindowFocused stats |}.

(** [collectROI]: the state after the call; [now] is [Date.now()]. *)
Definition collectROI (now : Z) (stats : Stats) : Stats :=
  {| clicksThisSession := 0;
     blockedThisSession := 0;
     sessionStartTime := Some now;
     fileEditsThisSession := fileEditsThisSession stats;
     terminalCommandsThisSession := terminalCommandsThisSession stats;
     actionsWhileAway := actionsWhileAway stats;
     isWindowFocused := isWindowFocused stats |}.

Definition consumeAwayActions (stats : Stats) : Stats :=
  {| clicksThisSession := clicksThisSession stats;
     blockedThisSession := blockedThisSession stats;
     sessionStartTime := sessionStartTime stats;
     fileEditsThisSession := fileEditsThisSession stats;
     terminalCommandsThisSession := terminalCommandsThisSession stats;
     actionsWhileAway := 0;
     isWindowFocused := isWindowFocused stats |}.

Definition setFocusState (isFocused : bool) (stats : Stats) : Stats :=
  {| clicksThisSession := clicksThisSession stats;
     blockedThisSession := blockedThisSession stats;
     sessionStartTime := sessionStartTime stats;
     fileEditsThisSession := fileEditsThisSession stats;
     terminalCommandsThisSession := terminalCommandsThisSession stats;
     actionsWhileAway := actionsWhileAway stats;
     isWindowFocused := isFocused |}.

(** [if (!stats.sessionStartTime) stats.sessionStartTime = Date.now()] *)
Definition ensureSessionStart (now : Z) (stats : Stats) : Stats :=
  match sessionStartTime stats with
  | Some t =>
      if t =? 0 then
        {| clicksThisSession := clicksThisSession stats;
           blockedThisSession := blockedThisSession stats;
           sessionStartTime := Some now;
           fileEditsThisSession := fileEditsThisSession stats;
           terminalCommandsThisSession := terminalCommandsThisSession stats;
           actionsWhileAway := actionsWhileAway stats;
           isWindowFocused := isWindowFocused stats |}
      else stats
  | None =>
      {| clicksThisSession := clicksThisSession stats;
         blockedThisSession := blockedThisSession stats;
         sessionStartTime := Some now;
         fileEditsThisSession := fileEditsThisSession stats;
         terminalCommandsThisSession := terminalCommandsThisSession stats;
         actionsWhileAway := actionsWhileAway stats;
         isWindowFocused := isWindowFocused stats |}
  end.

(** ** [window.__autoAcceptState] *)

(** [tabNames], [completionStatus] and [startTimes] belong to the overlay
    and are left out; [isBackgroundMode] is absent until the first start. *)
Record State := mkState {
  isRunning : bool;
  sessionID : Z;
  currentMode : option jsstring;
  isBackgroundMode : option bool;
  bannedCommands : list jsstring;
  stats : Stats
}.

(** The state [Analytics.initialize] creates on first injection, at time
    [now]. *)
Definition initialState (now : Z) : State :=
  {| isRunning := false;
     sessionID := 0;
     currentMode := None;
     isBackgroundMode := None;
     bannedCommands := [];
     stats := ensureSessionStart now createDefaultStats |}.

Definition withStats (f : Stats -> Stats) (st : State) : State :=
  {| isRunning := isRunning st;
     sessionID := sessionID st;
     currentMode := currentMode st;
     isBackgroundMode := isBackgroundMode st;
     bannedCommands := bannedCommands st;
     stats := f (stats st) |}.

Definition withBannedCommands (l : list jsstring) (st : State) : State :=
  {| isRunning := isRunning st;
     sessionID := sessionID st;
     currentMode := currentMode st;
     isBackgroundMode := isBackgroundMode st;
     bannedCommands := l;
     stats := stats st |}.

(** ** The banned-command filter *)

Section WithRuntime.
Context {rt : Runtime}.

(** [pattern.startsWith('/') && pattern.lastIndexOf('/') > 0] *)
Definition isDelimited (pattern : jsstring) : bool :=
  startsWith pattern (js "/") && (0 <? lastIndexOf pattern 47).

(** [pattern.substring(1, lastSlash)] *)
Definition regexPatternOf (pattern : jsstring) : jsstring :=
  let lastSlash := lastIndexOf pattern 47 in
  substring pattern 1 lastSlash.

(** [pattern.substring(lastSlash + 1) || 'i'] *)
Definition flagsOf (pattern : jsstring) : jsstring :=
  let lastSlash := lastIndexOf pattern 47 in
  let f := substringFrom pattern (lastSlash + 1) in
  if falsy f then js "i" else f.

(** The body of [for (const banned of bannedList)].  [None] stands for
    falling through to the next pattern, [Some st'] for [return true]
    after [Analytics.trackBlocked]. *)
Definition checkPattern (st : State) (commandText lowerText banned : jsstring)
  : option State :=
  let pattern := trim banned in
  if falsy pattern then None
  else if isDelimited pattern then
    match RegExp_new (regexPatternOf pattern) (flagsOf pattern) with
    | Some re =>
        if RegExp_test re commandText then Some (withStats trackBlocked st)
        else None
    | None =>
        (* catch (e) *)
        if includes lowerText (toLowerCase pattern)
        then Some (withStats trackBlocked st)
        else None
    end
  else
    let lowerPattern := toLowerCase pattern in
    if includes lowerText lowerPattern then Some (withStats trackBlocked st)
    else None.

Fixpoint scanBanned (st : State) (commandText lowerText : jsstring)
  (bannedList : list jsstring) : bool * State :=
  match bannedList with
  | [] => (false, st)
  | banned :: rest =>
      match checkPattern st commandText lowerText banned with
      | Some st' => (true, st')
      | None => scanBanned st commandText lowerText rest
      end
  end.

Definition isCommandBanned (st : State) (commandText : jsstring)
  : bool * State :=
  let bannedList := bannedCommands st in
  if (length bannedList =? 0)%nat then (false, st)
  else if falsy commandText then (false, st)
  else scanBanned st commandText (toLowerCase commandText) bannedList.

(** ** The click classifier *)

(** What [isAcceptButton] and [performClick] read of a DOM element.
    [el_id] is the identity of the node (the key of the WeakMap);
    [nearbyCommandText] is what [findNearbyCommandText] returns for it. *)
Record Element := mkElement {
  el_id : nat;
  textContent : jsstring;
  nearbyCommandText : jsstring;
  displayNone : bool;
  widthPositive : bool;
  pointerEventsNone : bool;
  disabled : bool
}.

Definition patterns : list jsstring :=
  [js "accept"; js "run"; js "retry"; js "apply"; js "execute";
   js "confirm"; js "allow once"; js "allow"; js "ok"; js "yes";
   js "continue"; js "proceed"; js "approve"; js "submit"; js "save";
   js "done"].

Definition rejects : list jsstring :=
  [js "skip"; js "reject"; js "cancel"; js "close"; js "refine";
   js "dismiss"; js "no"; js "decline"; js "deny"; js "back"; js "undo";
   js "revert"].

(** The value of [text] when [isAcceptButton] reaches its length test. *)
Definition normalizedText (el : Element) : jsstring :=
  let rawText := toLowerCase (trim (textContent el)) in
  let text := trim (stripHints rawText) in
  let text := stripZeroWidth text in
  collapseWhite text.

Definition isVisible (el : Element) : bool :=
  negb (displayNone el) && widthPositive el
  && negb (pointerEventsNone el) && negb (disabled el).

Definition isAcceptButton (st : State) (el : Element) : bool * State :=
  let text := normalizedText el in
  if (jslength text =? 0) || (50 <? jslength text) then (false, st)
  else if existsb (fun r => includes text r) rejects then (false, st)
  else if negb (existsb (fun p => includes text p) patterns) then (false, st)
  else
    let isCommandButton :=
      includes text (js "run command") || includes text (js "execute")
      || includes text (js "run") in
    let '(banned, st1) :=
      if isCommandButton then isCommandBanned st (nearbyCommandText el)
      else (false, st) in
    if banned then (false, st1)
    else (isVisible el, st1).

(** ** Clicking *)

Definition CLICK_COOLDOWN_MS : Z := 5000.

(** [lastClickTime && (now - lastClickTime) < CLICK_COOLDOWN_MS]: an absent
    entry and the number 0 are falsy. *)
Definition inCooldown (lastClickTime : option Z) (now : Z) : bool :=
  match lastClickTime with
  | None => false
  | Some t => negb (t =? 0) && (now - t <? CLICK_COOLDOWN_MS)
  end.

(** The page as the agent sees it: its state, the WeakMap
    [clickedTimestamps], and the click events dispatched so far (the
    identity of each element clicked, oldest first).  An element is
    entered once for the two calls the script makes on it, [el.click()]
    and the synthetic [MouseEvent]; module [Async] keeps the two apart. *)
Record Page := mkPage {
  state : State;
  clickedTimestamps : gmap nat Z;
  dispatched : list nat
}.

Definition withState (st : State) (pg : Page) : Page :=
  {| state := st;
     clickedTimestamps := clickedTimestamps pg;
     dispatched := dispatched pg |}.

(** The body of [for (const el of uniqueFound)]: the page afterwards and
    what the pass adds to [verified].  Both branches after
    [waitForDisappear] track the click.  The wait itself, during which
    other code of the page may run, is not part of this step: the turn of
    an element is taken here in one piece, and in module [Async] in the
    two pieces the wait divides it in. *)
Definition clickElement (now : Z) (pg : Page) (el : Element) : Page * Z :=
  let lastClickTime := clickedTimestamps pg !! el_id el in
  if inCooldown lastClickTime now then (pg, 0)
  else
    let '(accept, st1) := isAcceptButton (state pg) el in
    if accept then
      let buttonText := trim (textContent el) in
      ({| state := withStats (trackClick buttonText) st1;
          clickedTimestamps := <[el_id el := now]> (clickedTimestamps pg);
          dispatched := dispatched pg ++ [el_id el] |}, 1)
    else (withState st1 pg, 0).

Fixpoint clickAll (now : Z) (pg : Page) (els : list Element) : Page * Z :=
  match els with
  | [] => (pg, 0)
  | el :: rest =>
      let '(pg1, v1) := clickElement now pg el in
      let '(pg2, v2) := clickAll now pg1 rest in
      (pg2, v1 + v2)
  end.

(** [[...new Set(found)]]: first occurrences, in order. *)
Fixpoint uniqueFrom (seen : list nat) (found : list Element) : list Element :=
  match found with
  | [] => []
  | el :: rest =>
      if existsb (Nat.eqb (el_id el)) seen then uniqueFrom seen rest
      else el :: uniqueFrom (el_id el :: seen) rest
  end.

(** [performClick(selectors)]: [found] is what the selectors yield in the
    page and [now] the value of [Date.now()] taken before the loop.  The
    elements are judged as [found] shows them; module [Async] follows the
    pass with the page read anew after each wait. *)
Definition performClick (now : Z) (found : list Element) (pg : Page)
  : Page * Z :=
  clickAll now pg (uniqueFrom [] found).

(** ** Sessions and loops *)

(** The argument of [__autoAcceptStart]; [None] is an absent property. *)
Record Config := mkConfig {
  ide : option jsstring;
  cfgBackgroundMode : option bool;
  pollInterval : option Z;
  cfgBannedCommands : option (list jsstring)
}.

Inductive LoopKind := CursorLoop | AntigravityLoop | StaticLoop.

(** A loop body launched by a start: the function, the [sid] it closed
    over, the cycles it has run and whether it has left its [while]. *)
Record Loop := mkLoop {
  kind : LoopKind;
  sid : Z;
  cycles : nat;
  stopped : bool
}.

(** One injected copy of the script at work in its page: the page and the
    loops its starts have launched.  (Injecting the script again re-runs
    [Analytics.initialize], which writes neither [isRunning] nor
    [sessionID].) *)
Record World := mkWorld {
  page : Page;
  loops : list Loop
}.

Definition initialWorld (now : Z) : World :=
  {| page := {| state := initialState now;
                clickedTimestamps := ∅;
                dispatched := [] |};
     loops := [] |}.

Definition onState (f : State -> State) (w : World) : World :=
  {| page := withState (f (state (page w))) (page w); loops := loops w |}.

(** [(config.ide || 'cursor').toLowerCase()] *)
Definition configIde (config : Config) : jsstring :=
  toLowerCase
    match ide config with
    | Some s => if falsy s then js "cursor" else s
    | None => js "cursor"
    end.

(** [config.isBackgroundMode === true] *)
Definition configBG (config : Config) : bool :=
  match cfgBackgroundMode config with Some true => true | _ => false end.

Definition updateBannedCommands (config : Config) (st : State) : State :=
  match cfgBannedCommands config with
  | Some l => withBannedCommands l st
  | None => st
  end.

(** [state.isRunning && state.currentMode === ide
     && state.isBackgroundMode === isBG] *)
Definition sameConfig (st : State) (ideName : jsstring) (isBG : bool) : bool :=
  isRunning st
  && match currentMode st with Some m => jseqb m ideName | None => false end
  && match isBackgroundMode st with Some b => eqb b isBG | None => false end.

Definition loopFor (ideName : jsstring) (isBG : bool) : LoopKind :=
  if isBG then
    if jseqb ideName (js "cursor") then CursorLoop else AntigravityLoop
  else StaticLoop.

(** [window.__autoAcceptStart(config)]; [now] is [Date.now()].  Clearing
    [isRunning] before setting it again leaves no trace; the loop started is
    recorded in [loops] and reaches its first test when it is next resumed. *)
Definition autoAcceptStart (now : Z) (config : Config) (w : World) : World :=
  let ideName := configIde config in
  let isBG := configBG config in
  let st := updateBannedCommands config (state (page w)) in
  if sameConfig st ideName isBG then
    {| page := withState st (page w); loops := loops w |}
  else
    let sid' := sessionID st + 1 in
    let stats' := ensureSessionStart now (stats st) in
    let st' :=
      {| isRunning := true;
         sessionID := sid';
         currentMode := Some ideName;
         isBackgroundMode := Some isBG;
         bannedCommands := bannedCommands st;
         stats := stats' |} in
    {| page := withState st' (page w);
       loops := loops w ++ [{| kind := loopFor ideName isBG;
                               sid := sid';
                               cycles := 0;
                               stopped := false |}] |}.

(** [window.__autoAcceptStop()] *)
Definition autoAcceptStop (w : World) : World :=
  onState (fun st =>
    {| isRunning := false;
       sessionID := sessionID st;
       currentMode := currentMode st;
       isBackgroundMode := isBackgroundMode st;
       bannedCommands := bannedCommands st;
       stats := stats st |}) w.

(** The test of [while (state.isRunning && state.sessionID === sid)],
    the same in [cursorLoop], [antigravityLoop] and [staticLoop]. *)
Definition loopGuard (st : State) (l : Loop) : bool :=
  isRunning st && (sessionID st =? sid l).

(** A loop arriving at its [while]: it leaves when the test fails, and
    otherwise runs one cycle, whose effect on the page is the
    [performClick] pass over the elements [found] at time [now].  (In the
    script the first test of a loop is taken inside the start that
    launches it, where it holds; here it is the first resumption of the
    loop.) *)
Definition resumeLoop (now : Z) (found : list Element) (l : Loop) (pg : Page)
  : Loop * Page :=
  if stopped l then (l, pg)
  else if loopGuard (state pg) l then
    ({| kind := kind l; sid := sid l; cycles := S (cycles l);
        stopped := false |},
     fst (performClick now found pg))
  else
    ({| kind := kind l; sid := sid l; cycles := cycles l; stopped := true |},
     pg).

(** What can happen to an injected page: the entry points the controller
    calls, and a loop resuming from its sleep. *)
Inductive Event :=
| EvStart (now : Z) (config : Config)
| EvStop
| EvUpdateBannedCommands (l : list jsstring)
| EvResetStats (now : Z)
| EvGetAwayActions
| EvSetFocusState (isFocused : bool)
| EvResume (i : nat) (now : Z) (found : list Element).

Definition step (w : World) (e : Event) : World :=
  match e with
  | EvStart now config => autoAcceptStart now config w
  | EvStop => autoAcceptStop w
  | EvUpdateBannedCommands l => onState (withBannedCommands l) w
  | EvResetStats now => onState (withStats (collectROI now)) w
  | EvGetAwayActions => onState (withStats consumeAwayActions) w
  | EvSetFocusState b => onState (withStats (setFocusState b)) w
  | EvResume i now found =>
      match loops w !! i with
      | None => w
      | Some l =>
          let '(l', pg') := resumeLoop now found l (page w) in
          {| page := pg'; loops := <[i := l']> (loops w) |}
      end
  end.

Definition run (w : World) (es : list Event) : World := fold_left step es w.

(** ** Vocabulary of the statements *)

(** The counters after a series of tracked clicks, oldest first. *)
Definition trackClicks (texts : list jsstring) (stats : Stats) : Stats :=
  fold_left (fun s t => trackClick t s) texts stats.

(** The test a plain pattern and a pattern that does not compile both end
    in: the trimmed pattern, lower-cased, occurs in the lower-cased text. *)
Definition literalMatch (commandText banned : jsstring) : Prop :=
  occursIn (toLowerCase (trim banned)) (toLowerCase commandText).

(** The click events one pass dispatches. *)
Definition passClicks (now : Z) (found : list Element)
  (pg : Page) : list nat :=
  drop (length (dispatched pg)) (dispatched (fst (performClick now found pg))).

End WithRuntime.

(** The fields of the state that decide whether a loop goes on. *)
Definition sameControl (st st' : State) : Prop :=
  isRunning st' = isRunning st /\ sessionID st' = sessionID st.

Definition sessionOf (w : World) : Z := sessionID (state (page w)).
Definition runningOf (w : World) : bool := isRunning (state (page w)).

(** Generation [g] is over: a newer one exists, or the agent was stopped
    and has not been started since. *)
Definition retired (st : State) (g : Z) : Prop :=
  g < sessionID st \/ (isRunning st = false /\ sessionID st = g).

Definition loopsBounded (w : World) : Prop :=
  forall i l, loops w !! i = Some l -> sid l <= sessionOf w.

(** The text and the list of the spec's example. *)
Definition exampleText : jsstring := js "sudo rm -rf /tmp/x".
Definition exampleState : State :=
  withBannedCommands [js "rm -rf /"] (initialState 1).

(** Three elements and a page for concrete instances. *)
Definition acceptEl : Element :=
  {| el_id := 7; textContent := js "Accept"; nearbyCommandText := [];
     displayNone := false; widthPositive := true;
     pointerEventsNone := false; disabled := false |}.

Definition acceptOrCancelEl : Element :=
  {| el_id := 8; textContent := js "Accept or Cancel";
     nearbyCommandText := [];
     displayNone := false; widthPositive := true;
     pointerEventsNone := false; disabled := false |}.

Definition emptyEl : Element :=
  {| el_id := 9; textContent := js "  "; nearbyCommandText := [];
     displayNone := false; widthPositive := true;
     pointerEventsNone := false; disabled := false |}.

Definition pageClickedAt (t : Z) : Page :=
  {| state := initialState 1;
     clickedTimestamps := {[ 7%nat := t ]};
     dispatched := [7%nat] |}.

(** A configuration and a history for concrete instances: a start
    in background mode, a stop, and a second start. *)
Definition cursorBG : Config :=
  {| ide := Some (js "Cursor");
     cfgBackgroundMode := Some true;
     pollInterval := Some 1000;
     cfgBannedCommands := None |}.

Definition restartHistory : list Event :=
  [EvStart 10 cursorBG; EvStop; EvStart 20 cursorBG].

Definition restarted : World :=
  run (rt := asciiRuntime) (initialWorld 1) restartHistory.

End Agent.

(* ===================================================================== *)
(** * The command channel of [CDPHandler] *)
(* ===================================================================== *)

Module CDP.

(** How a promise returned by [sendCommand] is completed: a call of its
    [resolve] with the result, or of its [reject] with an error message. *)
Inductive Settlement :=
| Resolved (result : string)
| Rejected (message : string).

(** An entry of [connections]: whether the socket is in state OPEN, and the
    [injected] flag. *)
Record Conn := mkConn {
  readyStateOpen : bool;
  injected : bool
}.

(** The pair [{ resolve, reject }] stored in [pendingMessages]: the two
    functions of one promise, named here by the command it was made for. *)
Record Resolvers := mkResolvers {
  promise : Z
}.

(** A parsed frame: [msg.id] (absent, or a number), [msg.error.message]
    when [msg.error] is set, and [msg.result]. *)
Record Message := mkMessage {
  msg_id : option Z;
  msg_error : option string;
  msg_result : string
}.

(** The handler, the timers it has armed with [setTimeout] (command id and
    due time), the clock, and what it has done so far: the frames written
    ([sent]: page, id, time) and the promise completions ([settled]). *)
Record Handler := mkHandler {
  connections : gmap string Conn;
  messageId : Z;
  pendingMessages : gmap Z Resolvers;
  timers : list (Z * Z);
  clock : Z;
  sent : list (string * Z * Z);
  settled : list (Z * Settlement)
}.

(** [new CDPHandler(...)] at time [t0]. *)
Definition create (t0 : Z) : Handler :=
  {| connections := ∅;
     messageId := 1;
     pendingMessages := ∅;
     timers := [];
     clock := t0;
     sent := [];
     settled := [] |}.

Definition COMMAND_TIMEOUT_MS : Z := 2000.

Definition withConnections (c : gmap string Conn) (h : Handler) : Handler :=
  {| connections := c;
     messageId := messageId h;
     pendingMessages := pendingMessages h;
     timers := timers h;
     clock := clock h;
     sent := sent h;
     settled := settled h |}.

(** [sendCommand(pageId, method, params)].  With no connection, or a socket
    that is not OPEN, it returns [Promise.reject('dead')]: no id is taken
    and nothing is registered ([None]). *)
Definition sendCommand (pageId : string) (h : Handler) : Handler * option Z :=
  match connections h !! pageId with
  | None => (h, None)
  | Some conn =>
      if negb (readyStateOpen conn) then (h, None)
      else
        let id := messageId h in
        ({| connections := connections h;
            messageId := messageId h + 1;
            pendingMessages := <[id := {| promise := id |}]> (pendingMessages h);
            timers := timers h ++ [(id, clock h + COMMAND_TIMEOUT_MS)];
            clock := clock h;
            sent := sent h ++ [(pageId, id, clock h)];
            settled := settled h |}, Some id)
  end.

Definition settle (r : Resolvers) (o : Settlement) (h : Handler) : Handler :=
  {| connections := connections h;
     messageId := messageId h;
     pendingMessages := pendingMessages h;
     timers := timers h;
     clock := clock h;
     sent := sent h;
     settled := settled h ++ [(promise r, o)] |}.

Definition deletePending (id : Z) (h : Handler) : Handler :=
  {| connections := connections h;
     messageId := messageId h;
     pendingMessages := delete id (pendingMessages h);
     timers := timers h;
     clock := clock h;
     sent := sent h;
     settled := settled h |}.

(** [msg.error ? rej(new Error(msg.error.message)) : res(msg.result)] *)
Definition outcome (msg : Message) : Settlement :=
  match msg_error msg with
  | Some m => Rejected m
  | None => Resolved (msg_result msg)
  end.

(** The ['message'] handler, after [JSON.parse]. *)
Definition onMessage (msg : Message) (h : Handler) : Handler :=
  match msg_id msg with
  | None => h
  | Some id =>
      if id =? 0 then h
      else
        match pendingMessages h !! id with
        | None => h
        | Some r => settle r (outcome msg) (deletePending id h)
        end
  end.

(** The callback given to [setTimeout] by the command [id], whose
    [reject] is that of the promise made by the same call. *)
Definition onTimeout (id : Z) (h : Handler) : Handler :=
  match pendingMessages h !! id with
  | None => h
  | Some _ =>
      settle {| promise := id |} (Rejected "timeout") (deletePending id h)
  end.

(** The ['open'], ['error'] and ['close'] handlers of [connectToPage]. *)
Definition onOpen (pageId : string) (h : Handler) : Handler :=
  withConnections
    (<[pageId := {| readyStateOpen := true; injected := false |}]>
       (connections h)) h.

Definition onError (pageId : string) (h : Handler) : Handler :=
  withConnections (delete pageId (connections h)) h.

Definition onClose (pageId : string) (h : Handler) : Handler :=
  withConnections (delete pageId (connections h)) h.

(** [conn.injected = true] in [injectAndStart]. *)
Definition markInjected (pageId : string) (h : Handler) : Handler :=
  withConnections
    (alter (fun c => {| readyStateOpen := readyStateOpen c; injected := true |})
           pageId (connections h)) h.

(** [disconnectAll()]: every socket is closed and the table cleared. *)
Definition disconnectAll (h : Handler) : Handler :=
  withConnections ∅ h.

(** The socket leaves the OPEN state; its handlers have not run yet. *)
Definition socketDown (pageId : string) (h : Handler) : Handler :=
  withConnections
    (alter (fun c => {| readyStateOpen := false; injected := injected c |})
           pageId (connections h)) h.

Definition isDue (id : Z) (h : Handler) : bool :=
  existsb (fun t => (fst t =? id) && (snd t <=? clock h)) (timers h).

Definition dropTimer (id : Z) (h : Handler) : Handler :=
  {| connections := connections h;
     messageId := messageId h;
     pendingMessages := pendingMessages h;
     timers := List.filter (fun t => negb (fst t =? id)) (timers h);
     clock := clock h;
     sent := sent h;
     settled := settled h |}.

Definition advance (dt : Z) (h : Handler) : Handler :=
  {| connections := connections h;
     messageId := messageId h;
     pendingMessages := pendingMessages h;
     timers := timers h;
     clock := clock h + dt;
     sent := sent h;
     settled := settled h |}.

(** The turns of the event loop.  A timer callback runs once, and only
    when its due time has come; time does not run backwards. *)
Inductive Event :=
| EvOpen (pageId : string)
| EvSend (pageId : string)
| EvMessage (pageId : string) (msg : Message)
| EvGarbage (pageId : string)
| EvTimeout (id : Z)
| EvSocketDown (pageId : string)
| EvError (pageId : string)
| EvClose (pageId : string)
| EvInjected (pageId : string)
| EvDisconnectAll
| EvElapse (dt : Z).

Definition step (h : Handler) (e : Event) : option Handler :=
  match e with
  | EvOpen p => Some (onOpen p h)
  | EvSend p => Some (fst (sendCommand p h))
  | EvMessage _ msg => Some (onMessage msg h)
  | EvGarbage _ => Some h
  | EvTimeout id =>
      if isDue id h then Some (onTimeout id (dropTimer id h)) else None
  | EvSocketDown p => Some (socketDown p h)
  | EvError p => Some (onError p h)
  | EvClose p => Some (onClose p h)
  | EvInjected p => Some (markInjected p h)
  | EvDisconnectAll => Some (disconnectAll h)
  | EvElapse dt => if 0 <=? dt then Some (advance dt h) else None
  end.

Fixpoint run (h : Handler) (es : list Event) : option Handler :=
  match es with
  | [] => Some h
  | e :: es' =>
      match step h e with
      | Some h' => run h' es'
      | None => None
      end
  end.

(** The completions of command [id] so far. *)
Definition completions (id : Z) (h : Handler) : list Settlement :=
  List.map snd (List.filter (fun c => fst c =? id) (settled h)).

(** Command [id] was written to the socket of [pageId]. *)
Definition sentOn (pageId : string) (id : Z) (h : Handler) : Prop :=
  exists t, In (pageId, id, t) (sent h).

Definition armed (id : Z) (h : Handler) : Prop :=
  exists due, In (id, due) (timers h).

(** What holds of a handler however it was driven. *)
Record wellFormed (h : Handler) : Prop := {
  wf_next : 1 <= messageId h;
  wf_sent : forall id,
    1 <= id < messageId h <-> exists p, sentOn p id h;
  wf_pending : forall id r,
    pendingMessages h !! id = Some r ->
    promise r = id /\ 1 <= id < messageId h
    /\ armed id h /\ completions id h = [];
  wf_done : forall id,
    1 <= id < messageId h -> pendingMessages h !! id = None ->
    exists o, completions id h = [o];
  wf_fresh : forall id,
    ~ 1 <= id < messageId h -> completions id h = [] /\ ~ armed id h;
  wf_timers : forall id due,
    In (id, due) (timers h) ->
    exists p, In (p, id, due - COMMAND_TIMEOUT_MS) (sent h)
}.

(** Two commands on one page, answered in the reverse order. *)
Definition answer (id : Z) (result : string) : Message :=
  {| msg_id := Some id; msg_error := None; msg_result := result |}.

Definition twoInFlight : list Event :=
  [EvOpen "page"; EvSend "page"; EvSend "page"].

Definition afterTwoSent : Handler :=
  fst (sendCommand "page" (fst (sendCommand "page" (onOpen "page" (create 0))))).

End CDP.

(* ===================================================================== *)
(** * The polling tick of the extension *)
(* ===================================================================== *)

Module Extension.

Inductive IDE := Cursor | Antigravity | Code | Unknown.

(** [currentIDE.toLowerCase()] *)
Definition ideLower (i : IDE) : string :=
  match i with
  | Cursor => "cursor"
  | Antigravity => "antigravity"
  | Code => "code"
  | Unknown => "unknown"
  end.

(** [`${currentIDE.toLowerCase()}-instance-lock`] *)
Definition lockKeyOf (i : IDE) : string :=
  String.append (ideLower i) "-instance-lock".

(** The argument of [cdpHandler.start]. *)
Record SyncConfig := mkSyncConfig {
  sc_isBackgroundMode : bool;
  sc_pollInterval : Z;
  sc_ide : IDE;
  sc_bannedCommands : list JS.jsstring
}.

(** The module variables the tick reads and writes, and the part of
    [globalState] it uses: under a lock key the id of the owning instance,
    under the same key with the suffix [-ping] its last heartbeat.  Only
    the tick writes these keys, a string under the first and a number
    under the second. *)
Record Ext := mkExt {
  isEnabled : bool;
  isLockedOut : bool;
  hasCdpHandler : bool;
  backgroundModeEnabled : bool;
  pollFrequency : Z;
  currentIDE : IDE;
  bannedCommandList : list JS.jsstring;
  lockOwner : gmap string string;
  lockPing : gmap string Z
}.

(** What a tick does besides changing [Ext]: it refreshes the status bar,
    and it calls [syncSessions], which calls [cdpHandler.start] with a
    configuration ([Some]) or returns at once ([None]). *)
Inductive Effect :=
| UpdateStatusBar
| SyncSessions (started : option SyncConfig).

Definition STALE_MS : Z := 15000.

(** The object [syncSessions] passes to [cdpHandler.start]. *)
Definition syncConfigOf (x : Ext) : SyncConfig :=
  {| sc_isBackgroundMode := backgroundModeEnabled x;
     sc_pollInterval := pollFrequency x;
     sc_ide := currentIDE x;
     sc_bannedCommands := bannedCommandList x |}.

Definition syncSessions (x : Ext) : Effect :=
  if hasCdpHandler x && negb (isLockedOut x) then
    SyncSessions (Some (syncConfigOf x))
  else SyncSessions None.

Definition withLockedOut (b : bool) (x : Ext) : Ext :=
  {| isEnabled := isEnabled x;
     isLockedOut := b;
     hasCdpHandler := hasCdpHandler x;
     backgroundModeEnabled := backgroundModeEnabled x;
     pollFrequency := pollFrequency x;
     currentIDE := currentIDE x;
     bannedCommandList := bannedCommandList x;
     lockOwner := lockOwner x;
     lockPing := lockPing x |}.

Definition withLock (key owner : string) (ping : Z) (x : Ext) : Ext :=
  {| isEnabled := isEnabled x;
     isLockedOut := isLockedOut x;
     hasCdpHandler := hasCdpHandler x;
     backgroundModeEnabled := backgroundModeEnabled x;
     pollFrequency := pollFrequency x;
     currentIDE := currentIDE x;
     bannedCommandList := bannedCommandList x;
     lockOwner := <[key := owner]> (lockOwner x);
     lockPing := <[key := ping]> (lockPing x) |}.

(** [activeInstance && activeInstance !== myId] *)
Definition heldByOther (activeInstance : option string) (myId : string) : bool :=
  match activeInstance with
  | None => false
  | Some EmptyString => false
  | Some a => negb (String.eqb a myId)
  end.

(** [lastPing && (Date.now() - lastPing) < 15000] *)
Definition isFresh (lastPing : option Z) (now : Z) : bool :=
  match lastPing with
  | None => false
  | Some t => negb (t =? 0) && (now - t <? STALE_MS)
  end.

(** The callback of [setInterval] in [startPolling].  [myId] is
    [globalContext.extension.id]; [now] and [now'] are the two readings of
    [Date.now()], in the test and in the write. *)
Definition tick (myId : string) (now now' : Z) (x : Ext) : Ext * list Effect :=
  if negb (isEnabled x) then (x, [])
  else
    let lockKey := lockKeyOf (currentIDE x) in
    let activeInstance := lockOwner x !! lockKey in
    if heldByOther activeInstance myId
       && isFresh (lockPing x !! lockKey) now
    then
      if isLockedOut x then (x, [])
      else (withLockedOut true x, [UpdateStatusBar])
    else
      let x1 := withLock lockKey myId now' x in
      if isLockedOut x1 then
        let x2 := withLockedOut false x1 in
        (x2, [UpdateStatusBar; syncSessions x2])
      else (x1, [syncSessions x1]).

(** A window of the editor in which the extension runs.  [INSTANCE_ID] is
    the string the module draws from [Math.random()] when it is loaded;
    [extension_id] is [globalContext.extension.id], the identifier of the
    installed extension, which every window reports alike. *)
Record Window := mkWindow {
  INSTANCE_ID : string;
  extension_id : string
}.

(** The tick in window [w]: [const myId = globalContext.extension.id].
    Nothing reads [INSTANCE_ID]. *)
Definition tickOf (w : Window) (now now' : Z) (x : Ext) : Ext * list Effect :=
  tick (extension_id w) now now' x.

(** The variables [x] of a window over the [globalState] another window
    left behind: the editor shares [globalState] among its windows. *)
Definition sharing (left : Ext) (x : Ext) : Ext :=
  {| isEnabled := isEnabled x;
     isLockedOut := isLockedOut x;
     hasCdpHandler := hasCdpHandler x;
     backgroundModeEnabled := backgroundModeEnabled x;
     pollFrequency := pollFrequency x;
     currentIDE := currentIDE x;
     bannedCommandList := bannedCommandList x;
     lockOwner := lockOwner left;
     lockPing := lockPing left |}.

(** The tick called [syncSessions]. *)
Definition synced (effects : list Effect) : bool :=
  existsb (fun e => match e with SyncSessions _ => true | _ => false end)
          effects.

(** An enabled instance of the Cursor flavour that meets a lock held by
    [other-window]. *)
Definition contended (ping : Z) : Ext :=
  {| isEnabled := true;
     isLockedOut := false;
     hasCdpHandler := true;
     backgroundModeEnabled := false;
     pollFrequency := 1000;
     currentIDE := Cursor;
     bannedCommandList := [];
     lockOwner := {[ lockKeyOf Cursor := "other-window" ]};
     lockPing := {[ lockKeyOf Cursor := ping ]} |}.

(** Two windows of one editor with the extension enabled, before any tick:
    the same extension, two draws of [INSTANCE_ID]. *)
Definition windowA : Window :=
  {| INSTANCE_ID := "k3x9qf"; extension_id := "auto-accept" |}.

Definition windowB : Window :=
  {| INSTANCE_ID := "p07zme"; extension_id := "auto-accept" |}.

Definition fresh : Ext :=
  {| isEnabled := true;
     isLockedOut := false;
     hasCdpHandler := true;
     backgroundModeEnabled := false;
     pollFrequency := 1000;
     currentIDE := Cursor;
     bannedCommandList := [];
     lockOwner := ∅;
     lockPing := ∅ |}.

End Extension.

(* ===================================================================== *)
(** * More of the injected agent *)
(* ===================================================================== *)

Module Tabs.
Import JS.

(** [\d] and the class [[smh]] of [stripTimeSuffix]. *)
Definition isDigit (c : N) : bool := ((48 <=? c) && (c <=? 57))%N.

Definition isTimeUnit (c : N) : bool :=
  (c =? 115)%N || (c =? 109)%N || (c =? 104)%N.

Fixpoint skipDigits (s : jsstring) : jsstring :=
  match s with
  | c :: s' => if isDigit c then skipDigits s' else s
  | [] => []
  end.

(** One attempt of [/\s*\d+[smh]$/] at the head of [s]: white space, then
    all the digits there are (at least one), then one unit letter, then the
    end of the string. *)
Definition matchTimeSuffix (s : jsstring) : bool :=
  match trimStart s with
  | d :: s1 =>
      isDigit d &&
      match skipDigits s1 with
      | [u] => isTimeUnit u
      | _ => false
      end
  | [] => false
  end.

(** [s.replace(/\s*\d+[smh]$/, '')]: the leftmost match runs to the end of
    the string and is deleted. *)
Fixpoint removeTimeSuffix (s : jsstring) : jsstring :=
  match s with
  | [] => []
  | c :: s' => if matchTimeSuffix s then [] else c :: removeTimeSuffix s'
  end.

(** [stripTimeSuffix(text)], with the empty string for a missing text. *)
Definition stripTimeSuffix (text : jsstring) : jsstring :=
  trim (removeTimeSuffix (trim text)).

(** The property names every object inherits from [Object.prototype]:
    for these [counts[name]] is not [undefined] in a fresh [{}].  All are
    methods but [__proto__], an accessor that ignores the assignment of a
    number. *)
Definition objectPrototypeKeys : list jsstring :=
  [js "constructor"; js "__defineGetter__"; js "__defineSetter__";
   js "hasOwnProperty"; js "__lookupGetter__"; js "__lookupSetter__";
   js "isPrototypeOf"; js "propertyIsEnumerable"; js "toString";
   js "valueOf"; js "__proto__"; js "toLocaleString"].

Definition isPrototypeKey (name : jsstring) : bool :=
  existsb (jseqb name) objectPrototypeKeys.

(** The decimal digits of a count, as the template literal prints it. *)
Definition decimal (n : Z) : jsstring := js (pretty n).

(** [`${name} (${counts[name]})`] *)
Definition numbered (name : jsstring) (n : Z) : jsstring :=
  name ++ js " (" ++ decimal n ++ js ")".

(** The callback of [names.map] in [deduplicateNames], with the object
    [counts] threaded through.  An inherited method is not a number:
    incrementing it stores NaN, now and at every later occurrence; the
    increment of [__proto__] stores nothing, and the template prints the
    prototype object. *)
Fixpoint deduplicateFrom (counts : gmap jsstring Z) (names : list jsstring)
  : list jsstring :=
  match names with
  | [] => []
  | name :: rest =>
      if jseqb name (js "__proto__") then
        (name ++ js " ([object Object])") :: deduplicateFrom counts rest
      else if isPrototypeKey name then
        (name ++ js " (NaN)") :: deduplicateFrom counts rest
      else
        match counts !! name with
        | None => name :: deduplicateFrom (<[name := 1]> counts) rest
        | Some c =>
            numbered name (c + 1)
            :: deduplicateFrom (<[name := c + 1]> counts) rest
        end
  end.

Definition deduplicateNames (names : list jsstring) : list jsstring :=
  deduplicateFrom ∅ names.

(** The tab each cycle of a background loop focuses: with [tabs.length]
    positive it is [tabs[index % tabs.length]] and [index] moves on, with
    no tab nothing is focused and [index] stays.  [lengths] gives
    [tabs.length] cycle by cycle. *)
Fixpoint focusSequence (index : Z) (lengths : list Z) : list (option Z) :=
  match lengths with
  | [] => []
  | n :: rest =>
      if 0 <? n then Some (index mod n) :: focusSequence (index + 1) rest
      else None :: focusSequence index rest
  end.

(** The cycles, among those counted by [lengths], that found a tab: each
    of them moved [index] on by one. *)
Definition cyclesWithTabs (lengths : list Z) : Z :=
  Z.of_nat (length (List.filter (fun n => 0 <? n) lengths)).

(** How often [name] occurs in a list. *)
Definition occurrences (name : jsstring) (names : list jsstring) : Z :=
  Z.of_nat (length (List.filter (jseqb name) names)).

End Tabs.

Module Accounting.
Import JS Agent.

Section WithRuntime.
Context {rt : Runtime}.

(** The test an element passes to be clicked in a pass that starts on
    page [pg] at time [now]. *)
Definition clickable (now : Z) (pg : Page) (el : Element) : bool :=
  negb (inCooldown (clickedTimestamps pg !! el_id el) now)
  && fst (isAcceptButton (state pg) el).

(** [isCommandButton] of [isAcceptButton]. *)
Definition isCommandButton (el : Element) : bool :=
  let text := normalizedText el in
  includes text (js "run command") || includes text (js "execute")
  || includes text (js "run").

(** The loops that would pass their test in world [w]. *)
Definition live (w : World) (l : Loop) : bool := loopGuard (state (page w)) l.

(** The generations of the loops grow along [loops]. *)
Definition generationsOrdered (w : World) : Prop :=
  forall i j l l',
    (i < j)%nat -> loops w !! i = Some l -> loops w !! j = Some l' ->
    sid l < sid l'.

End WithRuntime.

End Accounting.

Module Async.
Import JS Agent.

(** The two calls [performClick] makes on an element it accepts:
    [el.click()], inside a [try], and
    [el.dispatchEvent(new MouseEvent('click', ...))]. *)
Inductive Call :=
| NativeClick (el : nat)
| SyntheticClick (el : nat).

(** What the nodes of the page show at one moment: [dom el] is what the
    agent reads of node [el] (the field [el_id] is not read). *)
Definition Dom := nat -> Element.

(** An activation of [performClick] between two stretches of its code:
    suspended at [await waitForDisappear(el)] with its local variables
    ([rest] is what the [for] has still to take of [uniqueFound]), or
    returned with [verified]. *)
Inductive Pass :=
| Awaiting (now : Z) (rest : list nat) (el : nat) (buttonText : jsstring)
    (clicked verified : Z)
| Returned (clicked verified : Z).

(** One injected copy of the script with the activations of
    [performClick] it has seen: the state, the WeakMap
    [clickedTimestamps], the click calls made so far, each with the
    activation that made it, oldest first, and the activations in the
    order in which [performClick] was called.  Activations overlap when
    [performClick] is called while another waits, as [staticLoop], which
    does not await it, can do. *)
Record Frame := mkFrame {
  f_state : State;
  f_clickedTimestamps : gmap nat Z;
  f_calls : list (nat * Call);
  f_passes : list Pass
}.

Definition initialFrame (now : Z) : Frame :=
  {| f_state := initialState now;
     f_clickedTimestamps := ∅;
     f_calls := [];
     f_passes := [] |}.

Definition withFrameState (st : State) (f : Frame) : Frame :=
  {| f_state := st;
     f_clickedTimestamps := f_clickedTimestamps f;
     f_calls := f_calls f;
     f_passes := f_passes f |}.

Definition withPasses (ps : list Pass) (f : Frame) : Frame :=
  {| f_state := f_state f;
     f_clickedTimestamps := f_clickedTimestamps f;
     f_calls := f_calls f;
     f_passes := ps |}.

(** [[...new Set(found)]] on the nodes themselves: first occurrences, in
    order. *)
Fixpoint uniqueFound (seen found : list nat) : list nat :=
  match found with
  | [] => []
  | el :: rest =>
      if existsb (Nat.eqb el) seen then uniqueFound seen rest
      else el :: uniqueFound (el :: seen) rest
  end.

(** The calls on an accepted element, made by activation [i]. *)
Definition clickCalls (i el : nat) : list (nat * Call) :=
  [(i, NativeClick el); (i, SyntheticClick el)].

Section WithRuntime.
Context {rt : Runtime}.

(** The [for] of [performClick] from the element it takes next up to the
    next [await] or to the [return]: a stretch of code that runs without
    interruption, on the page as [dom] shows it.  [i] is the activation,
    [clicked] and [verified] its counters. *)
Fixpoint visit (i : nat) (dom : Dom) (now clicked verified : Z)
  (els : list nat) (f : Frame) : Frame * Pass :=
  match els with
  | [] => (f, Returned clicked verified)
  | el :: rest =>
      let lastClickTime := f_clickedTimestamps f !! el in
      if inCooldown lastClickTime now then
        visit i dom now clicked verified rest f
      else
        let '(accept, st1) := isAcceptButton (f_state f) (dom el) in
        if accept then
          let buttonText := trim (textContent (dom el)) in
          ({| f_state := st1;
              f_clickedTimestamps := <[el := now]> (f_clickedTimestamps f);
              f_calls := f_calls f ++ clickCalls i el;
              f_passes := f_passes f |},
           Awaiting now rest el buttonText (clicked + 1) verified)
        else visit i dom now clicked verified rest (withFrameState st1 f)
  end.

(** A call of [performClick(selectors)], up to its first [await] or its
    [return]: [found] are the nodes the selectors yield and [now] is
    [Date.now()]. *)
Definition enterPerformClick (now : Z) (found : list nat) (dom : Dom)
  (f : Frame) : Frame :=
  let i := length (f_passes f) in
  let '(f1, p) := visit i dom now 0 0 (uniqueFound [] found) f in
  withPasses (f_passes f1 ++ [p]) f1.

(** Activation [i] goes on when the promise of [waitForDisappear]
    settles: both branches track the click and count it, and the [for]
    takes the next element. *)
Definition resumePerformClick (i : nat) (dom : Dom) (f : Frame) : Frame :=
  match f_passes f !! i with
  | Some (Awaiting now rest el buttonText clicked verified) =>
      let f0 := withFrameState (withStats (trackClick buttonText) (f_state f)) f in
      let '(f1, p) := visit i dom now clicked (verified + 1) rest f0 in
      withPasses (<[i := p]> (f_passes f1)) f1
  | _ => f
  end.

(** The frame as a world without loops, for the entry points. *)
Definition worldOf (f : Frame) : World :=
  {| page := {| state := f_state f;
                clickedTimestamps := f_clickedTimestamps f;
                dispatched := [] |};
     loops := [] |}.

(** What can happen to the frame: an entry point is called (an event of
    [Agent], taken for what it writes to the state; the resumption of a
    loop, which is no entry point, writes nothing here); a loop calls
    [performClick] (which loop, and that its test let it, is not
    recorded: what is proved holds of every call, those a start makes
    before it returns among them); the wait of an activation is over. *)
Inductive Event :=
| EvEntry (e : Agent.Event)
| EvPerformClick (now : Z) (found : list nat) (dom : Dom)
| EvSettled (i : nat) (dom : Dom).

Definition step (f : Frame) (e : Event) : Frame :=
  match e with
  | EvEntry e => withFrameState (state (page (Agent.step (worldOf f) e))) f
  | EvPerformClick now found dom => enterPerformClick now found dom f
  | EvSettled i dom => resumePerformClick i dom f
  end.

Definition run (f : Frame) (es : list Event) : Frame := fold_left step es f.

(** ** Vocabulary of the statements *)

(** The test an element passes to be clicked, on the frame and the page
    of the moment, by an activation that started at [now]. *)
Definition clickableNow (dom : Dom) (now : Z) (f : Frame) (el : nat) : bool :=
  negb (inCooldown (f_clickedTimestamps f !! el) now)
  && fst (isAcceptButton (f_state f) (dom el)).

(** The clicks the resets of a history hand over. *)
Fixpoint collectedClicks (f : Frame) (es : list Event) : Z :=
  match es with
  | [] => 0
  | e :: es' =>
      match e with
      | EvEntry (EvResetStats _) => clicksThisSession (stats (f_state f))
      | _ => 0
      end + collectedClicks (step f e) es'
  end.

End WithRuntime.

(** The pass of activation [i] left alone: its waits end one after the
    other, nothing else happening in between; [doms] is what the page
    shows each time the pass comes back. *)
Definition settleWith {rt : Runtime} (i : nat) (doms : list Dom) (f : Frame)
  : Frame :=
  fold_left (fun f dom => resumePerformClick i dom f) doms f.

(** The frame as the page of [Agent], with no click entered yet. *)
Definition pageOf (f : Frame) : Page := page (worldOf f).

(** The outcome of a stretch of activation [i], put where it belongs. *)
Definition storePass (i : nat) (r : Frame * Pass) : Frame :=
  withPasses (<[i := snd r]> (f_passes (fst r))) (fst r).

(** What follows the first element that passes [p]. *)
Fixpoint afterFirst (p : nat -> bool) (els : list nat) : list nat :=
  match els with
  | [] => []
  | el :: rest => if p el then rest else afterFirst p rest
  end.

(** The elements activation [i] has called [click()] on, oldest first. *)
Definition clickedBy (i : nat) (calls : list (nat * Call)) : list nat :=
  flat_map (fun c => match c with
                     | (j, NativeClick el) => if Nat.eqb j i then [el] else []
                     | (_, SyntheticClick _) => []
                     end) calls.

(** The elements [click()] was called on, by any activation. *)
Definition elementsClicked (calls : list (nat * Call)) : list (nat * nat) :=
  flat_map (fun c => match c with
                     | (j, NativeClick el) => [(j, el)]
                     | (_, SyntheticClick _) => []
                     end) calls.

Definition clickedOf (p : Pass) : Z :=
  match p with
  | Awaiting _ _ _ _ clicked _ => clicked
  | Returned clicked _ => clicked
  end.

Definition verifiedOf (p : Pass) : Z :=
  match p with
  | Awaiting _ _ _ _ _ verified => verified
  | Returned _ verified => verified
  end.

Definition isAwaiting (p : Pass) : bool :=
  match p with Awaiting _ _ _ _ _ _ => true | Returned _ _ => false end.

(** The activations suspended at their [await]. *)
Definition awaitingCount (f : Frame) : Z :=
  Z.of_nat (length (List.filter isAwaiting (f_passes f))).

Definition clicksOf (f : Frame) : Z := clicksThisSession (stats (f_state f)).
Definition trackedOf (f : Frame) : Z :=
  fileEditsThisSession (stats (f_state f))
  + terminalCommandsThisSession (stats (f_state f)).
Definition awayOf (f : Frame) : Z := actionsWhileAway (stats (f_state f)).
Definition focusedOf (f : Frame) : bool := isWindowFocused (stats (f_state f)).

(** The sum of a counter over the activations. *)
Definition sumOf (g : Pass -> Z) (ps : list Pass) : Z :=
  fold_right (fun p a => g p + a) 0 ps.

(** The calls of a frame when every [click()] is followed at once by the
    synthetic click of the same activation on the same element, and no
    synthetic click comes any other way. *)
Definition paired (calls : list (nat * Call)) : list (nat * Call) :=
  flat_map (fun c => clickCalls (fst c) (snd c)) (elementsClicked calls).

(** [st'] is [st] with some more blocked commands counted. *)
Definition countedBlocks (st st' : State) : Prop :=
  exists n : nat, st' = Nat.iter n (withStats trackBlocked) st.

(** The local variables of activation [i] agree with the calls it has
    made: it has clicked no element twice, [clicked] counts the elements
    it has clicked, the elements it has still to take are not among
    them, and [verified] is behind by the click it waits for. *)
Definition passConsistent (calls : list (nat * Call)) (i : nat) (p : Pass)
  : Prop :=
  List.NoDup (clickedBy i calls)
  /\ clickedOf p = Z.of_nat (length (clickedBy i calls))
  /\ match p with
     | Awaiting now rest el buttonText clicked verified =>
         clicked = verified + 1
         /\ List.NoDup rest
         /\ (forall x, In x rest -> ~ In x (clickedBy i calls))
         /\ last (clickedBy i calls) = Some el
     | Returned clicked verified => clicked = verified
     end.

Record consistent (f : Frame) : Prop := mkConsistent {
  calls_paired : f_calls f = paired (f_calls f);
  calls_known :
    forall j c, In (j, c) (f_calls f) -> (j < length (f_passes f))%nat;
  passes_consistent :
    forall i p, f_passes f !! i = Some p -> passConsistent (f_calls f) i p;
  tracked_verified : trackedOf f = sumOf verifiedOf (f_passes f);
  clicked_total :
    Z.of_nat (length (elementsClicked (f_calls f)))
    = sumOf clickedOf (f_passes f);
  clicked_verified :
    sumOf clickedOf (f_passes f)
    = sumOf verifiedOf (f_passes f) + awaitingCount f
}.

(** The calls activation [i] has made on element [el], oldest first. *)
Definition callsOn (i el : nat) (calls : list (nat * Call))
  : list (nat * Call) :=
  List.filter (fun c => Nat.eqb (fst c) i
                        && match snd c with
                           | NativeClick x => Nat.eqb x el
                           | SyntheticClick x => Nat.eqb x el
                           end) calls.

(** A page for concrete instances: node 8 shows "Accept or Cancel", node 9
    shows white space, every other node shows "Accept". *)
Definition exampleDom : Dom :=
  fun el =>
    {| el_id := el;
       textContent :=
         if Nat.eqb el 8 then js "Accept or Cancel"
         else if Nat.eqb el 9 then js "  "
         else js "Accept";
       nearbyCommandText := [];
       displayNone := false;
       widthPositive := true;
       pointerEventsNone := false;
       disabled := false |}.

(** The same page once node 7 has been clicked and is gone: it has no
    text and no width. *)
Definition exampleDomAfter : Dom :=
  fun el =>
    if Nat.eqb el 7 then
      {| el_id := 7;
         textContent := [];
         nearbyCommandText := [];
         displayNone := true;
         widthPositive := false;
         pointerEventsNone := false;
         disabled := false |}
    else exampleDom el.

(** A pass over nodes 7, 8, 7 and 10 called at time 1000 in a fresh frame:
    it clicks node 7 and waits. *)
Definition exampleFrame : Frame :=
  run (rt := asciiRuntime) (initialFrame 1)
      [EvPerformClick 1000 [7; 8; 7; 10]%nat exampleDom].

(** The pass, a stop while it waits, the end of its wait, a reset, and the
    end of its second wait. *)
Definition exampleHistory : list Event :=
  [EvPerformClick 1000 [7; 8; 7; 10]%nat exampleDom;
   EvEntry EvStop;
   EvSettled 0 exampleDom;
   EvEntry (EvResetStats 2000);
   EvSettled 0 exampleDom].

End Async.

(* ===================================================================== *)
(** * Discovery and synchronisation *)
(* ===================================================================== *)

Module Discovery.

(** [type] of a target descriptor: the four names the table of the sort
    lists; a name every object inherits from [Object.prototype]
    ([constructor], [toString], [__proto__], ...); and any other value the
    protocol reports (or none). *)
Inductive TargetType :=
| TPage | TIframe | TOther | TWorker | TUnlisted | TInherited.

(** What the handler reads of an entry of [/json/list]. *)
Record Target := mkTarget {
  t_id : string;
  t_type : TargetType;
  hasSocketUrl : bool
}.

(** [priority[a.type] ?? 2].  For an inherited name the lookup finds the
    member of the prototype, which is not nullish and not a number:
    [None]. *)
Definition priority (t : Target) : option Z :=
  match t_type t with
  | TPage => Some 0
  | TIframe => Some 1
  | TOther => Some 2
  | TWorker => Some 3
  | TUnlisted => Some 2
  | TInherited => None
  end.

(** [aPriority - bPriority] as the sort reads it: the difference is NaN
    when a side is not a number, and [sort] takes NaN for +0. *)
Definition comparePriority (a b : Target) : Z :=
  match priority a, priority b with
  | Some x, Some y => x - y
  | _, _ => 0
  end.

(** The ports [p] of [for (let p = startPort; p <= endPort; p++)]. *)
Definition portRange (startPort endPort : Z) : list Z :=
  List.map (fun i => startPort + Z.of_nat i)
           (seq 0 (Z.to_nat (endPort - startPort + 1))).

(** [portsToScan] of [scanForInstances]. *)
Definition portsToScan (startPort endPort : Z) : list Z :=
  9222 :: List.filter (fun p => negb (p =? 9222)) (portRange startPort endPort).

(** [Array.prototype.sort] with that comparator.  The sort is stable, so
    on targets whose priorities are numbers the result is that of
    inserting each element, from the last to the first, before the first
    element that does not come before it.  With an inherited type name the
    comparator is not consistent and the language leaves the order to the
    engine; the insertion is then one of the orders allowed. *)
Fixpoint insertByPriority (t : Target) (sorted : list Target) : list Target :=
  match sorted with
  | [] => [t]
  | u :: rest =>
      if comparePriority t u <=? 0 then t :: sorted
      else u :: insertByPriority t rest
  end.

Definition sortByPriority (l : list Target) : list Target :=
  fold_right insertByPriority [] l.

(** What [getPages] resolves with, from the parsed response [allPages]. *)
Definition getPages (allPages : list Target) : list Target :=
  sortByPriority (List.filter hasSocketUrl allPages).

(** The priority of [t] is a number. *)
Definition ranked (t : Target) : Prop := t_type t <> TInherited.

(** [a] may stand before [b]: both priorities are numbers, in order. *)
Definition inOrder (a b : Target) : Prop :=
  match priority a, priority b with
  | Some x, Some y => x <= y
  | _, _ => False
  end.

(** The targets of priority [k]. *)
Definition ofPriority (k : Z) (t : Target) : bool :=
  match priority t with
  | Some x => x =? k
  | None => false
  end.

(** A response for concrete instances: a worker, a target of a type the
    table does not list, a page without socket address, a frame and a
    page. *)
Definition exampleTargets : list Target :=
  [ {| t_id := "sw"; t_type := TWorker; hasSocketUrl := true |};
    {| t_id := "view"; t_type := TUnlisted; hasSocketUrl := true |};
    {| t_id := "closed"; t_type := TPage; hasSocketUrl := false |};
    {| t_id := "frame"; t_type := TIframe; hasSocketUrl := true |};
    {| t_id := "main"; t_type := TPage; hasSocketUrl := true |} ].

(** [scanForInstances]: [probe port] is what [getPages(port)] resolves
    with, or [None] when it rejects. *)
Definition scanForInstances (startPort endPort : Z)
  (probe : Z -> option (list Target)) : list (Z * list Target) :=
  omap (fun port =>
          match probe port with
          | Some pages =>
              if (0 <? Z.of_nat (length pages)) then Some (port, pages)
              else None
          | None => None
          end)
       (portsToScan startPort endPort).

End Discovery.

Module Sync.
Import Discovery.

(** How the evaluation of the composed script ends in [injectAndStart]:
    the script file is missing, [sendCommand] rejects, the page reports
    [exceptionDetails], or the script is in. *)
Inductive InjectOutcome :=
| ScriptMissing | EvalRejected | EvalException | EvalOk.

(** The calls one cycle makes. *)
Inductive Action :=
| Connect (pageId : string)
| EvaluateScript (pageId : string)
| PushStart (pageId : string).

(** The page an action addresses. *)
Definition actionPage (a : Action) : string :=
  match a with
  | Connect p => p
  | EvaluateScript p => p
  | PushStart p => p
  end.

(** [injectAndStart(pageId, config)] on the table of connections.  A
    rejected start push is caught and changes nothing. *)
Definition injectAndStart (inject : InjectOutcome) (pageId : string)
  (conns : gmap string CDP.Conn) : gmap string CDP.Conn * list Action :=
  match conns !! pageId with
  | None => (conns, [])
  | Some conn =>
      if CDP.injected conn then (conns, [PushStart pageId])
      else
        match inject with
        | ScriptMissing => (conns, [])
        | EvalRejected => (conns, [EvaluateScript pageId])
        | EvalException => (conns, [EvaluateScript pageId])
        | EvalOk =>
            (<[pageId := {| CDP.readyStateOpen := CDP.readyStateOpen conn;
                            CDP.injected := true |}]> conns,
             [EvaluateScript pageId; PushStart pageId])
        end
  end.

(** One turn of the inner loop of [CDPHandler.start]: [opens] tells
    whether the socket of a page opens, [injects] how its injection ends.
    No socket closes while the cycle runs. *)
Definition syncPage (opens : string -> bool)
  (injects : string -> InjectOutcome) (page : Target)
  (conns : gmap string CDP.Conn) : gmap string CDP.Conn * list Action :=
  match t_type page with
  | TWorker => (conns, [])
  | _ =>
      let '(conns1, a1) :=
        match conns !! t_id page with
        | Some _ => (conns, [])
        | None =>
            (if opens (t_id page)
             then <[t_id page := {| CDP.readyStateOpen := true;
                                    CDP.injected := false |}]> conns
             else conns,
             [Connect (t_id page)])
        end in
      let '(conns2, a2) :=
        match conns1 !! t_id page with
        | Some _ => injectAndStart (injects (t_id page)) (t_id page) conns1
        | None => (conns1, [])
        end in
      (conns2, a1 ++ a2)
  end.

Fixpoint syncPages (opens : string -> bool)
  (injects : string -> InjectOutcome) (pages : list Target)
  (conns : gmap string CDP.Conn) : gmap string CDP.Conn * list Action :=
  match pages with
  | [] => (conns, [])
  | page :: rest =>
      let '(conns1, a1) := syncPage opens injects page conns in
      let '(conns2, a2) := syncPages opens injects rest conns1 in
      (conns2, a1 ++ a2)
  end.

Definition isInjected (conns : gmap string CDP.Conn) (pageId : string) : bool :=
  match conns !! pageId with
  | Some conn => CDP.injected conn
  | None => false
  end.

End Sync.

Module ChannelLog.

(** The ids of the commands written so far, oldest first. *)
Definition sentIds (h : CDP.Handler) : list Z :=
  List.map (fun frame => snd (fst frame)) (CDP.sent h).

(** The ids [first], [first + 1], ... ; [count] of them. *)
Definition countingFrom (first : Z) (count : nat) : list Z :=
  List.map (fun i => first + Z.of_nat i) (seq 0 count).

End ChannelLog.

(* ===================================================================== *)
(** * Weekly statistics of the extension *)
(* ===================================================================== *)

Module ROI.

(** The object stored under [ROI_STATS_KEY]. *)
Record RoiStats := mkRoiStats {
  weekStart : Z;
  clicksThisWeek : Z;
  blockedThisWeek : Z;
  sessionsThisWeek : Z
}.

Definition defaultStats (week : Z) : RoiStats :=
  {| weekStart := week;
     clicksThisWeek := 0;
     blockedThisWeek := 0;
     sessionsThisWeek := 0 |}.

(** What [loadROIStats] leaves behind: the stats it returns, the value
    under the key, and whether the weekly summary was shown. *)
Record Loaded := mkLoaded {
  loadedStats : RoiStats;
  stored : option RoiStats;
  summaryShown : bool
}.

(** [loadROIStats(context)]; [week1] and [week2] are the two readings of
    [getWeekStart()], [store] the value under the key. *)
Definition loadROIStats (week1 week2 : Z) (store : option RoiStats) : Loaded :=
  let stats :=
    match store with Some s => s | None => defaultStats week1 end in
  if negb (weekStart stats =? week2) then
    {| loadedStats := defaultStats week2;
       stored := Some (defaultStats week2);
       summaryShown := 0 <? clicksThisWeek stats |}
  else
    {| loadedStats := stats; stored := store; summaryShown := false |}.




(** What the extension does to the weekly stats, each with its readings
    of the week start. *)
Inductive Op :=
| Collect (week1 week2 clicks blocked : Z)
| NewSession (week1 week2 : Z).



Definition clicksOf (op : Op) : Z :=
  match op with Collect _ _ c _ => c | NewSession _ _ => 0 end.




End ROI.

(* ===================================================================== *)
(** * Facts about the string built-ins *)
(* ===================================================================== *)

Import JS.

Lemma unit_eqb_eq (a b : N) : unit_eqb a b = true <-> a = b.
Proof. unfold unit_eqb. apply N.eqb_eq. Qed.

Lemma jseqb_eq (a b : jsstring) : jseqb a b = true <-> a = b.
Proof.
  revert b. induction a as [|x a IH]; intros [|y b]; simpl; try easy.
  rewrite andb_true_iff, unit_eqb_eq, IH. split.
  - intros [-> ->]. reflexivity.
  - intros E. injection E as -> ->. split; reflexivity.
Qed.

Lemma jseqb_refl (a : jsstring) : jseqb a a = true.
Proof. apply jseqb_eq. reflexivity. Qed.

Lemma falsy_nil (s : jsstring) : falsy s = true <-> s = [].
Proof. destruct s; simpl; split; congruence. Qed.

Lemma startsWith_prefix (s p : jsstring) :
  startsWith s p = true <-> exists post, s = p ++ post.
Proof.
  revert s. induction p as [|y p IH]; intros s; simpl.
  - split; [intros _; exists s; reflexivity | reflexivity].
  - destruct s as [|x s].
    + split; [discriminate | intros [post E]; discriminate].
    + rewrite andb_true_iff, unit_eqb_eq, IH. split.
      * intros [-> [post ->]]. exists post. reflexivity.
      * intros [post E]. injection E as -> ->. split; [reflexivity | eauto].
Qed.

(** [includes] decides the substring relation. *)
Lemma includes_occursIn (s p : jsstring) :
  includes s p = true <-> occursIn p s.
Proof.
  unfold occursIn. induction s as [|x s IH].
  - cbn [includes]. rewrite orb_false_r, startsWith_prefix. split.
    + intros [post E]. exists [], post. exact E.
    + intros [pre [post E]]. destruct pre as [|a pre]; [|discriminate].
      exists post. exact E.
  - cbn [includes]. rewrite orb_true_iff, startsWith_prefix, IH. split.
    + intros [[post E] | [pre [post E]]].
      * exists [], post. exact E.
      * exists (x :: pre), post. rewrite E. reflexivity.
    + intros [pre [post E]]. destruct pre as [|a pre].
      * left. exists post. exact E.
      * right. injection E as -> E. exists pre, post. exact E.
Qed.

Lemma includes_false_not_occursIn (s p : jsstring) :
  includes s p = false -> ~ occursIn p s.
Proof.
  intros E H. apply includes_occursIn in H. congruence.
Qed.

Lemma existsb_includes (text : jsstring) (l : list jsstring) :
  existsb (fun k => includes text k) l = true <->
  exists k, In k l /\ occursIn k text.
Proof.
  rewrite existsb_exists. split; intros [k [Hk H]]; exists k; split; auto;
    apply includes_occursIn; exact H.
Qed.

(* ===================================================================== *)
(** * Analytics: the click counters *)
(* ===================================================================== *)

Import Agent.

Section AnalyticsFacts.
Context {rt : Runtime}.

Lemma categorizeClick_terminal (buttonText : jsstring) :
  categorizeClick buttonText = TERMINAL_COMMAND <->
  exists k, In k TERMINAL_KEYWORDS /\ occursIn k (toLowerCase buttonText).
Proof.
  unfold categorizeClick. rewrite <- existsb_includes.
  destruct (existsb _ _); split; congruence.
Qed.

Lemma trackClick_balance (buttonText : jsstring) (stats : Stats) :
  clicksThisSession (trackClick buttonText stats)
  - (fileEditsThisSession (trackClick buttonText stats)
     + terminalCommandsThisSession (trackClick buttonText stats))
  = clicksThisSession stats
    - (fileEditsThisSession stats + terminalCommandsThisSession stats).
Proof.
  unfold trackClick. cbn. destruct (categorizeClick buttonText); lia.
Qed.

Lemma trackClicks_balance (texts : list jsstring) (stats : Stats) :
  clicksThisSession (trackClicks texts stats)
  - (fileEditsThisSession (trackClicks texts stats)
     + terminalCommandsThisSession (trackClicks texts stats))
  = clicksThisSession stats
    - (fileEditsThisSession stats + terminalCommandsThisSession stats).
Proof.
  unfold trackClicks. revert stats.
  induction texts as [|t texts IH]; intros stats; cbn [fold_left].
  - reflexivity.
  - rewrite IH. apply trackClick_balance.
Qed.

(** C10.  From the default stats, after any series of [trackClick] calls
    the click total is the sum of the two category counters; each call adds
    one to the total and one to exactly one category: the terminal counter
    when the lower-cased button text contains run, execute, command or
    terminal, the file-edit counter otherwise. *)
Theorem trackClick_partitions_clicks :
  (forall texts : list jsstring,
     let s := trackClicks texts createDefaultStats in
     clicksThisSession s
     = fileEditsThisSession s + terminalCommandsThisSession s)
  /\
  (forall (buttonText : jsstring) (stats : Stats),
     let s := trackClick buttonText stats in
     clicksThisSession s = clicksThisSession stats + 1
     /\ ((exists k, In k TERMINAL_KEYWORDS
                    /\ occursIn k (toLowerCase buttonText))
         /\ terminalCommandsThisSession s
            = terminalCommandsThisSession stats + 1
         /\ fileEditsThisSession s = fileEditsThisSession stats
         \/
         (~ exists k, In k TERMINAL_KEYWORDS
                      /\ occursIn k (toLowerCase buttonText))
         /\ fileEditsThisSession s = fileEditsThisSession stats + 1
         /\ terminalCommandsThisSession s
            = terminalCommandsThisSession stats)).
Proof.
  split.
  - intros texts s.
    pose proof (trackClicks_balance texts createDefaultStats) as H.
    fold s in H. cbn in H. lia.
  - intros buttonText stats s. split; [reflexivity|].
    subst s. unfold trackClick. cbn.
    destruct (categorizeClick buttonText) eqn:E.
    + right. split; [|split; reflexivity].
      rewrite <- categorizeClick_terminal. congruence.
    + left. split; [|split; reflexivity].
      apply categorizeClick_terminal. exact E.
Qed.

End AnalyticsFacts.

(* ===================================================================== *)
(** * The banned-command filter *)
(* ===================================================================== *)

Section FilterFacts.
Context {rt : Runtime}.

Lemma checkPattern_plain (st : State) (commandText banned : jsstring) :
  isDelimited (trim banned) = false ->
  is_Some (checkPattern st commandText (toLowerCase commandText) banned) <->
  trim banned <> [] /\ literalMatch commandText banned.
Proof.
  intros Hplain. unfold checkPattern, literalMatch. rewrite Hplain.
  destruct (falsy (trim banned)) eqn:Hf.
  - apply falsy_nil in Hf. split.
    + intros [x Hx]. discriminate.
    + intros [Hne _]. contradiction.
  - assert (trim banned <> []) as Hne.
    { intros E. apply falsy_nil in E. congruence. }
    rewrite <- includes_occursIn.
    destruct (includes _ _); split.
    + intros _. split; [exact Hne | reflexivity].
    + intros _. eexists. reflexivity.
    + intros [x Hx]. discriminate.
    + intros [_ Hx]. discriminate.
Qed.

Lemma checkPattern_invalid (st : State) (commandText banned : jsstring) :
  isDelimited (trim banned) = true ->
  RegExp_new (regexPatternOf (trim banned)) (flagsOf (trim banned)) = None ->
  checkPattern st commandText (toLowerCase commandText) banned
  = if includes (toLowerCase commandText) (toLowerCase (trim banned))
    then Some (withStats trackBlocked st) else None.
Proof.
  intros Hd Hbad. unfold checkPattern. rewrite Hd, Hbad.
  destruct (falsy (trim banned)) eqn:Hf; [|reflexivity].
  apply falsy_nil in Hf. rewrite Hf in Hd. discriminate.
Qed.

Lemma scanBanned_hit (st st' : State) (commandText lowerText : jsstring)
  (bannedList : list jsstring) (banned : jsstring) :
  In banned bannedList ->
  checkPattern st commandText lowerText banned = Some st' ->
  fst (scanBanned st commandText lowerText bannedList) = true.
Proof.
  intros Hin Hhit. induction bannedList as [|b rest IH]; [contradiction|].
  cbn [scanBanned].
  destruct (checkPattern st commandText lowerText b) eqn:E; [reflexivity|].
  destruct Hin as [-> | Hin]; [congruence | exact (IH Hin)].
Qed.

Lemma isCommandBanned_empty_list (st : State) (commandText : jsstring) :
  bannedCommands st = [] -> isCommandBanned st commandText = (false, st).
Proof. intros E. unfold isCommandBanned. rewrite E. reflexivity. Qed.

Lemma isCommandBanned_scan (st : State) (commandText : jsstring) :
  bannedCommands st <> [] -> commandText <> [] ->
  isCommandBanned st commandText
  = scanBanned st commandText (toLowerCase commandText) (bannedCommands st).
Proof.
  intros Hl Ht. unfold isCommandBanned.
  destruct (bannedCommands st) as [|b l]; [contradiction|].
  destruct commandText; [contradiction|]. reflexivity.
Qed.

End FilterFacts.

(** C5, as amended.  Against the empty list nothing is banned; a single
    pattern that is plain once trimmed bans a text exactly when the text is
    not empty, the trimmed pattern is not empty, and the trimmed pattern
    occurs in the text, both lower-cased; and the text
    [sudo rm -rf /tmp/x] is banned by the list of the one pattern
    [rm -rf /]. *)
Theorem isCommandBanned_plain_pattern :
  (forall (rt : Runtime) (st : State) (commandText : jsstring),
     bannedCommands st = [] -> fst (isCommandBanned st commandText) = false)
  /\
  (forall (rt : Runtime) (st : State) (commandText banned : jsstring),
     bannedCommands st = [banned] ->
     isDelimited (trim banned) = false ->
     (fst (isCommandBanned st commandText) = true <->
      commandText <> [] /\ trim banned <> []
      /\ literalMatch commandText banned))
  /\
  fst (isCommandBanned (rt := asciiRuntime) exampleState exampleText) = true.
Proof.
  split; [|split].
  - intros rt st commandText E.
    rewrite (isCommandBanned_empty_list st commandText E). reflexivity.
  - intros rt st commandText banned E Hplain.
    destruct commandText as [|c text].
    + unfold isCommandBanned. rewrite E. cbn. split; [discriminate|].
      intros [H _]. contradiction.
    + rewrite isCommandBanned_scan by (rewrite ?E; discriminate).
      rewrite E. cbn [scanBanned].
      pose proof (checkPattern_plain st (c :: text) banned Hplain) as H.
      destruct (checkPattern st (c :: text) (toLowerCase (c :: text)) banned)
        as [st'|] eqn:Hc; cbn [fst].
      * split; [|reflexivity]. intros _. split; [discriminate|].
        apply H. eexists. reflexivity.
      * split; [discriminate|]. intros [_ Hm]. apply H in Hm.
        destruct Hm as [x Hx]. discriminate.
  - vm_compute. reflexivity.
Qed.

(** The two general parts of the theorem at concrete inputs. *)
Lemma isCommandBanned_plain_pattern_witness :
  fst (isCommandBanned (rt := asciiRuntime) (initialState 1) exampleText)
  = false
  /\ (fst (isCommandBanned (rt := asciiRuntime) exampleState exampleText)
      = true <->
      exampleText <> [] /\ trim (js "rm -rf /") <> []
      /\ literalMatch (rt := asciiRuntime) exampleText (js "rm -rf /")).
Proof.
  destruct isCommandBanned_plain_pattern as [Hempty [Hplain _]]. split.
  - apply (Hempty asciiRuntime). reflexivity.
  - apply (Hplain asciiRuntime); reflexivity.
Defined.

(** C5 as stated fails: the pattern [ rm], with a leading blank, is plain
    and does not occur in [arm], yet it bans [arm], because the loop trims
    every pattern before it matches. *)
Lemma isCommandBanned_trims_pattern :
  isDelimited (js " rm") = false
  /\ fst (isCommandBanned (rt := asciiRuntime)
            (withBannedCommands [js " rm"] (initialState 1)) (js "arm"))
     = true
  /\ ~ occursIn (toLowerCase (Runtime := asciiRuntime) (js " rm"))
                (toLowerCase (Runtime := asciiRuntime) (js "arm")).
Proof.
  split; [reflexivity|]. split; [vm_compute; reflexivity|].
  apply includes_false_not_occursIn. vm_compute. reflexivity.
Qed.

(** C6.  A pattern of the list that has the delimited form and does not
    compile is matched as a literal: a non-empty text in which the pattern
    (as the loop holds it, trimmed) occurs, both lower-cased, is banned;
    and when it is the only pattern, the answer is that of the literal
    test alone. *)
Theorem isCommandBanned_invalid_regex_literal
  (rt : Runtime) (st : State) (commandText banned : jsstring) :
  In banned (bannedCommands st) ->
  isDelimited (trim banned) = true ->
  RegExp_new (regexPatternOf (trim banned)) (flagsOf (trim banned)) = None ->
  commandText <> [] ->
  (literalMatch commandText banned ->
   fst (isCommandBanned st commandText) = true)
  /\ (bannedCommands st = [banned] ->
      fst (isCommandBanned st commandText)
      = includes (toLowerCase commandText) (toLowerCase (trim banned))).
Proof.
  intros Hin Hd Hbad Ht.
  assert (bannedCommands st <> []) as Hl.
  { intros E. rewrite E in Hin. contradiction. }
  rewrite (isCommandBanned_scan st commandText Hl Ht).
  pose proof (checkPattern_invalid st commandText banned Hd Hbad) as Hc.
  split.
  - intros Hm. apply includes_occursIn in Hm. rewrite Hm in Hc.
    exact (scanBanned_hit _ _ _ _ _ _ Hin Hc).
  - intros E. rewrite E. cbn [scanBanned]. rewrite Hc.
    destruct (includes _ _); reflexivity.
Qed.

(** The pattern [/dev/sda] has the delimited form, with flags [sda], and no
    engine compiles it. *)
Lemma isCommandBanned_invalid_regex_literal_witness :
  fst (isCommandBanned (rt := asciiRuntime)
         (withBannedCommands [js "rm -rf /"; js "/dev/sda"] (initialState 1))
         (js "dd if=x of=/dev/sda"))
  = true.
Proof.
  refine (proj1 (isCommandBanned_invalid_regex_literal asciiRuntime
            (withBannedCommands [js "rm -rf /"; js "/dev/sda"]
               (initialState 1))
            (js "dd if=x of=/dev/sda") (js "/dev/sda") _ _ _ _) _).
  - right. left. reflexivity.
  - reflexivity.
  - reflexivity.
  - discriminate.
  - apply includes_occursIn. vm_compute. reflexivity.
Defined.

(* ===================================================================== *)
(** * The click classifier and the click pass *)
(* ===================================================================== *)

Section ClickFacts.
Context {rt : Runtime}.

Lemma scanBanned_false_state (st : State) (commandText lowerText : jsstring)
  (bannedList : list jsstring) :
  fst (scanBanned st commandText lowerText bannedList) = false ->
  snd (scanBanned st commandText lowerText bannedList) = st.
Proof.
  induction bannedList as [|b rest IH]; cbn [scanBanned]; [reflexivity|].
  destruct (checkPattern st commandText lowerText b); [discriminate|exact IH].
Qed.

Lemma isCommandBanned_false_state (st : State) (commandText : jsstring) :
  fst (isCommandBanned st commandText) = false ->
  snd (isCommandBanned st commandText) = st.
Proof.
  unfold isCommandBanned.
  destruct (length (bannedCommands st) =? 0)%nat; [reflexivity|].
  destruct (falsy commandText); [reflexivity|].
  apply scanBanned_false_state.
Qed.

(** An accepted element leaves the state as it was: only a banned command
    is counted by the classifier. *)
Lemma isAcceptButton_true_state (st : State) (el : Element) :
  fst (isAcceptButton st el) = true -> snd (isAcceptButton st el) = st.
Proof.
  unfold isAcceptButton.
  destruct (_ || _); [discriminate|].
  destruct (existsb _ rejects); [discriminate|].
  destruct (negb _); [discriminate|].
  destruct (_ || _).
  - pose proof (isCommandBanned_false_state st (nearbyCommandText el)) as H.
    destruct (isCommandBanned st (nearbyCommandText el)) as [banned st1].
    cbn [fst snd] in *. destruct banned; [discriminate|].
    intros _. apply H. reflexivity.
  - reflexivity.
Qed.

(** C7.  [isAcceptButton] answers false, and changes nothing, whenever the
    normalized text is empty or longer than 50 code units, and whenever it
    contains a rejection keyword, whatever else it contains. *)
Theorem isAcceptButton_rejects_first (st : State) (el : Element) :
  (jslength (normalizedText el) = 0 \/ 50 < jslength (normalizedText el) ->
   isAcceptButton st el = (false, st))
  /\ ((exists r, In r rejects /\ occursIn r (normalizedText el)) ->
      isAcceptButton st el = (false, st)).
Proof.
  unfold isAcceptButton. split.
  - intros H.
    assert ((jslength (normalizedText el) =? 0)
            || (50 <? jslength (normalizedText el)) = true) as ->;
      [|reflexivity].
    apply orb_true_iff. destruct H as [H | H]; [left | right]; lia.
  - intros H. apply existsb_includes in H. rewrite H.
    destruct (_ || _); reflexivity.
Qed.

Lemma inCooldown_true (t now : Z) :
  t <> 0 -> now - t < CLICK_COOLDOWN_MS -> inCooldown (Some t) now = true.
Proof.
  intros Ht Hlt. unfold inCooldown. apply andb_true_iff. split.
  - apply negb_true_iff. lia.
  - lia.
Qed.

Lemma inCooldown_false (t now : Z) :
  CLICK_COOLDOWN_MS <= now - t -> inCooldown (Some t) now = false.
Proof.
  intros Hge. unfold inCooldown. apply andb_false_iff. right. lia.
Qed.

Lemma clickElement_cooling (now : Z) (pg : Page) (el : Element) (t : Z) :
  clickedTimestamps pg !! el_id el = Some t ->
  t <> 0 -> now - t < CLICK_COOLDOWN_MS ->
  clickElement now pg el = (pg, 0).
Proof.
  intros Hl Ht Hlt. unfold clickElement.
  rewrite Hl, (inCooldown_true t now Ht Hlt). reflexivity.
Qed.

(** What one element adds to the click log and to the timestamp table. *)
Lemma clickElement_effect (now : Z) (pg : Page) (el : Element) :
  (dispatched (fst (clickElement now pg el)) = dispatched pg
   /\ clickedTimestamps (fst (clickElement now pg el)) = clickedTimestamps pg)
  \/ (inCooldown (clickedTimestamps pg !! el_id el) now = false
      /\ dispatched (fst (clickElement now pg el))
         = dispatched pg ++ [el_id el]
      /\ clickedTimestamps (fst (clickElement now pg el))
         = <[el_id el := now]> (clickedTimestamps pg)).
Proof.
  unfold clickElement.
  destruct (inCooldown _ now) eqn:Hc; [left; split; reflexivity|].
  destruct (isAcceptButton (state pg) el) as [accept st1].
  destruct accept; [right | left]; repeat split; reflexivity.
Qed.

Lemma clickAll_skips_cooling (now : Z) (els : list Element) (pg : Page)
  (id : nat) (t : Z) :
  clickedTimestamps pg !! id = Some t ->
  t <> 0 -> now - t < CLICK_COOLDOWN_MS ->
  exists added,
    dispatched (fst (clickAll now pg els)) = dispatched pg ++ added
    /\ ~ In id added
    /\ clickedTimestamps (fst (clickAll now pg els)) !! id = Some t.
Proof.
  intros Hl Ht Hlt. revert pg Hl.
  induction els as [|el rest IH]; intros pg Hl; cbn [clickAll].
  - exists []. rewrite app_nil_r. auto.
  - pose proof (clickElement_effect now pg el) as He.
    destruct (clickElement now pg el) as [pg1 v1]. cbn [fst] in He.
    assert (clickedTimestamps pg1 !! id = Some t
            /\ exists a1, dispatched pg1 = dispatched pg ++ a1 /\ ~ In id a1)
      as [Hl1 [a1 [Hd1 Hn1]]].
    { destruct He as [[Hd Hc] | [Hcool [Hd Hc]]].
      - rewrite Hc. split; [exact Hl|]. exists []. rewrite app_nil_r. auto.
      - destruct (decide (el_id el = id)) as [E | E].
        + rewrite E, Hl, (inCooldown_true t now Ht Hlt) in Hcool.
          discriminate.
        + rewrite Hc, lookup_insert_ne by exact E. split; [exact Hl|].
          exists [el_id el]. split; [exact Hd|].
          intros [H | []]. contradiction. }
    destruct (IH pg1 Hl1) as [a2 [Hd2 [Hn2 Hl2]]].
    destruct (clickAll now pg1 rest) as [pg2 v2]. cbn [fst] in *.
    exists (a1 ++ a2). rewrite Hd2, Hd1, app_assoc. split; [reflexivity|].
    split; [|exact Hl2].
    intros H. apply in_app_or in H. tauto.
Qed.

End ClickFacts.

(** C8.  An element whose recorded click is less than 5000 ms old is
    passed over: its turn in the loop changes nothing and adds nothing to
    the count, and a whole pass dispatches no click on it and keeps its
    record.  An element whose recorded click is 5000 ms old or older is
    judged by the classifier alone, and when accepted it is clicked, its
    record is set to the time of the pass and the click is tracked.
    A recorded time is a reading of [Date.now()], which is never 0. *)
Theorem performClick_cooldown (rt : Runtime) (now : Z) (pg : Page)
  (el : Element) (t : Z) :
  clickedTimestamps pg !! el_id el = Some t ->
  (t <> 0 -> now - t < 5000 ->
   clickElement now pg el = (pg, 0)
   /\ forall found,
        ~ In (el_id el) (passClicks now found pg)
        /\ clickedTimestamps (fst (performClick now found pg)) !! el_id el
           = Some t)
  /\ (5000 <= now - t ->
      (fst (isAcceptButton (state pg) el) = false ->
       clickElement now pg el
       = (withState (snd (isAcceptButton (state pg) el)) pg, 0))
      /\ (fst (isAcceptButton (state pg) el) = true ->
          clickElement now pg el
          = ({| state := withStats (trackClick (trim (textContent el)))
                                   (state pg);
                clickedTimestamps := <[el_id el := now]> (clickedTimestamps pg);
                dispatched := dispatched pg ++ [el_id el] |}, 1))).
Proof.
  intros Hl. split.
  - intros Ht Hlt. split.
    + exact (clickElement_cooling now pg el t Hl Ht Hlt).
    + intros found. unfold passClicks, performClick.
      destruct (clickAll_skips_cooling now (uniqueFrom [] found) pg
                  (el_id el) t Hl Ht Hlt) as [added [Hd [Hn Hk]]].
      rewrite Hd, drop_app_length. split; assumption.
  - intros Hge. unfold clickElement.
    rewrite Hl, (inCooldown_false t now Hge).
    pose proof (isAcceptButton_true_state (state pg) el) as Hs.
    destruct (isAcceptButton (state pg) el) as [accept st1].
    cbn [fst snd] in *. split; intros ->.
    + reflexivity.
    + rewrite Hs by reflexivity. reflexivity.
Qed.

Lemma isAcceptButton_rejects_first_witness :
  isAcceptButton (rt := asciiRuntime) (initialState 1) emptyEl
  = (false, initialState 1)
  /\ isAcceptButton (rt := asciiRuntime) (initialState 1) acceptOrCancelEl
     = (false, initialState 1).
Proof.
  split.
  - apply (proj1 (isAcceptButton_rejects_first (rt := asciiRuntime)
                    (initialState 1) emptyEl)).
    left. reflexivity.
  - apply (proj2 (isAcceptButton_rejects_first (rt := asciiRuntime)
                    (initialState 1) acceptOrCancelEl)).
    exists (js "cancel"). split.
    + vm_compute. tauto.
    + exists (js "accept or "), []. reflexivity.
Defined.

Lemma performClick_cooldown_witness :
  clickElement (rt := asciiRuntime) 3000 (pageClickedAt 1000) acceptEl
  = (pageClickedAt 1000, 0)
  /\ clickElement (rt := asciiRuntime) 7000 (pageClickedAt 1000) acceptEl
     = ({| state := withStats (trackClick (rt := asciiRuntime)
                                 (trim (textContent acceptEl)))
                              (initialState 1);
           clickedTimestamps := <[7%nat := 7000]> {[ 7%nat := 1000 ]};
           dispatched := [7%nat] ++ [7%nat] |}, 1).
Proof.
  split.
  - refine (proj1 (proj1 (performClick_cooldown asciiRuntime 3000
                            (pageClickedAt 1000) acceptEl 1000 _) _ _)).
    + vm_compute. reflexivity.
    + lia.
    + lia.
  - refine (proj2 (proj2 (performClick_cooldown asciiRuntime 7000
                            (pageClickedAt 1000) acceptEl 1000 _) _) _).
    + vm_compute. reflexivity.
    + lia.
    + vm_compute. reflexivity.
Defined.

(* ===================================================================== *)
(** * Sessions: the generation counter *)
(* ===================================================================== *)

Section SessionFacts.
Context {rt : Runtime}.

Lemma sameControl_refl (st : State) : sameControl st st.
Proof. split; reflexivity. Qed.

Lemma sameControl_trans (a b c : State) :
  sameControl a b -> sameControl b c -> sameControl a c.
Proof. intros [H1 H2] [H3 H4]. split; congruence. Qed.

Lemma sameControl_withStats (f : Stats -> Stats) (st : State) :
  sameControl st (withStats f st).
Proof. split; reflexivity. Qed.

Lemma scanBanned_control (st : State) (commandText lowerText : jsstring)
  (bannedList : list jsstring) :
  sameControl st (snd (scanBanned st commandText lowerText bannedList)).
Proof.
  induction bannedList as [|b rest IH]; cbn [scanBanned].
  - apply sameControl_refl.
  - destruct (checkPattern st commandText lowerText b) as [st'|] eqn:E;
      [|exact IH].
    cbn [snd]. unfold checkPattern in E.
    repeat match type of E with
           | (if ?c then _ else _) = _ => destruct c
           | match ?c with _ => _ end = _ => destruct c
           end;
      inversion E; apply sameControl_withStats.
Qed.

Lemma isCommandBanned_control (st : State) (commandText : jsstring) :
  sameControl st (snd (isCommandBanned st commandText)).
Proof.
  unfold isCommandBanned.
  destruct (length (bannedCommands st) =? 0)%nat; [apply sameControl_refl|].
  destruct (falsy commandText); [apply sameControl_refl|].
  apply scanBanned_control.
Qed.

Lemma isAcceptButton_control (st : State) (el : Element) :
  sameControl st (snd (isAcceptButton st el)).
Proof.
  unfold isAcceptButton.
  destruct (_ || _); [apply sameControl_refl|].
  destruct (existsb _ rejects); [apply sameControl_refl|].
  destruct (negb _); [apply sameControl_refl|].
  destruct (_ || _).
  - pose proof (isCommandBanned_control st (nearbyCommandText el)) as H.
    destruct (isCommandBanned st (nearbyCommandText el)) as [banned st1].
    destruct banned; exact H.
  - apply sameControl_refl.
Qed.

Lemma clickElement_control (now : Z) (pg : Page) (el : Element) :
  sameControl (state pg) (state (fst (clickElement now pg el))).
Proof.
  unfold clickElement.
  destruct (inCooldown _ now); [apply sameControl_refl|].
  pose proof (isAcceptButton_control (state pg) el) as H.
  destruct (isAcceptButton (state pg) el) as [accept st1].
  destruct accept; cbn [fst snd state withState] in *.
  - eapply sameControl_trans; [exact H | apply sameControl_withStats].
  - exact H.
Qed.

Lemma clickAll_control (now : Z) (els : list Element) (pg : Page) :
  sameControl (state pg) (state (fst (clickAll now pg els))).
Proof.
  revert pg. induction els as [|el rest IH]; intros pg; cbn [clickAll].
  - apply sameControl_refl.
  - pose proof (clickElement_control now pg el) as H1.
    destruct (clickElement now pg el) as [pg1 v1].
    pose proof (IH pg1) as H2.
    destruct (clickAll now pg1 rest) as [pg2 v2].
    exact (sameControl_trans _ _ _ H1 H2).
Qed.

Lemma performClick_control (now : Z) (found : list Element) (pg : Page) :
  sameControl (state pg) (state (fst (performClick now found pg))).
Proof. apply clickAll_control. Qed.

(** A start either changes nothing but the banned list, or opens the next
    generation and launches its loop. *)
Lemma autoAcceptStart_cases (now : Z) (config : Config) (w : World) :
  let st := updateBannedCommands config (state (page w)) in
  let w' := autoAcceptStart now config w in
  (sameConfig st (configIde config) (configBG config) = true
   /\ sameControl (state (page w)) (state (page w'))
   /\ loops w' = loops w)
  \/
  (sameConfig st (configIde config) (configBG config) = false
   /\ sessionOf w' = sessionOf w + 1
   /\ runningOf w' = true
   /\ currentMode (state (page w')) = Some (configIde config)
   /\ isBackgroundMode (state (page w')) = Some (configBG config)
   /\ loops w' = loops w ++ [{| kind := loopFor (configIde config)
                                          (configBG config);
                                sid := sessionOf w';
                                cycles := 0;
                                stopped := false |}]).
Proof.
  intros st w'. subst st w'. unfold autoAcceptStart.
  assert (sameControl (state (page w))
            (updateBannedCommands config (state (page w)))) as Hb.
  { unfold updateBannedCommands.
    destruct (cfgBannedCommands config); split; reflexivity. }
  destruct (sameConfig _ _ _) eqn:E.
  - left. split; [reflexivity|]. split; [exact Hb | reflexivity].
  - right. split; [reflexivity|].
    unfold sessionOf, runningOf. cbn.
    destruct Hb as [_ Hs]. rewrite Hs. repeat split; reflexivity.
Qed.

Lemma sameConfig_running (st : State) (m : jsstring) (b : bool) :
  sameConfig st m b = true -> isRunning st = true.
Proof.
  unfold sameConfig. intros H.
  apply andb_true_iff in H as [H _]. apply andb_true_iff in H as [H _].
  exact H.
Qed.

Lemma sameConfig_of_fields (st : State) (m : jsstring) (b : bool) :
  isRunning st = true -> currentMode st = Some m ->
  isBackgroundMode st = Some b -> sameConfig st m b = true.
Proof.
  intros H1 H2 H3. unfold sameConfig.
  rewrite H1, H2, H3, jseqb_refl. destruct b; reflexivity.
Qed.

Lemma sameConfig_inv (st : State) (m : jsstring) (b : bool) :
  sameConfig st m b = true ->
  isRunning st = true /\ currentMode st = Some m
  /\ isBackgroundMode st = Some b.
Proof.
  unfold sameConfig. intros H.
  apply andb_true_iff in H as [H Hb]. apply andb_true_iff in H as [Hr Hm].
  split; [exact Hr|]. split.
  - destruct (currentMode st) as [m'|]; [|discriminate].
    apply jseqb_eq in Hm. congruence.
  - destruct (isBackgroundMode st) as [b'|]; [|discriminate].
    apply eqb_prop in Hb. congruence.
Qed.

(** The banned list of a configuration is stored without a look at the
    fields a start compares. *)
Lemma updateBannedCommands_fields (config : Config) (st : State) :
  isRunning (updateBannedCommands config st) = isRunning st
  /\ currentMode (updateBannedCommands config st) = currentMode st
  /\ isBackgroundMode (updateBannedCommands config st) = isBackgroundMode st.
Proof.
  unfold updateBannedCommands.
  destruct (cfgBannedCommands config); repeat split; reflexivity.
Qed.

Lemma resumeLoop_control (now : Z) (found : list Element) (l : Loop)
  (pg : Page) :
  sameControl (state pg) (state (snd (resumeLoop now found l pg))).
Proof.
  unfold resumeLoop. destruct (stopped l); [apply sameControl_refl|].
  destruct (loopGuard (state pg) l); [|apply sameControl_refl].
  apply performClick_control.
Qed.

Lemma resumeLoop_sid (now : Z) (found : list Element) (l : Loop) (pg : Page) :
  sid (fst (resumeLoop now found l pg)) = sid l
  /\ kind (fst (resumeLoop now found l pg)) = kind l.
Proof.
  unfold resumeLoop. destruct (stopped l); [split; reflexivity|].
  destruct (loopGuard (state pg) l); split; reflexivity.
Qed.

(** No event lowers the generation, and every event but a start and a stop
    leaves the two control fields alone. *)
Lemma step_session_mono (w : World) (e : Event) :
  sessionOf w <= sessionOf (step w e).
Proof.
  destruct e as [now config| | l | now | | b | i now found]; cbn [step];
    try (unfold sessionOf; cbn; lia).
  - destruct (autoAcceptStart_cases now config w) as [[_ [[_ H] _]] | [_ [H _]]].
    + unfold sessionOf. rewrite H. lia.
    + rewrite H. lia.
  - destruct (loops w !! i) as [l|] eqn:El; [|lia].
    pose proof (resumeLoop_control now found l (page w)) as [_ H].
    destruct (resumeLoop now found l (page w)) as [l' pg'].
    unfold sessionOf. cbn [page snd] in *. rewrite H. lia.
Qed.

Lemma retired_sameControl (st st' : State) (g : Z) :
  sameControl st st' -> retired st g -> retired st' g.
Proof. intros [H1 H2] H. unfold retired in *. rewrite H1, H2. exact H. Qed.

Lemma step_retired (w : World) (e : Event) (g : Z) :
  retired (state (page w)) g -> retired (state (page (step w e))) g.
Proof.
  intros H.
  destruct e as [now config| | l | now | | b | i now found]; cbn [step];
    try (eapply retired_sameControl; [|exact H]; split; reflexivity).
  - destruct (autoAcceptStart_cases now config w)
      as [[_ [Hc _]] | [Hn [Hs _]]].
    + exact (retired_sameControl _ _ _ Hc H).
    + left. fold (sessionOf (autoAcceptStart now config w)). rewrite Hs.
      unfold sessionOf. destruct H as [H | [_ H]]; lia.
  - unfold retired in *. cbn. destruct H as [H | [_ H]]; [left | right]; auto.
  - destruct (loops w !! i) as [l|] eqn:El; [|exact H].
    pose proof (resumeLoop_control now found l (page w)) as Hc.
    destruct (resumeLoop now found l (page w)) as [l' pg'].
    exact (retired_sameControl _ _ _ Hc H).
Qed.

Lemma retired_guard (st : State) (l : Loop) :
  retired st (sid l) -> loopGuard st l = false.
Proof.
  unfold retired, loopGuard. intros [H | [H _]].
  - apply andb_false_iff. right. lia.
  - rewrite H. reflexivity.
Qed.

Lemma step_loopsBounded (w : World) (e : Event) :
  loopsBounded w -> loopsBounded (step w e).
Proof.
  intros Hb. pose proof (step_session_mono w e) as Hm.
  unfold loopsBounded in *. intros i l.
  destruct e as [now config| | bl | now | | b | j now found]; cbn [step] in *;
    try (intros Hl; specialize (Hb i l Hl); lia).
  - destruct (autoAcceptStart_cases now config w)
      as [[_ [_ Hl]] | [_ [Hs [_ [_ [_ Hl]]]]]]; rewrite Hl.
    + intros Hi. specialize (Hb i l Hi). lia.
    + intros Hi. apply lookup_app_Some in Hi as [Hi | [_ Hi]].
      * specialize (Hb i l Hi). lia.
      * apply list_lookup_singleton_Some in Hi as [_ <-]. cbn. lia.
  - destruct (loops w !! j) as [lj|] eqn:El.
    + pose proof (resumeLoop_sid now found lj (page w)) as [Hsid _].
      destruct (resumeLoop now found lj (page w)) as [l' pg'].
      cbn [loops fst] in *. intros Hi.
      destruct (decide (j = i)) as [-> | Hne].
      * rewrite list_lookup_insert_eq in Hi
          by (eapply lookup_lt_Some; exact El).
        injection Hi as <-. rewrite Hsid. specialize (Hb i lj El). lia.
      * rewrite list_lookup_insert_ne in Hi by exact Hne.
        specialize (Hb i l Hi). lia.
    + intros Hi. specialize (Hb i l Hi). lia.
Qed.

Lemma run_snoc (w : World) (es : list Event) (e : Event) :
  run w (es ++ [e]) = step (run w es) e.
Proof. unfold run. rewrite fold_left_app. reflexivity. Qed.

Lemma run_loopsBounded (now0 : Z) (es : list Event) :
  loopsBounded (run (initialWorld now0) es).
Proof.
  induction es as [|e es IH] using rev_ind.
  - intros i l H. cbn in H. rewrite lookup_nil in H. discriminate.
  - rewrite run_snoc. apply step_loopsBounded. exact IH.
Qed.

(** A loop of a retired generation never runs another cycle. *)
Lemma run_retired_loop (es : list Event) (w : World) (i : nat) (l : Loop) :
  loops w !! i = Some l ->
  retired (state (page w)) (sid l) ->
  exists l2,
    loops (run w es) !! i = Some l2
    /\ sid l2 = sid l /\ kind l2 = kind l /\ cycles l2 = cycles l
    /\ loopGuard (state (page (run w es))) l2 = false.
Proof.
  revert w l. induction es as [|e es IH]; intros w l Hl Hr.
  - exists l. cbn. repeat split; try assumption; try reflexivity.
    apply retired_guard. exact Hr.
  - cbn [run fold_left].
    assert (exists l1, loops (step w e) !! i = Some l1
                       /\ sid l1 = sid l /\ kind l1 = kind l
                       /\ cycles l1 = cycles l)
      as [l1 [Hl1 [Hs1 [Hk1 Hc1]]]].
    { destruct e as [now config| | bl | now | | b | j now found];
        cbn [step]; try (exists l; repeat split; assumption).
      - destruct (autoAcceptStart_cases now config w)
          as [[_ [_ E]] | [_ [_ [_ [_ [_ E]]]]]]; rewrite E.
        + exists l. repeat split; assumption.
        + exists l. split; [|repeat split; reflexivity].
          apply lookup_app_l_Some. exact Hl.
      - destruct (loops w !! j) as [lj|] eqn:El;
          [|exists l; repeat split; assumption].
        destruct (decide (j = i)) as [-> | Hne].
        + assert (lj = l) as -> by congruence.
          unfold resumeLoop. destruct (stopped l) eqn:Hst.
          * cbn [loops]. exists l. split; [|repeat split; reflexivity].
            rewrite list_lookup_insert_eq
              by (eapply lookup_lt_Some; exact Hl). reflexivity.
          * rewrite (retired_guard _ _ Hr). cbn [loops].
            eexists. split.
            -- rewrite list_lookup_insert_eq
                 by (eapply lookup_lt_Some; exact Hl). reflexivity.
            -- repeat split; reflexivity.
        + destruct (resumeLoop now found lj (page w)) as [l' pg'].
          cbn [loops]. exists l. split; [|repeat split; reflexivity].
          rewrite list_lookup_insert_ne by exact Hne. exact Hl. }
    pose proof (step_retired w e (sid l) Hr) as Hr1.
    rewrite <- Hs1 in Hr1.
    destruct (IH (step w e) l1 Hl1 Hr1) as [l2 [H2 [Hs2 [Hk2 [Hc2 Hg2]]]]].
    exists l2. fold (run (step w e) es). repeat split; try congruence.
Qed.

End SessionFacts.

(** C2.  In every state the agent can reach: no event lowers [sessionID];
    a start is the no-op of C4 when the agent runs with the mode and the
    background flag of the configuration, and in every other case (the
    agent is not running, or the mode or the flag differs) it raises
    [sessionID] by exactly one, sets the mode and the flag and launches
    the loop of the new generation; a loop arriving at its test leaves,
    without touching the page, when [isRunning] is false or [sessionID]
    differs from the [sid] it was launched with, and runs one more cycle
    in every other case; and from the moment that signal can be seen the
    loop never runs another cycle, whatever happens before it wakes up. *)
Theorem sessionID_sole_cancellation (rt : Runtime) (now0 : Z)
  (es : list Event) :
  let w := run (initialWorld now0) es in
  (forall e, sessionOf w <= sessionOf (step w e))
  /\ (forall now config,
        let w' := autoAcceptStart now config w in
        (runningOf w = true
         /\ currentMode (state (page w)) = Some (configIde config)
         /\ isBackgroundMode (state (page w)) = Some (configBG config) ->
         sessionOf w' = sessionOf w /\ runningOf w' = runningOf w
         /\ loops w' = loops w)
        /\ (runningOf w = false
            \/ currentMode (state (page w)) <> Some (configIde config)
            \/ isBackgroundMode (state (page w)) <> Some (configBG config) ->
            sessionOf w' = sessionOf w + 1 /\ runningOf w' = true
            /\ currentMode (state (page w')) = Some (configIde config)
            /\ isBackgroundMode (state (page w')) = Some (configBG config)
            /\ loops w' = loops w ++ [{| kind := loopFor (configIde config)
                                                   (configBG config);
                                         sid := sessionOf w + 1;
                                         cycles := 0;
                                         stopped := false |}]))
  /\ (forall i l now found,
        loops w !! i = Some l -> stopped l = false ->
        let w' := step w (EvResume i now found) in
        (runningOf w = false \/ sessionOf w <> sid l ->
         page w' = page w
         /\ loops w' !! i = Some {| kind := kind l; sid := sid l;
                                    cycles := cycles l; stopped := true |})
        /\ (runningOf w = true /\ sessionOf w = sid l ->
            loops w' !! i = Some {| kind := kind l; sid := sid l;
                                    cycles := S (cycles l);
                                    stopped := false |}))
  /\ (forall i l es',
        loops w !! i = Some l ->
        runningOf w = false \/ sessionOf w <> sid l ->
        exists l2,
          loops (run w es') !! i = Some l2
          /\ sid l2 = sid l /\ cycles l2 = cycles l
          /\ loopGuard (state (page (run w es'))) l2 = false).
Proof.
  intros w. split; [|split; [|split]].
  - intros e. apply step_session_mono.
  - intros now config w'. subst w'.
    destruct (updateBannedCommands_fields config (state (page w)))
      as [Fr [Fm Fb]].
    split.
    + intros [Hr [Hm Hb]]. unfold runningOf in Hr.
      assert (sameConfig (updateBannedCommands config (state (page w)))
                (configIde config) (configBG config) = true) as Hsame.
      { apply sameConfig_of_fields; congruence. }
      destruct (autoAcceptStart_cases now config w)
        as [[_ [[Hr' Hs'] Hl']] | [Hn _]]; [|congruence].
      unfold sessionOf, runningOf. auto.
    + intros Hdiff.
      destruct (autoAcceptStart_cases now config w)
        as [[Hsame _] | [_ [Hs [Hr [Hm [Hb Hl]]]]]].
      * exfalso. apply sameConfig_inv in Hsame as [Hr [Hm Hb]].
        rewrite Fr in Hr. rewrite Fm in Hm. rewrite Fb in Hb.
        unfold runningOf in Hdiff.
        destruct Hdiff as [H | [H | H]]; congruence.
      * rewrite Hs in Hl. auto.
  - intros i l now found Hl Hst w'. subst w'. cbn [step]. rewrite Hl.
    unfold resumeLoop. rewrite Hst. unfold loopGuard, runningOf, sessionOf.
    split.
    + intros Hsig.
      assert (isRunning (state (page w))
              && (sessionID (state (page w)) =? sid l) = false) as ->.
      { apply andb_false_iff. destruct Hsig as [H | H]; [left | right];
          [exact H | lia]. }
      cbn [page loops]. split; [reflexivity|].
      apply list_lookup_insert_eq. eapply lookup_lt_Some. exact Hl.
    + intros [Hr Hs].
      assert (isRunning (state (page w))
              && (sessionID (state (page w)) =? sid l) = true) as ->.
      { apply andb_true_iff. split; [exact Hr | lia]. }
      cbn [loops]. apply list_lookup_insert_eq.
      eapply lookup_lt_Some. exact Hl.
  - intros i l es' Hl Hsig.
    assert (retired (state (page w)) (sid l)) as Hr.
    { pose proof (run_loopsBounded now0 es i l Hl) as Hb.
      fold w in Hb. unfold sessionOf, runningOf, retired in *.
      destruct Hsig as [H | H].
      - destruct (Z.eq_dec (sessionID (state (page w))) (sid l));
          [right; auto | left; lia].
      - left. lia. }
    destruct (run_retired_loop es' w i l Hl Hr) as [l2 [H2 [Hs [_ [Hc Hg]]]]].
    exists l2. auto.
Qed.

(** C4.  While the agent runs, a start whose mode and background flag are
    those in force changes neither [sessionID] nor the set of loops; in
    particular the second of two starts with one configuration does
    nothing of the kind, whatever the state before the first. *)
Theorem autoAcceptStart_same_config_noop (rt : Runtime) :
  (forall (now : Z) (config : Config) (w : World),
     runningOf w = true ->
     currentMode (state (page w)) = Some (configIde config) ->
     isBackgroundMode (state (page w)) = Some (configBG config) ->
     let w' := autoAcceptStart now config w in
     sessionOf w' = sessionOf w /\ loops w' = loops w
     /\ runningOf w' = true)
  /\ (forall (now1 now2 : Z) (config : Config) (w : World),
        let w1 := autoAcceptStart now1 config w in
        let w2 := autoAcceptStart now2 config w1 in
        sessionOf w2 = sessionOf w1 /\ loops w2 = loops w1
        /\ runningOf w2 = true).
Proof.
  assert (forall (now : Z) (config : Config) (w : World),
     runningOf w = true ->
     currentMode (state (page w)) = Some (configIde config) ->
     isBackgroundMode (state (page w)) = Some (configBG config) ->
     sessionOf (autoAcceptStart now config w) = sessionOf w
     /\ loops (autoAcceptStart now config w) = loops w
     /\ runningOf (autoAcceptStart now config w) = true) as Hnoop.
  { intros now config w Hr Hm Hb.
    assert (sameConfig (updateBannedCommands config (state (page w)))
              (configIde config) (configBG config) = true) as Hsame.
    { apply sameConfig_of_fields; unfold updateBannedCommands;
        destruct (cfgBannedCommands config); assumption. }
    destruct (autoAcceptStart_cases now config w)
      as [[_ [[Hr' Hs'] Hl']] | [Hn _]]; [|congruence].
    unfold sessionOf, runningOf in *. rewrite Hr', Hs'. auto. }
  split; [exact Hnoop|].
  intros now1 now2 config w w1 w2. subst w1 w2.
  apply Hnoop.
  - destruct (autoAcceptStart_cases now1 config w)
      as [[Hsame [[Hr _] _]] | [_ [_ [Hr _]]]]; [|exact Hr].
    apply sameConfig_running in Hsame. unfold runningOf. rewrite Hr.
    unfold updateBannedCommands in Hsame.
    destruct (cfgBannedCommands config); exact Hsame.
  - unfold autoAcceptStart.
    destruct (sameConfig _ _ _) eqn:E; [|reflexivity].
    unfold sameConfig in E. cbn [page state withState].
    destruct (currentMode _) as [m|] eqn:Em;
      [|rewrite andb_false_r in E; discriminate].
    apply andb_true_iff in E as [E _]. apply andb_true_iff in E as [_ E].
    apply jseqb_eq in E. congruence.
  - unfold autoAcceptStart.
    destruct (sameConfig _ _ _) eqn:E; [|reflexivity].
    unfold sameConfig in E. cbn [page state withState].
    destruct (isBackgroundMode _) as [b|] eqn:Eb;
      [|rewrite andb_false_r in E; discriminate].
    apply andb_true_iff in E as [_ E]. apply eqb_prop in E. congruence.
Qed.

(** The loop of generation 1 leaves at its next test after the restart. *)
Lemma sessionID_sole_cancellation_witness :
  page (step (rt := asciiRuntime) restarted (EvResume 0 30 [acceptEl]))
  = page restarted
  /\ loops (step (rt := asciiRuntime) restarted (EvResume 0 30 [acceptEl]))
       !! 0%nat
     = Some {| kind := CursorLoop; sid := 1; cycles := 0; stopped := true |}.
Proof.
  pose proof (sessionID_sole_cancellation asciiRuntime 1 restartHistory) as H.
  cbv zeta in H. destruct H as [_ [_ [H _]]].
  refine (proj1 (H 0%nat
            {| kind := CursorLoop; sid := 1; cycles := 0; stopped := false |}
            30 [acceptEl] _ _) _).
  - vm_compute. reflexivity.
  - reflexivity.
  - right. vm_compute. discriminate.
Defined.

Lemma autoAcceptStart_same_config_noop_witness :
  sessionOf (autoAcceptStart (rt := asciiRuntime) 30 cursorBG restarted)
  = sessionOf restarted
  /\ loops (autoAcceptStart (rt := asciiRuntime) 30 cursorBG restarted)
     = loops restarted
  /\ runningOf (autoAcceptStart (rt := asciiRuntime) 30 cursorBG restarted)
     = true.
Proof.
  apply (proj1 (autoAcceptStart_same_config_noop asciiRuntime)
           30 cursorBG restarted).
  - vm_compute. reflexivity.
  - vm_compute. reflexivity.
  - vm_compute. reflexivity.
Defined.

(* ===================================================================== *)
(** * The command channel *)
(* ===================================================================== *)

Import CDP.

Lemma completions_settle (id : Z) (r : Resolvers) (o : Settlement)
  (h : Handler) :
  completions id (settle r o h)
  = completions id h ++ (if promise r =? id then [o] else []).
Proof.
  unfold completions, settle. cbn [settled].
  rewrite List.filter_app, List.map_app. cbn [List.filter fst].
  destruct (promise r =? id); reflexivity.
Qed.

Lemma wellFormed_create (t0 : Z) : wellFormed (create t0).
Proof.
  constructor; cbn.
  - lia.
  - intros id. split; [lia|]. intros [p [t []]].
  - intros id r H. rewrite lookup_empty in H. discriminate.
  - intros id H. lia.
  - intros id _. split; [reflexivity|]. intros [due []].
  - intros id due [].
Qed.

(** Events that touch only the table of connections or the clock. *)
Lemma wellFormed_same_channel (h h' : Handler) :
  messageId h' = messageId h ->
  pendingMessages h' = pendingMessages h ->
  timers h' = timers h ->
  sent h' = sent h ->
  settled h' = settled h ->
  wellFormed h -> wellFormed h'.
Proof.
  intros Hm Hp Ht Hs Hd [W1 W2 W3 W4 W5 W6].
  constructor; unfold sentOn, armed, completions in *;
    rewrite ?Hm, ?Hp, ?Ht, ?Hs, ?Hd; assumption.
Qed.

Lemma wellFormed_sendCommand (pageId : string) (h : Handler) :
  wellFormed h -> wellFormed (fst (sendCommand pageId h)).
Proof.
  intros W. unfold sendCommand.
  destruct (connections h !! pageId) as [conn|]; [|exact W].
  destruct (negb (readyStateOpen conn)); [exact W|].
  destruct W as [W1 W2 W3 W4 W5 W6]. cbn [fst].
  constructor; unfold sentOn, armed, completions in *;
    cbn [messageId pendingMessages timers sent settled clock].
  - lia.
  - intros id. split.
    + intros Hr. destruct (Z.eq_dec id (messageId h)) as [-> | Hne].
      * exists pageId, (clock h). apply in_or_app. right. left. reflexivity.
      * destruct (proj1 (W2 id) ltac:(lia)) as [p [t Hin]].
        exists p, t. apply in_or_app. left. exact Hin.
    + intros [p [t Hin]]. apply in_app_or in Hin as [Hin | [E | []]].
      * assert (1 <= id < messageId h) by (apply W2; eauto). lia.
      * injection E as _ <- _. lia.
  - intros id r Hl. destruct (Z.eq_dec (messageId h) id) as [<- | Hne].
    + rewrite lookup_insert_eq in Hl. injection Hl as <-. cbn [promise].
      split; [reflexivity|]. split; [lia|]. split.
      * exists (clock h + COMMAND_TIMEOUT_MS). apply in_or_app.
        right. left. reflexivity.
      * apply (W5 (messageId h)). lia.
    + rewrite lookup_insert_ne in Hl by exact Hne.
      destruct (W3 id r Hl) as [Hp [Hr [[due Ha] Hc]]].
      split; [exact Hp|]. split; [lia|]. split; [|exact Hc].
      exists due. apply in_or_app. left. exact Ha.
  - intros id Hr Hl. destruct (Z.eq_dec (messageId h) id) as [<- | Hne].
    + rewrite lookup_insert_eq in Hl. discriminate.
    + rewrite lookup_insert_ne in Hl by exact Hne. apply W4; [lia|exact Hl].
  - intros id Hr. destruct (W5 id ltac:(lia)) as [Hc Ha].
    split; [exact Hc|]. intros [due Hin].
    apply in_app_or in Hin as [Hin | [E | []]].
    + apply Ha. exists due. exact Hin.
    + injection E as <- _. lia.
  - intros id due Hin. apply in_app_or in Hin as [Hin | [E | []]].
    + destruct (W6 id due Hin) as [p Hp]. exists p.
      apply in_or_app. left. exact Hp.
    + injection E as <- <-. exists pageId. apply in_or_app. right. left.
      f_equal. lia.
Qed.

(** Completing a pending command: its entry goes, its completion is
    written, nothing else moves. *)
Lemma wellFormed_complete (id : Z) (o : Settlement) (h : Handler) :
  wellFormed h -> is_Some (pendingMessages h !! id) ->
  wellFormed (settle {| promise := id |} o (deletePending id h)).
Proof.
  intros [W1 W2 W3 W4 W5 W6] [r0 Hr0].
  destruct (W3 id r0 Hr0) as [_ [Hrange [_ Hnone]]].
  constructor; try assumption.
  - intros id' r Hl. cbn [pendingMessages settle deletePending] in Hl.
    destruct (Z.eq_dec id id') as [<- | Hne].
    + rewrite lookup_delete_eq in Hl. discriminate.
    + rewrite lookup_delete_ne in Hl by exact Hne.
      destruct (W3 id' r Hl) as [Hp [Hr [Ha Hc]]].
      split; [exact Hp|]. split; [exact Hr|]. split; [exact Ha|].
      rewrite completions_settle. cbn [promise].
      replace (id =? id') with false by lia.
      rewrite app_nil_r. exact Hc.
  - intros id' Hr Hl. cbn [pendingMessages settle deletePending] in Hl.
    rewrite completions_settle. cbn [promise].
    destruct (Z.eq_dec id id') as [<- | Hne].
    + replace (id =? id) with true by lia.
      exists o. unfold completions in *. cbn [settled deletePending].
      rewrite Hnone. reflexivity.
    + rewrite lookup_delete_ne in Hl by exact Hne.
      replace (id =? id') with false by lia. rewrite app_nil_r.
      apply (W4 id' Hr Hl).
  - intros id' Hr. rewrite completions_settle. cbn [promise].
    replace (id =? id') with false
      by (cbn [messageId settle deletePending] in Hr; lia).
    rewrite app_nil_r. apply (W5 id' Hr).
Qed.

Lemma onMessage_pending (msg : Message) (id : Z) (r : Resolvers)
  (h : Handler) :
  wellFormed h -> msg_id msg = Some id ->
  pendingMessages h !! id = Some r ->
  onMessage msg h = settle {| promise := id |} (outcome msg)
                      (deletePending id h).
Proof.
  intros W Hid Hl. unfold onMessage. rewrite Hid.
  destruct (wf_pending h W id r Hl) as [Hp [Hr _]].
  replace (id =? 0) with false by lia. rewrite Hl.
  destruct r as [pr]. cbn in Hp. subst pr. reflexivity.
Qed.

Lemma onMessage_late (msg : Message) (id : Z) (h : Handler) :
  msg_id msg = Some id -> pendingMessages h !! id = None ->
  onMessage msg h = h.
Proof.
  intros Hid Hl. unfold onMessage. rewrite Hid, Hl.
  destruct (id =? 0); reflexivity.
Qed.

Lemma wellFormed_onMessage (msg : Message) (h : Handler) :
  wellFormed h -> wellFormed (onMessage msg h).
Proof.
  intros W. destruct (msg_id msg) as [id|] eqn:Hid.
  - destruct (pendingMessages h !! id) as [r|] eqn:Hl.
    + rewrite (onMessage_pending msg id r h W Hid Hl).
      apply wellFormed_complete; [exact W | eauto].
    + rewrite (onMessage_late msg id h Hid Hl). exact W.
  - unfold onMessage. rewrite Hid. exact W.
Qed.

Lemma wellFormed_dropTimer (id : Z) (h : Handler) :
  wellFormed h -> pendingMessages h !! id = None ->
  wellFormed (dropTimer id h).
Proof.
  intros [W1 W2 W3 W4 W5 W6] Hnone.
  constructor; try assumption.
  - intros id' r Hl. cbn [pendingMessages dropTimer] in Hl.
    destruct (W3 id' r Hl) as [Hp [Hr [[due Ha] Hc]]].
    split; [exact Hp|]. split; [exact Hr|]. split; [|exact Hc].
    exists due. cbn [timers dropTimer]. apply List.filter_In.
    split; [exact Ha|]. cbn [fst].
    assert (id' <> id) by congruence. apply negb_true_iff. lia.
  - intros id' Hr. destruct (W5 id' Hr) as [Hc Ha]. split; [exact Hc|].
    intros [due Hin]. apply Ha. exists due.
    cbn [timers dropTimer] in Hin. apply List.filter_In in Hin. tauto.
  - intros id' due Hin. cbn [timers dropTimer] in Hin.
    apply List.filter_In in Hin as [Hin _]. exact (W6 id' due Hin).
Qed.

Lemma onTimeout_dropTimer (id : Z) (h : Handler) :
  onTimeout id (dropTimer id h) = dropTimer id (onTimeout id h).
Proof.
  unfold onTimeout. cbn [pendingMessages dropTimer].
  destruct (pendingMessages h !! id); reflexivity.
Qed.

Lemma wellFormed_onTimeout (id : Z) (h : Handler) :
  wellFormed h -> wellFormed (onTimeout id (dropTimer id h)).
Proof.
  intros W. rewrite onTimeout_dropTimer. apply wellFormed_dropTimer.
  - unfold onTimeout. destruct (pendingMessages h !! id) as [r|] eqn:Hl.
    + apply wellFormed_complete; [exact W | eauto].
    + exact W.
  - unfold onTimeout. destruct (pendingMessages h !! id) as [r|] eqn:Hl.
    + cbn [pendingMessages settle deletePending]. apply lookup_delete_eq.
    + exact Hl.
Qed.

Lemma wellFormed_step (h h' : Handler) (e : Event) :
  wellFormed h -> step h e = Some h' -> wellFormed h'.
Proof.
  intros W Hs.
  destruct e as [p | p | p msg | p | id | p | p | p | p | | dt];
    cbn [step] in Hs.
  - injection Hs as <-. revert W. apply wellFormed_same_channel; reflexivity.
  - injection Hs as <-. apply wellFormed_sendCommand. exact W.
  - injection Hs as <-. apply wellFormed_onMessage. exact W.
  - injection Hs as <-. exact W.
  - destruct (isDue id h); [|discriminate]. injection Hs as <-.
    apply wellFormed_onTimeout. exact W.
  - injection Hs as <-. revert W. apply wellFormed_same_channel; reflexivity.
  - injection Hs as <-. revert W. apply wellFormed_same_channel; reflexivity.
  - injection Hs as <-. revert W. apply wellFormed_same_channel; reflexivity.
  - injection Hs as <-. revert W. apply wellFormed_same_channel; reflexivity.
  - injection Hs as <-. revert W. apply wellFormed_same_channel; reflexivity.
  - destruct (0 <=? dt); [|discriminate]. injection Hs as <-.
    revert W. apply wellFormed_same_channel; reflexivity.
Qed.

Lemma wellFormed_run (es : list Event) (h h' : Handler) :
  wellFormed h -> run h es = Some h' -> wellFormed h'.
Proof.
  revert h. induction es as [|e es IH]; intros h W Hr; cbn [run] in Hr.
  - injection Hr as <-. exact W.
  - destruct (step h e) as [h1|] eqn:Hs; [|discriminate].
    exact (IH h1 (wellFormed_step h h1 e W Hs) Hr).
Qed.

Lemma isDue_sent (id : Z) (h : Handler) :
  wellFormed h -> isDue id h = true ->
  exists p t, In (p, id, t) (sent h) /\ t + COMMAND_TIMEOUT_MS <= clock h.
Proof.
  intros W Hd. unfold isDue in Hd. apply existsb_exists in Hd.
  destruct Hd as [[id' due] [Hin Hc]]. cbn [fst snd] in Hc.
  apply andb_true_iff in Hc as [Hid Hdue].
  assert (id' = id) as -> by lia.
  destruct (wf_timers h W id due Hin) as [p Hp].
  exists p, (due - COMMAND_TIMEOUT_MS). split; [exact Hp | lia].
Qed.

Lemma completions_length (id : Z) (h : Handler) :
  wellFormed h -> (length (completions id h) <= 1)%nat.
Proof.
  intros W.
  destruct (Z_le_dec 1 id) as [H1|H1];
    [destruct (Z_lt_dec id (messageId h)) as [H2|H2]|].
  - destruct (pendingMessages h !! id) as [r|] eqn:Hl.
    + destruct (wf_pending h W id r Hl) as [_ [_ [_ ->]]]. cbn. lia.
    + destruct (wf_done h W id ltac:(lia) Hl) as [o ->]. cbn. lia.
  - destruct (wf_fresh h W id ltac:(lia)) as [-> _]. cbn. lia.
  - destruct (wf_fresh h W id ltac:(lia)) as [-> _]. cbn. lia.
Qed.

Lemma timeout_pending (id : Z) (r : Resolvers) (h : Handler) :
  wellFormed h -> pendingMessages h !! id = Some r ->
  completions id (onTimeout id (dropTimer id h)) = [Rejected "timeout"]
  /\ pendingMessages (onTimeout id (dropTimer id h)) !! id = None.
Proof.
  intros W Hl. unfold onTimeout. cbn [pendingMessages dropTimer].
  rewrite Hl. split.
  - rewrite completions_settle. cbn [promise].
    replace (id =? id) with true by lia.
    destruct (wf_pending h W id r Hl) as [_ [_ [_ Hc]]].
    unfold completions in *. cbn [settled deletePending dropTimer].
    rewrite Hc. reflexivity.
  - cbn [pendingMessages settle deletePending dropTimer].
    apply lookup_delete_eq.
Qed.

(** C1.  However the handler was driven: no command id ever has more than
    one completion; a frame carrying the id of a pending command completes
    that command with the frame's result or error, removes its entry and
    touches no other command; the timer of a command runs no sooner than
    2000 ms after the command was written, and then evicts a command still
    pending and rejects it with the timeout error, or does nothing when
    the command is no longer pending; a frame for an id that is not
    pending changes nothing; a command written to a socket is, while
    pending, uncompleted with its timer armed, and once its timer has run
    it has exactly one completion. *)
Theorem command_completes_once (t0 : Z) (es : list Event) (h : Handler) :
  run (create t0) es = Some h ->
  (forall id, (length (completions id h) <= 1)%nat)
  /\ (forall msg id,
        msg_id msg = Some id -> is_Some (pendingMessages h !! id) ->
        completions id (onMessage msg h) = [outcome msg]
        /\ pendingMessages (onMessage msg h) = delete id (pendingMessages h)
        /\ forall id', id' <> id ->
             completions id' (onMessage msg h) = completions id' h)
  /\ (forall id h',
        step h (EvTimeout id) = Some h' ->
        (exists p t, In (p, id, t) (sent h) /\ t + 2000 <= clock h)
        /\ (is_Some (pendingMessages h !! id) ->
            completions id h' = [Rejected "timeout"]
            /\ pendingMessages h' !! id = None)
        /\ (pendingMessages h !! id = None ->
            settled h' = settled h
            /\ pendingMessages h' = pendingMessages h))
  /\ (forall msg id,
        msg_id msg = Some id -> pendingMessages h !! id = None ->
        onMessage msg h = h)
  /\ (forall p id,
        sentOn p id h ->
        (is_Some (pendingMessages h !! id) ->
         armed id h /\ completions id h = [])
        /\ (~ armed id h -> exists o, completions id h = [o])).
Proof.
  intros Hrun.
  pose proof (wellFormed_run es (create t0) h (wellFormed_create t0) Hrun)
    as W.
  split; [|split; [|split; [|split]]].
  - intros id. apply completions_length. exact W.
  - intros msg id Hid [r Hl].
    rewrite (onMessage_pending msg id r h W Hid Hl).
    destruct (wf_pending h W id r Hl) as [_ [_ [_ Hc]]].
    split; [|split].
    + rewrite completions_settle. cbn [promise].
      replace (id =? id) with true by lia.
      unfold completions in *. cbn [settled deletePending]. rewrite Hc.
      reflexivity.
    + reflexivity.
    + intros id' Hne. rewrite completions_settle. cbn [promise].
      replace (id =? id') with false by lia. rewrite app_nil_r. reflexivity.
  - intros id h' Hs. cbn [step] in Hs.
    destruct (isDue id h) eqn:Hd; [|discriminate]. injection Hs as <-.
    split; [exact (isDue_sent id h W Hd)|]. split.
    + intros [r Hl]. exact (timeout_pending id r h W Hl).
    + intros Hl. unfold onTimeout. cbn [pendingMessages dropTimer].
      rewrite Hl. split; reflexivity.
  - intros msg id Hid Hl. exact (onMessage_late msg id h Hid Hl).
  - intros p id Hsent.
    assert (1 <= id < messageId h) as Hr by (apply (wf_sent h W); eauto).
    split.
    + intros [r Hl]. destruct (wf_pending h W id r Hl) as [_ [_ [Ha Hc]]].
      split; assumption.
    + intros Hna. destruct (pendingMessages h !! id) as [r|] eqn:Hl.
      * destruct (wf_pending h W id r Hl) as [_ [_ [Ha _]]]. contradiction.
      * exact (wf_done h W id Hr Hl).
Qed.

Lemma command_completes_once_witness :
  completions 2 (onMessage (answer 2 "second") afterTwoSent)
  = [Resolved "second"]
  /\ completions 1 (onMessage (answer 2 "second") afterTwoSent)
     = completions 1 afterTwoSent.
Proof.
  assert (run (create 0) twoInFlight = Some afterTwoSent) as Hrun
    by reflexivity.
  destruct (command_completes_once 0 twoInFlight afterTwoSent Hrun)
    as [_ [Hmsg _]].
  destruct (Hmsg (answer 2 "second") 2) as [H1 [_ H2]].
  - reflexivity.
  - vm_compute. eexists. reflexivity.
  - split; [exact H1|]. apply H2. lia.
Defined.

(** C3 as stated fails: after a command is written to a page and the
    socket of that page closes or errors, the connection is gone but the
    command has no completion and is still in the pending table. *)
Lemma close_leaves_command_pending :
  let h := fst (sendCommand "page" (onOpen "page" (create 0))) in
  run (create 0) [EvOpen "page"; EvSend "page"] = Some h
  /\ sentOn "page" 1 h
  /\ is_Some (pendingMessages h !! 1)
  /\ connections (onClose "page" h) !! "page" = None
  /\ completions 1 (onClose "page" h) = []
  /\ is_Some (pendingMessages (onClose "page" h) !! 1)
  /\ connections (onError "page" h) !! "page" = None
  /\ completions 1 (onError "page" h) = []
  /\ is_Some (pendingMessages (onError "page" h) !! 1).
Proof.
  cbv zeta. split; [reflexivity|]. split.
  { exists 0. vm_compute. left. reflexivity. }
  split. { vm_compute. eexists. reflexivity. }
  split. { vm_compute. reflexivity. }
  split. { reflexivity. }
  split. { vm_compute. eexists. reflexivity. }
  split. { vm_compute. reflexivity. }
  split. { reflexivity. }
  vm_compute. eexists. reflexivity.
Qed.

(** C3, as amended.  When the socket of a page closes or errors, the
    connection leaves the table and nothing else changes: every command
    written to it and still pending stays pending and uncompleted with its
    timer armed, and is rejected with the timeout error when that timer
    runs. *)
Theorem close_keeps_commands_pending (t0 : Z) (es : list Event)
  (h h' : Handler) (pageId : string) :
  run (create t0) es = Some h ->
  h' = onClose pageId h \/ h' = onError pageId h ->
  connections h' !! pageId = None
  /\ pendingMessages h' = pendingMessages h
  /\ settled h' = settled h
  /\ timers h' = timers h
  /\ forall id,
       sentOn pageId id h -> is_Some (pendingMessages h !! id) ->
       is_Some (pendingMessages h' !! id)
       /\ completions id h' = [] /\ armed id h'
       /\ forall h'',
            step h' (EvTimeout id) = Some h'' ->
            completions id h'' = [Rejected "timeout"].
Proof.
  intros Hrun Hh'.
  pose proof (wellFormed_run es (create t0) h (wellFormed_create t0) Hrun)
    as W.
  assert (h' = withConnections (delete pageId (connections h)) h) as ->.
  { destruct Hh' as [-> | ->]; reflexivity. }
  assert (wellFormed (withConnections (delete pageId (connections h)) h))
    as W'.
  { revert W. apply wellFormed_same_channel; reflexivity. }
  split; [apply lookup_delete_eq|]. split; [reflexivity|].
  split; [reflexivity|]. split; [reflexivity|].
  intros id Hsent [r Hl].
  destruct (wf_pending h W id r Hl) as [_ [_ [Ha Hc]]].
  split; [exists r; exact Hl|]. split; [exact Hc|]. split; [exact Ha|].
  intros h'' Hs. cbn [step] in Hs.
  destruct (isDue id _); [|discriminate]. injection Hs as <-.
  exact (proj1 (timeout_pending id r _ W' Hl)).
Qed.

Lemma close_keeps_commands_pending_witness :
  connections (onClose "page" afterTwoSent) !! "page" = None
  /\ pendingMessages (onClose "page" afterTwoSent)
     = pendingMessages afterTwoSent
  /\ settled (onClose "page" afterTwoSent) = settled afterTwoSent
  /\ timers (onClose "page" afterTwoSent) = timers afterTwoSent.
Proof.
  assert (run (create 0) twoInFlight = Some afterTwoSent) as Hrun
    by reflexivity.
  destruct (close_keeps_commands_pending 0 twoInFlight afterTwoSent
              (onClose "page" afterTwoSent) "page" Hrun
              (or_introl eq_refl)) as [H1 [H2 [H3 [H4 _]]]].
  repeat split; assumption.
Defined.

(* ===================================================================== *)
(** * The instance lock *)
(* ===================================================================== *)

Import Extension.

Lemma heldByOther_true (other myId : string) :
  other <> EmptyString -> other <> myId ->
  heldByOther (Some other) myId = true.
Proof.
  intros Hne Hother. unfold heldByOther.
  destruct other as [|c other']; [contradiction|].
  apply negb_true_iff. apply String.eqb_neq. exact Hother.
Qed.

Lemma isFresh_true (t now : Z) :
  t <> 0 -> now - t < STALE_MS -> isFresh (Some t) now = true.
Proof.
  intros Ht Hlt. unfold isFresh. apply andb_true_iff. split.
  - apply negb_true_iff. lia.
  - lia.
Qed.

Lemma isFresh_stale (lastPing : option Z) (now : Z) :
  lastPing = None \/ (exists t, lastPing = Some t /\ STALE_MS <= now - t) ->
  isFresh lastPing now = false.
Proof.
  intros [-> | [t [-> Hge]]]; [reflexivity|].
  unfold isFresh. apply andb_false_iff. right. lia.
Qed.

(** X20.  A record that carries the id the instance presents never puts it
    in standby, however fresh the heartbeat: instances presenting one id
    do not exclude each other. *)
Lemma tick_own_id_never_standby (myId : string) (now now' : Z) (x : Ext) :
  isEnabled x = true ->
  lockOwner x !! lockKeyOf (currentIDE x) = Some myId ->
  lockPing (fst (tick myId now now' x)) !! lockKeyOf (currentIDE x)
  = Some now'
  /\ synced (snd (tick myId now now' x)) = true
  /\ isLockedOut (fst (tick myId now now' x)) = false.
Proof.
  intros Hen Hown. unfold tick. rewrite Hen, Hown. cbn [negb].
  assert (heldByOther (Some myId) myId = false) as ->.
  { unfold heldByOther. destruct myId as [|c rest]; [reflexivity|].
    rewrite String.eqb_refl. reflexivity. }
  cbn [andb]. split; [|split].
  - destruct (isLockedOut _); cbn; apply lookup_insert_eq.
  - unfold syncSessions.
    destruct (isLockedOut _); cbn;
      destruct (hasCdpHandler x); cbn; try destruct (isLockedOut x);
      reflexivity.
  - destruct (isLockedOut (withLock _ _ _ x)) eqn:E; cbn; [reflexivity|].
    exact E.
Qed.

(** The guard of the tick, as a function of the id presented.  A tick that
    reads the lock record (it does so only while the extension is enabled)
    and finds under it an id other than the one it presents: with a
    heartbeat younger than 15 s it writes neither the owner nor the
    heartbeat, does not call [syncSessions] and is in standby; with a
    heartbeat 15 s old or older, or none, it writes its own id and the
    current time, leaves standby and calls [syncSessions], which starts
    the handler when there is one.  A heartbeat is a reading of
    [Date.now()], which is never 0.  The guard keeps apart only instances
    that present different ids. *)
Theorem tick_respects_fresh_lock (myId other : string) (now now' : Z)
  (x : Ext) :
  isEnabled x = true ->
  lockOwner x !! lockKeyOf (currentIDE x) = Some other ->
  other <> EmptyString -> other <> myId ->
  (forall t,
     lockPing x !! lockKeyOf (currentIDE x) = Some t ->
     t <> 0 -> now - t < 15000 ->
     lockOwner (fst (tick myId now now' x)) = lockOwner x
     /\ lockPing (fst (tick myId now now' x)) = lockPing x
     /\ synced (snd (tick myId now now' x)) = false
     /\ isLockedOut (fst (tick myId now now' x)) = true)
  /\ (lockPing x !! lockKeyOf (currentIDE x) = None
      \/ (exists t, lockPing x !! lockKeyOf (currentIDE x) = Some t
                    /\ 15000 <= now - t) ->
      lockOwner (fst (tick myId now now' x)) !! lockKeyOf (currentIDE x)
      = Some myId
      /\ lockPing (fst (tick myId now now' x)) !! lockKeyOf (currentIDE x)
         = Some now'
      /\ synced (snd (tick myId now now' x)) = true
      /\ isLockedOut (fst (tick myId now now' x)) = false
      /\ (hasCdpHandler x = true ->
          In (SyncSessions (Some (syncConfigOf x)))
             (snd (tick myId now now' x)))).
Proof.
  intros Hen Hown Hne Hother. unfold tick. rewrite Hen, Hown.
  rewrite (heldByOther_true other myId Hne Hother). cbn [negb andb].
  split.
  - intros t Hping Ht Hlt. rewrite Hping, (isFresh_true t now Ht Hlt).
    destruct (isLockedOut x) eqn:Hlo; cbn; auto.
  - intros Hstale. rewrite (isFresh_stale _ now Hstale).
    split; [|split; [|split; [|split]]].
    + destruct (isLockedOut _); cbn; apply lookup_insert_eq.
    + destruct (isLockedOut _); cbn; apply lookup_insert_eq.
    + unfold syncSessions.
      destruct (isLockedOut _); cbn;
        destruct (hasCdpHandler x); cbn; try destruct (isLockedOut x);
        reflexivity.
    + destruct (isLockedOut (withLock _ _ _ x)) eqn:E; cbn; [reflexivity|].
      exact E.
    + intros Hh. unfold syncSessions, syncConfigOf.
      destruct (isLockedOut (withLock _ _ _ x)) eqn:E; cbn [snd fst].
      * right. left. cbn. rewrite Hh. reflexivity.
      * left. cbn. rewrite Hh. reflexivity.
Qed.

Lemma tick_respects_fresh_lock_witness :
  (lockOwner (fst (tick "this-window" 20000 20001 (contended 10000)))
   = lockOwner (contended 10000)
   /\ synced (snd (tick "this-window" 20000 20001 (contended 10000))) = false)
  /\ (lockOwner (fst (tick "this-window" 25000 25001 (contended 10000)))
        !! lockKeyOf Cursor = Some "this-window"
      /\ synced (snd (tick "this-window" 25000 25001 (contended 10000)))
         = true).
Proof.
  split.
  - destruct (tick_respects_fresh_lock "this-window" "other-window"
                20000 20001 (contended 10000)) as [H _].
    + reflexivity.
    + vm_compute. reflexivity.
    + discriminate.
    + discriminate.
    + destruct (H 10000) as [H1 [_ [H3 _]]].
      * vm_compute. reflexivity.
      * lia.
      * lia.
      * split; assumption.
  - destruct (tick_respects_fresh_lock "this-window" "other-window"
                25000 25001 (contended 10000)) as [_ H].
    + reflexivity.
    + vm_compute. reflexivity.
    + discriminate.
    + discriminate.
    + destruct H as [H1 [_ [H3 _]]].
      * right. exists 10000. split; [vm_compute; reflexivity | lia].
      * split; assumption.
Defined.

Lemma tick_synced_wrote (myId : string) (now now' : Z) (x : Ext) :
  synced (snd (tick myId now now' x)) = true ->
  lockOwner (fst (tick myId now now' x)) !! lockKeyOf (currentIDE x)
  = Some myId
  /\ lockPing (fst (tick myId now now' x)) !! lockKeyOf (currentIDE x)
     = Some now'.
Proof.
  unfold tick. destruct (negb (isEnabled x)); [discriminate|].
  destruct (heldByOther _ myId && isFresh _ now).
  - destruct (isLockedOut x); discriminate.
  - intros _. destruct (isLockedOut _); cbn; split; apply lookup_insert_eq.
Qed.

(** C9.  Two windows of the editor present the same id, whatever their
    [INSTANCE_ID]s: when one has synced on a tick, a tick of the other
    that reads the record the first one left, however young its
    heartbeat, writes its id and the current time over it, calls
    [syncSessions] and is not in standby.  The lock excludes no window. *)
Theorem tick_second_window_not_excluded (a b : Window)
  (nowA nowA' nowB nowB' : Z) (xA xB : Ext) :
  extension_id b = extension_id a ->
  isEnabled xB = true ->
  currentIDE xB = currentIDE xA ->
  synced (snd (tickOf a nowA nowA' xA)) = true ->
  let xB' := sharing (fst (tickOf a nowA nowA' xA)) xB in
  lockOwner xB' !! lockKeyOf (currentIDE xB) = Some (extension_id a)
  /\ lockPing xB' !! lockKeyOf (currentIDE xB) = Some nowA'
  /\ lockOwner (fst (tickOf b nowB nowB' xB')) !! lockKeyOf (currentIDE xB)
     = Some (extension_id b)
  /\ lockPing (fst (tickOf b nowB nowB' xB')) !! lockKeyOf (currentIDE xB)
     = Some nowB'
  /\ synced (snd (tickOf b nowB nowB' xB')) = true
  /\ isLockedOut (fst (tickOf b nowB nowB' xB')) = false.
Proof.
  intros Hid Hen Hide Hsync xB'.
  destruct (tick_synced_wrote (extension_id a) nowA nowA' xA Hsync)
    as [Ho Hp].
  assert (lockOwner xB' !! lockKeyOf (currentIDE xB)
          = Some (extension_id a)) as Hown.
  { subst xB'. unfold tickOf. cbn [sharing lockOwner]. rewrite Hide.
    exact Ho. }
  assert (lockPing xB' !! lockKeyOf (currentIDE xB) = Some nowA') as Hping.
  { subst xB'. unfold tickOf. cbn [sharing lockPing]. rewrite Hide.
    exact Hp. }
  split; [exact Hown|]. split; [exact Hping|].
  assert (isEnabled xB' = true) as Hen' by exact Hen.
  assert (currentIDE xB' = currentIDE xB) as Hide' by reflexivity.
  assert (hasCdpHandler xB' = hasCdpHandler xB) as Hh by reflexivity.
  clearbody xB'. unfold tickOf, tick. rewrite Hen', Hide', Hown, Hid.
  cbn [negb].
  assert (heldByOther (Some (extension_id a)) (extension_id a) = false) as ->.
  { unfold heldByOther. destruct (extension_id a) as [|c rest];
      [reflexivity|]. rewrite String.eqb_refl. reflexivity. }
  cbn [andb]. split; [|split; [|split]].
  - destruct (isLockedOut _); cbn; apply lookup_insert_eq.
  - destruct (isLockedOut _); cbn; apply lookup_insert_eq.
  - unfold syncSessions.
    destruct (isLockedOut _); cbn;
      destruct (hasCdpHandler xB'); cbn; try destruct (isLockedOut xB');
      reflexivity.
  - destruct (isLockedOut (withLock _ _ _ xB')) eqn:E; cbn; [reflexivity|].
    exact E.
Qed.

(** Window A takes the lock at 25000; window B ticks 999 ms after the
    heartbeat A wrote, overwrites it and syncs. *)
Lemma tick_second_window_not_excluded_witness :
  INSTANCE_ID windowB <> INSTANCE_ID windowA
  /\ 26000 - 25001 < STALE_MS
  /\ lockPing (sharing (fst (tickOf windowA 25000 25001 fresh)) fresh)
       !! lockKeyOf Cursor = Some 25001
  /\ lockPing (fst (tickOf windowB 26000 26001
                      (sharing (fst (tickOf windowA 25000 25001 fresh))
                               fresh)))
       !! lockKeyOf Cursor = Some 26001
  /\ synced (snd (tickOf windowB 26000 26001
                    (sharing (fst (tickOf windowA 25000 25001 fresh))
                             fresh)))
     = true
  /\ isLockedOut (fst (tickOf windowB 26000 26001
                         (sharing (fst (tickOf windowA 25000 25001 fresh))
                                  fresh)))
     = false.
Proof.
  split; [discriminate|]. split; [reflexivity|].
  pose proof (tick_second_window_not_excluded windowA windowB
                25000 25001 26000 26001 fresh fresh
                eq_refl eq_refl eq_refl eq_refl) as H.
  cbv zeta in H. destruct H as [_ [H2 [_ [H4 [H5 H6]]]]].
  repeat split; assumption.
Defined.

(* ===================================================================== *)
(** * The banned-command filter: verdict and counter *)
(* ===================================================================== *)

Import Accounting.

Section FilterVerdict.
Context {rt : Runtime}.

Lemma checkPattern_outcome (st : State) (commandText lowerText banned : jsstring) :
  checkPattern st commandText lowerText banned = None
  \/ checkPattern st commandText lowerText banned
     = Some (withStats trackBlocked st).
Proof.
  unfold checkPattern.
  destruct (falsy (trim banned)); [left; reflexivity|].
  destruct (isDelimited (trim banned)).
  - destruct (RegExp_new _ _) as [re|].
    + destruct (RegExp_test re commandText); auto.
    + destruct (includes _ _); auto.
  - destruct (includes _ _); auto.
Qed.

Lemma checkPattern_any_state (st st' : State)
  (commandText lowerText banned : jsstring) :
  checkPattern st commandText lowerText banned = None ->
  checkPattern st' commandText lowerText banned = None.
Proof.
  unfold checkPattern.
  destruct (falsy (trim banned)); [reflexivity|].
  destruct (isDelimited (trim banned)).
  - destruct (RegExp_new _ _) as [re|].
    + destruct (RegExp_test re commandText); [discriminate | reflexivity].
    + destruct (includes _ _); [discriminate | reflexivity].
  - destruct (includes _ _); [discriminate | reflexivity].
Qed.

Lemma scanBanned_outcome (st : State) (commandText lowerText : jsstring)
  (bannedList : list jsstring) :
  scanBanned st commandText lowerText bannedList = (false, st)
  \/ scanBanned st commandText lowerText bannedList
     = (true, withStats trackBlocked st).
Proof.
  induction bannedList as [|b rest IH]; cbn [scanBanned]; [left; reflexivity|].
  destruct (checkPattern_outcome st commandText lowerText b) as [-> | ->].
  - exact IH.
  - right. reflexivity.
Qed.

Lemma scanBanned_true_hit (st : State) (commandText lowerText : jsstring)
  (bannedList : list jsstring) :
  fst (scanBanned st commandText lowerText bannedList) = true ->
  exists banned,
    In banned bannedList
    /\ checkPattern st commandText lowerText banned <> None.
Proof.
  induction bannedList as [|b rest IH]; cbn [scanBanned]; [discriminate|].
  destruct (checkPattern st commandText lowerText b) as [st'|] eqn:E.
  - intros _. exists b. split; [left; reflexivity | congruence].
  - intros H. destruct (IH H) as [banned [Hin Hhit]].
    exists banned. split; [right; exact Hin | exact Hhit].
Qed.

(** X1.  The verdict of the filter does not depend on the order of the
    patterns, and a longer list never lifts a ban: a text banned under one
    list is banned under every list that contains its patterns. *)
Theorem isCommandBanned_monotone (st st' : State) (commandText : jsstring) :
  incl (bannedCommands st) (bannedCommands st') ->
  fst (isCommandBanned st commandText) = true ->
  fst (isCommandBanned st' commandText) = true.
Proof.
  intros Hincl Hb. unfold isCommandBanned in *.
  destruct (bannedCommands st) as [|b0 l0] eqn:El; [discriminate|].
  cbn [length Nat.eqb] in Hb.
  destruct commandText as [|c text]; [discriminate|].
  cbn [falsy] in *.
  apply scanBanned_true_hit in Hb as [banned [Hin Hhit]].
  apply Hincl in Hin.
  destruct (bannedCommands st') as [|b1 l1] eqn:El'; [contradiction|].
  cbn [length Nat.eqb].
  destruct (checkPattern st' (c :: text) (toLowerCase (c :: text)) banned)
    as [st2|] eqn:E.
  - exact (scanBanned_hit _ _ _ _ _ _ Hin E).
  - apply (checkPattern_any_state st' st) in E. contradiction.
Qed.

Lemma isCommandBanned_outcome (st : State) (commandText : jsstring) :
  isCommandBanned st commandText = (false, st)
  \/ isCommandBanned st commandText = (true, withStats trackBlocked st).
Proof.
  unfold isCommandBanned.
  destruct (length (bannedCommands st) =? 0)%nat; [left; reflexivity|].
  destruct (falsy commandText); [left; reflexivity|].
  apply scanBanned_outcome.
Qed.

(** X2.  The filter counts what it bans and nothing else: a verdict of
    banned adds exactly one to [blockedThisSession] and leaves every other
    field alone, a verdict of not banned leaves the whole state alone. *)
Theorem isCommandBanned_counts_blocks (st : State) (commandText : jsstring) :
  isCommandBanned st commandText = (false, st)
  \/ isCommandBanned st commandText = (true, withStats trackBlocked st)
     /\ blockedThisSession (stats (snd (isCommandBanned st commandText)))
        = blockedThisSession (stats st) + 1
     /\ clicksThisSession (stats (snd (isCommandBanned st commandText)))
        = clicksThisSession (stats st)
     /\ bannedCommands (snd (isCommandBanned st commandText))
        = bannedCommands st.
Proof.
  destruct (isCommandBanned_outcome st commandText) as [-> | ->].
  - left. reflexivity.
  - right. repeat split; reflexivity.
Qed.

End FilterVerdict.

Lemma isCommandBanned_monotone_witness :
  fst (isCommandBanned (rt := asciiRuntime)
         (withBannedCommands [js "mkfs."; js "rm -rf /"] (initialState 1))
         exampleText)
  = true.
Proof.
  apply (isCommandBanned_monotone (rt := asciiRuntime) exampleState).
  - intros p Hp. cbn in Hp. destruct Hp as [<- | []]. right. left. reflexivity.
  - vm_compute. reflexivity.
Defined.

(* ===================================================================== *)
(** * The click pass: which elements it clicks *)
(* ===================================================================== *)

Section PassFacts.
Context {rt : Runtime}.

Lemma scanBanned_verdict_any_state (st st' : State)
  (commandText lowerText : jsstring) (bannedList : list jsstring) :
  fst (scanBanned st commandText lowerText bannedList)
  = fst (scanBanned st' commandText lowerText bannedList).
Proof.
  induction bannedList as [|b rest IH]; cbn [scanBanned]; [reflexivity|].
  destruct (checkPattern st commandText lowerText b) as [s1|] eqn:E1;
    destruct (checkPattern st' commandText lowerText b) as [s2|] eqn:E2.
  - reflexivity.
  - apply (checkPattern_any_state st' st) in E2. congruence.
  - apply (checkPattern_any_state st st') in E1. congruence.
  - exact IH.
Qed.

Lemma isCommandBanned_verdict_stable (st st' : State) (commandText : jsstring) :
  bannedCommands st = bannedCommands st' ->
  fst (isCommandBanned st commandText) = fst (isCommandBanned st' commandText).
Proof.
  intros E. unfold isCommandBanned. rewrite <- E.
  destruct (length (bannedCommands st) =? 0)%nat; [reflexivity|].
  destruct (falsy commandText); [reflexivity|].
  apply scanBanned_verdict_any_state.
Qed.

(** The verdict of the classifier reads the state only for its banned
    list. *)
Lemma isAcceptButton_verdict_stable (st st' : State) (el : Element) :
  bannedCommands st = bannedCommands st' ->
  fst (isAcceptButton st el) = fst (isAcceptButton st' el).
Proof.
  intros E. unfold isAcceptButton.
  destruct (_ || _); [reflexivity|].
  destruct (existsb _ rejects); [reflexivity|].
  destruct (negb _); [reflexivity|].
  destruct (_ || _); [|reflexivity].
  pose proof (isCommandBanned_verdict_stable st st' (nearbyCommandText el) E)
    as H.
  destruct (isCommandBanned st (nearbyCommandText el)) as [b1 s1].
  destruct (isCommandBanned st' (nearbyCommandText el)) as [b2 s2].
  cbn [fst] in H. subst b2. destruct b1; reflexivity.
Qed.

Lemma isAcceptButton_outcome (st : State) (el : Element) :
  snd (isAcceptButton st el) = st
  \/ (fst (isAcceptButton st el) = false
      /\ snd (isAcceptButton st el) = withStats trackBlocked st).
Proof.
  unfold isAcceptButton.
  destruct (_ || _); [left; reflexivity|].
  destruct (existsb _ rejects); [left; reflexivity|].
  destruct (negb _); [left; reflexivity|].
  destruct (_ || _); [|left; reflexivity].
  destruct (isCommandBanned_outcome st (nearbyCommandText el))
    as [-> | ->].
  - left. reflexivity.
  - right. split; reflexivity.
Qed.

(** What a verdict of accepted says of the element. *)
Lemma isAcceptButton_true_inv (st : State) (el : Element) :
  fst (isAcceptButton st el) = true ->
  0 < jslength (normalizedText el) <= 50
  /\ (~ exists r, In r rejects /\ occursIn r (normalizedText el))
  /\ (exists p, In p patterns /\ occursIn p (normalizedText el))
  /\ (isCommandButton el = true ->
      fst (isCommandBanned st (nearbyCommandText el)) = false)
  /\ isVisible el = true.
Proof.
  unfold isAcceptButton, isCommandButton.
  destruct ((jslength (normalizedText el) =? 0)
            || (50 <? jslength (normalizedText el))) eqn:Hlen;
    [discriminate|].
  destruct (existsb (fun r => includes (normalizedText el) r) rejects)
    eqn:Hrej; [discriminate|].
  destruct (existsb (fun p => includes (normalizedText el) p) patterns)
    eqn:Hpat; cbn [negb]; [|discriminate].
  apply orb_false_iff in Hlen as [Hl0 Hl50].
  assert (0 <= jslength (normalizedText el)) as Hnn
    by (unfold jslength; lia).
  intros H. split; [lia|]. split.
  { intros Hr. apply existsb_includes in Hr. congruence. }
  split; [apply existsb_includes; exact Hpat|].
  destruct (_ || _).
  - destruct (isCommandBanned st (nearbyCommandText el)) as [banned st1].
    destruct banned; [discriminate|]. cbn [fst] in *. auto.
  - cbn [fst] in H. split; [discriminate | exact H].
Qed.

(** The turn of one element, told by the test [clickable] taken on the
    page [pg0] the pass started from. *)
Lemma clickElement_exact (now : Z) (pg0 pg : Page) (el : Element) :
  bannedCommands (state pg) = bannedCommands (state pg0) ->
  clickedTimestamps pg !! el_id el = clickedTimestamps pg0 !! el_id el ->
  (clickable now pg0 el = true ->
   clickElement now pg el
   = ({| state := withStats (trackClick (trim (textContent el))) (state pg);
         clickedTimestamps := <[el_id el := now]> (clickedTimestamps pg);
         dispatched := dispatched pg ++ [el_id el] |}, 1))
  /\ (clickable now pg0 el = false ->
      snd (clickElement now pg el) = 0
      /\ clickedTimestamps (fst (clickElement now pg el))
         = clickedTimestamps pg
      /\ dispatched (fst (clickElement now pg el)) = dispatched pg).
Proof.
  intros Hb Ht. unfold clickable, clickElement. rewrite Ht.
  rewrite <- (isAcceptButton_verdict_stable (state pg) (state pg0) el Hb).
  destruct (inCooldown _ now); cbn [negb andb].
  - split; [discriminate|]. intros _. repeat split; reflexivity.
  - pose proof (isAcceptButton_true_state (state pg) el) as Hs.
    destruct (isAcceptButton (state pg) el) as [accept st1].
    cbn [fst snd] in *. destruct accept.
    + split; [|discriminate]. intros _. rewrite Hs by reflexivity.
      reflexivity.
    + split; [discriminate|]. intros _. repeat split; reflexivity.
Qed.

Lemma clickElement_bannedCommands (now : Z) (pg : Page) (el : Element) :
  bannedCommands (state (fst (clickElement now pg el)))
  = bannedCommands (state pg).
Proof.
  unfold clickElement. destruct (inCooldown _ now); [reflexivity|].
  destruct (isAcceptButton_outcome (state pg) el) as [H | [_ H]];
    destruct (isAcceptButton (state pg) el) as [accept st1];
    cbn [snd] in H; subst st1; destruct accept; reflexivity.
Qed.

Lemma clickAll_exact (now : Z) (pg0 : Page) (els : list Element) (pg : Page) :
  List.NoDup (List.map el_id els) ->
  bannedCommands (state pg) = bannedCommands (state pg0) ->
  (forall el, In el els ->
     clickedTimestamps pg !! el_id el = clickedTimestamps pg0 !! el_id el) ->
  dispatched (fst (clickAll now pg els))
  = dispatched pg ++ List.map el_id (List.filter (clickable now pg0) els)
  /\ forall k,
       clickedTimestamps (fst (clickAll now pg els)) !! k
       = if existsb (Nat.eqb k)
              (List.map el_id (List.filter (clickable now pg0) els))
         then Some now else clickedTimestamps pg !! k.
Proof.
  revert pg. induction els as [|el rest IH]; intros pg Hnd Hb Ht.
  - cbn. rewrite app_nil_r. auto.
  - cbn [clickAll List.map List.filter].
    apply NoDup_cons_iff in Hnd as [Hfresh Hnd].
    destruct (clickElement_exact now pg0 pg el Hb (Ht el (or_introl eq_refl)))
      as [Hyes Hno].
    pose proof (clickElement_bannedCommands now pg el) as Hb1.
    destruct (clickable now pg0 el) eqn:Hc.
    + rewrite (Hyes eq_refl) in *. cbn [fst] in Hb1.
      match goal with
      | |- context [clickAll now ?p rest] => set (pg1 := p) in *
      end.
      destruct (IH pg1 Hnd) as [Hd Hk].
      { rewrite Hb1. exact Hb. }
      { intros el' Hin. unfold pg1. cbn [clickedTimestamps].
        rewrite lookup_insert_ne; [apply Ht; right; exact Hin|].
        intros E. apply Hfresh. rewrite E. apply in_map. exact Hin. }
      destruct (clickAll now pg1 rest) as [pg2 v2]. cbn [fst] in *.
      split.
      * rewrite Hd. unfold pg1. cbn [dispatched List.map].
        rewrite <- app_assoc. reflexivity.
      * intros k. rewrite Hk. cbn [List.map existsb].
        unfold pg1. cbn [clickedTimestamps].
        destruct (Nat.eqb k (el_id el)) eqn:Ek.
        -- apply Nat.eqb_eq in Ek. subst k. cbn [orb].
           destruct (existsb _ _); [reflexivity|]. apply lookup_insert_eq.
        -- apply Nat.eqb_neq in Ek. cbn [orb].
           destruct (existsb _ _); [reflexivity|].
           apply lookup_insert_ne. congruence.
    + destruct (Hno eq_refl) as [Hv [Htbl Hdisp]].
      destruct (clickElement now pg el) as [pg1 v1]. cbn [fst snd] in *.
      destruct (IH pg1 Hnd) as [Hd Hk].
      { rewrite Hb1. exact Hb. }
      { intros el' Hin. rewrite Htbl. apply Ht. right. exact Hin. }
      destruct (clickAll now pg1 rest) as [pg2 v2]. cbn [fst] in *.
      split.
      * rewrite Hd, Hdisp. reflexivity.
      * intros k. rewrite Hk, Htbl. reflexivity.
Qed.

Lemma uniqueFrom_spec (seen : list nat) (found : list Element) :
  List.NoDup (List.map el_id (uniqueFrom seen found))
  /\ forall el, In el (uniqueFrom seen found) ->
       In el found /\ ~ In (el_id el) seen.
Proof.
  revert seen. induction found as [|el rest IH]; intros seen.
  - cbn. split; [constructor | intros el []].
  - cbn [uniqueFrom].
    destruct (existsb (Nat.eqb (el_id el)) seen) eqn:E.
    + destruct (IH seen) as [Hnd Hin]. split; [exact Hnd|].
      intros el' H. destruct (Hin el' H). split; [right|]; assumption.
    + destruct (IH (el_id el :: seen)) as [Hnd Hin]. split.
      * cbn [List.map]. apply NoDup_cons_iff. split; [|exact Hnd].
        intros H. apply in_map_iff in H as [el' [Hid Hel']].
        destruct (Hin el' Hel') as [_ Hns]. apply Hns. left. auto.
      * intros el' [<- | H].
        -- split; [left; reflexivity|]. intros Hs.
           assert (existsb (Nat.eqb (el_id el)) seen = true) as Ht.
           { apply existsb_exists. exists (el_id el).
             split; [exact Hs | apply Nat.eqb_refl]. }
           congruence.
        -- destruct (Hin el' H) as [Hf Hns].
           split; [right; exact Hf|]. intros Hs. apply Hns. right. exact Hs.
Qed.

Lemma passClicks_exact (now : Z) (found : list Element) (pg : Page) :
  passClicks now found pg
  = List.map el_id (List.filter (clickable now pg) (uniqueFrom [] found)).
Proof.
  unfold passClicks, performClick.
  destruct (clickAll_exact now pg (uniqueFrom [] found) pg) as [Hd _].
  - apply uniqueFrom_spec.
  - reflexivity.
  - reflexivity.
  - rewrite Hd. apply drop_app_length.
Qed.

(** X5.  A pass never clicks an element that is hidden, of no width, deaf
    to the pointer or disabled, nor one whose text is empty or longer than
    50, contains a rejection keyword or lacks an acceptance keyword, nor a
    command button whose nearby command is banned, nor an element cooling
    down: every click of the pass is on an element found that fails none
    of these tests. *)
Theorem performClick_never_clicks_unsafe (now : Z) (found : list Element)
  (pg : Page) (id : nat) :
  In id (passClicks now found pg) ->
  exists el,
    In el found /\ el_id el = id
    /\ displayNone el = false /\ widthPositive el = true
    /\ pointerEventsNone el = false /\ disabled el = false
    /\ 0 < jslength (normalizedText el) <= 50
    /\ (~ exists r, In r rejects /\ occursIn r (normalizedText el))
    /\ (exists p, In p patterns /\ occursIn p (normalizedText el))
    /\ (isCommandButton el = true ->
        fst (isCommandBanned (state pg) (nearbyCommandText el)) = false)
    /\ inCooldown (clickedTimestamps pg !! id) now = false.
Proof.
  rewrite passClicks_exact. intros H.
  apply in_map_iff in H as [el [Hid Hin]].
  apply List.filter_In in Hin as [Hin Hc].
  destruct (uniqueFrom_spec [] found) as [_ Hsub].
  destruct (Hsub el Hin) as [Hfound _].
  unfold clickable in Hc. apply andb_true_iff in Hc as [Hcool Hacc].
  apply negb_true_iff in Hcool.
  destruct (isAcceptButton_true_inv (state pg) el Hacc)
    as [Hlen [Hrej [Hpat [Hban Hvis]]]].
  unfold isVisible in Hvis.
  apply andb_true_iff in Hvis as [Hvis Hdis].
  apply andb_true_iff in Hvis as [Hvis Hptr].
  apply andb_true_iff in Hvis as [Hdisp Hwid].
  apply negb_true_iff in Hdis, Hptr, Hdisp.
  exists el. rewrite <- Hid. repeat split; try assumption.
  - lia.
  - lia.
Qed.

End PassFacts.

(* ===================================================================== *)
(** * Loops: one generation at work *)
(* ===================================================================== *)

Section LiveLoops.
Context {rt : Runtime}.

Lemma step_generationsOrdered (w : World) (e : Agent.Event) :
  loopsBounded w -> generationsOrdered w ->
  generationsOrdered (Agent.step w e).
Proof.
  intros Hb Ho. unfold generationsOrdered in *. intros i j l l' Hij.
  destruct e as [now config| | bl | now | | b | k now found];
    cbn [Agent.step]; try (apply Ho; exact Hij).
  - destruct (autoAcceptStart_cases now config w)
      as [[_ [_ E]] | [_ [Hs [_ [_ [_ E]]]]]]; rewrite E.
    + apply Ho. exact Hij.
    + intros Hi Hj.
      apply lookup_app_Some in Hi as [Hi | [Hlen Hi]].
      * apply lookup_app_Some in Hj as [Hj | [_ Hj]].
        -- exact (Ho i j l l' Hij Hi Hj).
        -- apply list_lookup_singleton_Some in Hj as [_ <-]. cbn [sid].
           specialize (Hb i l Hi). lia.
      * apply list_lookup_singleton_Some in Hi as [Hi0 _].
        apply lookup_app_Some in Hj as [Hj | [_ Hj]].
        -- apply lookup_lt_Some in Hj. lia.
        -- apply list_lookup_singleton_Some in Hj as [Hj0 _]. lia.
  - destruct (loops w !! k) as [lk|] eqn:Ek; [|apply Ho; exact Hij].
    pose proof (resumeLoop_sid now found lk (page w)) as [Hsid _].
    destruct (resumeLoop now found lk (page w)) as [lk' pg'].
    cbn [loops fst] in *.
    assert (forall n x, <[k := lk']> (loops w) !! n = Some x ->
              exists y, loops w !! n = Some y /\ sid y = sid x) as Hsame.
    { intros n x Hn. destruct (decide (k = n)) as [-> | Hne].
      - rewrite list_lookup_insert_eq in Hn
          by (eapply lookup_lt_Some; exact Ek).
        injection Hn as <-. exists lk. split; [exact Ek | congruence].
      - rewrite list_lookup_insert_ne in Hn by exact Hne.
        exists x. split; [exact Hn | reflexivity]. }
    intros Hi Hj.
    destruct (Hsame i l Hi) as [y [Hy Ey]].
    destruct (Hsame j l' Hj) as [y' [Hy' Ey']].
    rewrite <- Ey, <- Ey'. exact (Ho i j y y' Hij Hy Hy').
Qed.

Lemma run_generationsOrdered (now0 : Z) (es : list Agent.Event) :
  generationsOrdered (Agent.run (initialWorld now0) es).
Proof.
  induction es as [|e es IH] using rev_ind.
  - intros i j l l' _ H. cbn in H. rewrite lookup_nil in H. discriminate.
  - rewrite run_snoc. apply step_generationsOrdered; [|exact IH].
    apply run_loopsBounded.
Qed.

(** X8.  At no moment can two loops go on: in every state the agent can
    reach, when one loop would pass its test every other loop ever
    launched would fail it. *)
Theorem at_most_one_live_loop (now0 : Z) (es : list Agent.Event)
  (i j : nat) (l l' : Loop) :
  let w := Agent.run (initialWorld now0) es in
  loops w !! i = Some l -> live w l = true ->
  loops w !! j = Some l' -> j <> i ->
  live w l' = false.
Proof.
  intros w Hi Hlive Hj Hne.
  pose proof (run_generationsOrdered now0 es) as Ho. fold w in Ho.
  destruct (live w l') eqn:Hlive'; [|reflexivity]. exfalso.
  unfold live, loopGuard in *.
  apply andb_true_iff in Hlive as [_ H1].
  apply andb_true_iff in Hlive' as [_ H2].
  destruct (Nat.lt_total i j) as [Hlt | [-> | Hlt]].
  - specialize (Ho i j l l' Hlt Hi Hj). lia.
  - contradiction.
  - specialize (Ho j i l' l Hlt Hj Hi). lia.
Qed.

End LiveLoops.

Lemma at_most_one_live_loop_witness :
  live restarted
    {| kind := CursorLoop; sid := 1; cycles := 0; stopped := false |}
  = false.
Proof.
  refine (at_most_one_live_loop (rt := asciiRuntime) 1 restartHistory
            1%nat 0%nat
            {| kind := CursorLoop; sid := 2; cycles := 0; stopped := false |}
            _ _ _ _ _).
  - vm_compute. reflexivity.
  - vm_compute. reflexivity.
  - vm_compute. reflexivity.
  - discriminate.
Defined.

Lemma performClick_never_clicks_unsafe_witness :
  exists el,
    In el [acceptEl; acceptOrCancelEl; acceptEl] /\ el_id el = 7%nat
    /\ displayNone el = false /\ widthPositive el = true
    /\ pointerEventsNone el = false /\ disabled el = false
    /\ 0 < jslength (normalizedText (rt := asciiRuntime) el) <= 50
    /\ (~ exists r, In r rejects
                    /\ occursIn r (normalizedText (rt := asciiRuntime) el))
    /\ (exists p, In p patterns
                  /\ occursIn p (normalizedText (rt := asciiRuntime) el))
    /\ (isCommandButton (rt := asciiRuntime) el = true ->
        fst (isCommandBanned (rt := asciiRuntime)
               (state (pageClickedAt 1000)) (nearbyCommandText el)) = false)
    /\ inCooldown (clickedTimestamps (pageClickedAt 1000) !! 7%nat) 7000
       = false.
Proof.
  apply (performClick_never_clicks_unsafe (rt := asciiRuntime) 7000
           [acceptEl; acceptOrCancelEl; acceptEl] (pageClickedAt 1000)).
  vm_compute. left. reflexivity.
Defined.

(* ===================================================================== *)
(** * Tab names *)
(* ===================================================================== *)

Import Tabs.

Lemma trimStart_suffix (s : jsstring) : exists pre, s = pre ++ trimStart s.
Proof.
  induction s as [|c s IH]; cbn [trimStart].
  - exists []. reflexivity.
  - destruct (isWhiteSpace c).
    + destruct IH as [pre E]. exists (c :: pre). cbn. f_equal. exact E.
    + exists []. reflexivity.
Qed.

Lemma trimStart_head (s : jsstring) (c : N) :
  head (trimStart s) = Some c -> isWhiteSpace c = false.
Proof.
  induction s as [|x s IH]; cbn [trimStart]; [discriminate|].
  destruct (isWhiteSpace x) eqn:E; [exact IH|].
  cbn. intros H. injection H as <-. exact E.
Qed.

Lemma trimStart_id (s : jsstring) :
  (forall c, head s = Some c -> isWhiteSpace c = false) -> trimStart s = s.
Proof.
  destruct s as [|x s]; [reflexivity|]. intros H. cbn [trimStart].
  rewrite (H x eq_refl). reflexivity.
Qed.

Lemma last_rev_head (s : jsstring) : last (rev s) = head s.
Proof.
  destruct s as [|x s]; [reflexivity|]. cbn [rev]. apply last_snoc.
Qed.

Lemma head_rev_last (s : jsstring) : head (rev s) = last s.
Proof.
  rewrite <- (rev_involutive s) at 2. symmetry. apply last_rev_head.
Qed.

Lemma trimEnd_prefix (s : jsstring) : exists post, s = trimEnd s ++ post.
Proof.
  unfold trimEnd. destruct (trimStart_suffix (rev s)) as [pre E].
  exists (rev pre). rewrite <- rev_app_distr, <- E, rev_involutive.
  reflexivity.
Qed.

Lemma trimEnd_last (s : jsstring) (c : N) :
  last (trimEnd s) = Some c -> isWhiteSpace c = false.
Proof.
  unfold trimEnd. rewrite last_rev_head. apply trimStart_head.
Qed.

Lemma trimEnd_id (s : jsstring) :
  (forall c, last s = Some c -> isWhiteSpace c = false) -> trimEnd s = s.
Proof.
  intros H. unfold trimEnd. rewrite trimStart_id.
  - apply rev_involutive.
  - intros c Hc. rewrite head_rev_last in Hc. exact (H c Hc).
Qed.

Lemma head_prefix (p rest : jsstring) (c : N) :
  head p = Some c -> head (p ++ rest) = Some c.
Proof. destruct p; [discriminate | exact id]. Qed.

(** A trimmed string has no white space at either end. *)
Lemma trim_ends (s : jsstring) :
  (forall c, head (trim s) = Some c -> isWhiteSpace c = false)
  /\ (forall c, last (trim s) = Some c -> isWhiteSpace c = false).
Proof.
  unfold trim. split.
  - intros c Hc. destruct (trimEnd_prefix (trimStart s)) as [post E].
    apply (trimStart_head s). rewrite E. apply head_prefix. exact Hc.
  - apply trimEnd_last.
Qed.

Lemma trim_fixed (s : jsstring) :
  (forall c, head s = Some c -> isWhiteSpace c = false) ->
  (forall c, last s = Some c -> isWhiteSpace c = false) ->
  trim s = s.
Proof.
  intros Hh Hl. unfold trim. rewrite (trimStart_id s Hh).
  apply trimEnd_id. exact Hl.
Qed.

Lemma skipDigits_suffix (s : jsstring) : exists pre, s = pre ++ skipDigits s.
Proof.
  induction s as [|c s IH]; cbn [skipDigits].
  - exists []. reflexivity.
  - destruct (isDigit c).
    + destruct IH as [pre E]. exists (c :: pre). cbn. f_equal. exact E.
    + exists []. reflexivity.
Qed.

Lemma last_of_suffix (pre x : jsstring) (u : N) :
  last x = Some u -> last (pre ++ x) = Some u.
Proof. intros H. rewrite last_app, H. reflexivity. Qed.

Lemma matchTimeSuffix_last (s : jsstring) :
  matchTimeSuffix s = true ->
  exists u, last s = Some u /\ isTimeUnit u = true.
Proof.
  unfold matchTimeSuffix. destruct (trimStart_suffix s) as [pre E].
  destruct (trimStart s) as [|d s1]; [discriminate|].
  intros H. apply andb_true_iff in H as [_ H].
  destruct (skipDigits_suffix s1) as [pre1 E1].
  destruct (skipDigits s1) as [|u [|v rest]]; try discriminate.
  exists u. split; [|exact H].
  rewrite E, E1. apply last_of_suffix.
  change (d :: pre1 ++ [u]) with ((d :: pre1) ++ [u]). apply last_snoc.
Qed.

Lemma removeTimeSuffix_prefix (s : jsstring) :
  exists rest, s = removeTimeSuffix s ++ rest.
Proof.
  induction s as [|c s IH]; cbn [removeTimeSuffix].
  - exists []. reflexivity.
  - destruct (matchTimeSuffix (c :: s)).
    + exists (c :: s). reflexivity.
    + destruct IH as [rest E]. exists rest. cbn. f_equal. exact E.
Qed.

Lemma removeTimeSuffix_id (s : jsstring) :
  (forall u, last s = Some u -> isTimeUnit u = false) ->
  removeTimeSuffix s = s.
Proof.
  induction s as [|c s IH]; intros H; cbn [removeTimeSuffix]; [reflexivity|].
  destruct (matchTimeSuffix (c :: s)) eqn:E.
  - apply matchTimeSuffix_last in E as [u [Hu Ht]].
    rewrite (H u Hu) in Ht. discriminate.
  - f_equal. apply IH. intros u Hu. apply H.
    destruct s as [|x s]; [discriminate|]. exact Hu.
Qed.

(** X9.  [stripTimeSuffix] returns a prefix of the trimmed text that has
    no white space at either end, and it returns the trimmed text itself
    whenever that text does not end in one of the letters s, m, h. *)
Theorem stripTimeSuffix_prefix_trimmed (text : jsstring) :
  (exists rest, trim text = stripTimeSuffix text ++ rest)
  /\ (forall c, head (stripTimeSuffix text) = Some c ->
        isWhiteSpace c = false)
  /\ (forall c, last (stripTimeSuffix text) = Some c ->
        isWhiteSpace c = false)
  /\ ((forall u, last (trim text) = Some u -> isTimeUnit u = false) ->
      stripTimeSuffix text = trim text).
Proof.
  unfold stripTimeSuffix.
  destruct (trim_ends text) as [Hh Hl].
  destruct (removeTimeSuffix_prefix (trim text)) as [rest E].
  split; [|split; [|split]].
  - unfold trim at 2.
    rewrite trimStart_id.
    + destruct (trimEnd_prefix (removeTimeSuffix (trim text))) as [post E'].
      exists (post ++ rest). rewrite app_assoc, <- E'. exact E.
    + intros c Hc. apply Hh. rewrite E. apply head_prefix. exact Hc.
  - apply trim_ends.
  - apply trim_ends.
  - intros Hu. rewrite (removeTimeSuffix_id _ Hu).
    apply trim_fixed; assumption.
Qed.

Lemma stripTimeSuffix_prefix_trimmed_witness :
  stripTimeSuffix (js " Fix the parser ") = trim (js " Fix the parser ").
Proof.
  apply (proj2 (proj2 (proj2
           (stripTimeSuffix_prefix_trimmed (js " Fix the parser "))))).
  intros u Hu. vm_compute in Hu. injection Hu as <-. reflexivity.
Defined.

Lemma isPrototypeKey_proto (name : jsstring) :
  isPrototypeKey name = false -> jseqb name (js "__proto__") = false.
Proof.
  unfold isPrototypeKey, objectPrototypeKeys. cbn [existsb].
  intros H. repeat (apply orb_false_iff in H as [? H]).
  assumption.
Qed.

Lemma occurrences_snoc (name n0 : jsstring) (pre : list jsstring) :
  occurrences name (pre ++ [n0])
  = occurrences name pre + (if jseqb name n0 then 1 else 0).
Proof.
  unfold occurrences. rewrite List.filter_app, length_app. cbn [List.filter].
  destruct (jseqb name n0); cbn [length]; lia.
Qed.

Lemma occurrences_nonneg (name : jsstring) (l : list jsstring) :
  0 <= occurrences name l.
Proof. unfold occurrences. lia. Qed.

Lemma deduplicateFrom_lookup (names : list jsstring) :
  forall (counts : gmap jsstring Z) (pre : list jsstring),
    (forall n, counts !! n
               = if occurrences n pre =? 0 then None
                 else Some (occurrences n pre)) ->
    Forall (fun n => isPrototypeKey n = false) names ->
    forall i name,
      names !! i = Some name ->
      deduplicateFrom counts names !! i
      = Some (if occurrences name (pre ++ take i names) =? 0 then name
              else numbered name
                     (occurrences name (pre ++ take i names) + 1)).
Proof.
  induction names as [|n0 rest IH]; intros counts pre Hinv Hok i name Hi.
  - rewrite lookup_nil in Hi. discriminate.
  - apply Forall_cons in Hok as [Hn0 Hok].
    cbn [deduplicateFrom].
    rewrite (isPrototypeKey_proto n0 Hn0), Hn0.
    assert (forall n, <[n0 := occurrences n0 pre + 1]> counts !! n
               = if occurrences n (pre ++ [n0]) =? 0 then None
                 else Some (occurrences n (pre ++ [n0]))) as Hinv'.
    { intros n. rewrite occurrences_snoc.
      pose proof (occurrences_nonneg n pre) as Hnn.
      destruct (jseqb n n0) eqn:En.
      - apply jseqb_eq in En. subst n. rewrite lookup_insert_eq.
        replace (occurrences n0 pre + 1 =? 0) with false by lia.
        reflexivity.
      - assert (n0 <> n) as Hne.
        { intros <-. rewrite jseqb_refl in En. discriminate. }
        rewrite lookup_insert_ne by exact Hne. rewrite Z.add_0_r.
        apply Hinv. }
    pose proof (Hinv n0) as H0.
    destruct i as [|i].
    + cbn in Hi. injection Hi as <-. cbn [take]. rewrite app_nil_r.
      destruct (counts !! n0) as [c|] eqn:Ec.
      * destruct (occurrences n0 pre =? 0); [discriminate|].
        injection H0 as ->. reflexivity.
      * destruct (occurrences n0 pre =? 0); [reflexivity | discriminate].
    + cbn in Hi. cbn [take].
      replace (pre ++ n0 :: take i rest) with ((pre ++ [n0]) ++ take i rest)
        by (rewrite <- app_assoc; reflexivity).
      destruct (counts !! n0) as [c|] eqn:Ec.
      * destruct (occurrences n0 pre =? 0); [discriminate|].
        injection H0 as ->. cbn [lookup list_lookup].
        exact (IH _ (pre ++ [n0]) Hinv' Hok i name Hi).
      * destruct (occurrences n0 pre =? 0) eqn:Ez; [|discriminate].
        assert (occurrences n0 pre = 0) as Hz by lia.
        rewrite Hz in Hinv'. cbn [lookup list_lookup].
        exact (IH _ (pre ++ [n0]) Hinv' Hok i name Hi).
Qed.

Lemma deduplicateFrom_length (names : list jsstring)
  (counts : gmap jsstring Z) :
  length (deduplicateFrom counts names) = length names.
Proof.
  revert counts. induction names as [|n0 rest IH]; intros counts;
    cbn [deduplicateFrom]; [reflexivity|].
  destruct (jseqb n0 (js "__proto__")); [cbn; f_equal; apply IH|].
  destruct (isPrototypeKey n0); [cbn; f_equal; apply IH|].
  destruct (counts !! n0); cbn; f_equal; apply IH.
Qed.

(** X10.  [deduplicateNames] keeps the number and the order of the names.
    When no name is one that objects inherit (constructor, toString, ...),
    the first occurrence of a name is kept as it is and its k-th
    occurrence, for k from 2, becomes the name followed by a blank and k
    in parentheses. *)
Theorem deduplicateNames_numbers_repeats (names : list jsstring) :
  length (deduplicateNames names) = length names
  /\ (Forall (fun n => isPrototypeKey n = false) names ->
      forall i name,
        names !! i = Some name ->
        deduplicateNames names !! i
        = Some (if occurrences name (take i names) =? 0 then name
                else numbered name (occurrences name (take i names) + 1))).
Proof.
  split; [apply deduplicateFrom_length|].
  intros Hok i name Hi. unfold deduplicateNames.
  apply (deduplicateFrom_lookup names ∅ [] (fun n => lookup_empty n) Hok
           i name Hi).
Qed.

Lemma deduplicateNames_numbers_repeats_witness :
  deduplicateNames [js "Chat"; js "Plan"; js "Chat"] !! 2%nat
  = Some (if occurrences (js "Chat") (take 2 [js "Chat"; js "Plan"; js "Chat"])
             =? 0
          then js "Chat"
          else numbered (js "Chat")
                 (occurrences (js "Chat")
                    (take 2 [js "Chat"; js "Plan"; js "Chat"]) + 1)).
Proof.
  apply (proj2 (deduplicateNames_numbers_repeats
                  [js "Chat"; js "Plan"; js "Chat"])).
  - repeat constructor.
  - reflexivity.
Defined.

(* ===================================================================== *)
(** * Discovery: ports and targets *)
(* ===================================================================== *)

Import Discovery.

Lemma portRange_In (startPort endPort p : Z) :
  In p (portRange startPort endPort) <-> startPort <= p <= endPort.
Proof.
  unfold portRange. rewrite in_map_iff. split.
  - intros [i [<- Hi]]. apply in_seq in Hi. lia.
  - intros H. exists (Z.to_nat (p - startPort)). split; [lia|].
    apply in_seq. lia.
Qed.

Lemma portRange_NoDup (startPort endPort : Z) :
  List.NoDup (portRange startPort endPort).
Proof.
  unfold portRange. apply Finite.Injective_map_NoDup.
  - intros i j H. lia.
  - apply seq_NoDup.
Qed.

Lemma portsToScan_In (startPort endPort p : Z) :
  In p (portsToScan startPort endPort)
  <-> p = 9222 \/ startPort <= p <= endPort.
Proof.
  unfold portsToScan. cbn [In].
  rewrite List.filter_In, portRange_In, negb_true_iff. split.
  - intros [<- | [H _]]; auto.
  - intros [-> | H]; [left; reflexivity|].
    destruct (Z.eq_dec p 9222) as [-> | Hne]; [left; reflexivity|].
    right. split; [exact H | lia].
Qed.

(** X11.  The scan visits port 9222 first and then every port from
    [startPort] to [endPort], each port once: the list holds exactly 9222
    and the ports of the range, without repetition, whether or not 9222
    lies in the range. *)
Theorem portsToScan_covers_once (startPort endPort : Z) :
  head (portsToScan startPort endPort) = Some 9222
  /\ List.NoDup (portsToScan startPort endPort)
  /\ forall p, In p (portsToScan startPort endPort)
               <-> p = 9222 \/ startPort <= p <= endPort.
Proof.
  unfold portsToScan. split; [reflexivity|]. split.
  - apply NoDup_cons_iff. split.
    + intros H. apply List.filter_In in H as [_ H].
      apply negb_true_iff in H. lia.
    + apply List.NoDup_filter. apply portRange_NoDup.
  - intros p. apply portsToScan_In.
Qed.

Lemma scanForInstances_In (startPort endPort : Z)
  (probe : Z -> option (list Target)) (port : Z) (pages : list Target) :
  In (port, pages) (scanForInstances startPort endPort probe) <->
  In port (portsToScan startPort endPort)
  /\ probe port = Some pages /\ pages <> [].
Proof.
  unfold scanForInstances.
  rewrite <- list_elem_of_In, list_elem_of_omap. split.
  - intros [q [Hq H]]. apply list_elem_of_In in Hq.
    destruct (probe q) as [ps|] eqn:Ep; [|discriminate].
    destruct (0 <? Z.of_nat (length ps)) eqn:El; [|discriminate].
    injection H as <- <-. split; [exact Hq|]. split; [exact Ep|].
    intros ->. cbn in El. discriminate.
  - intros [Hin [Ep Hne]]. exists port. split; [apply list_elem_of_In; exact Hin|].
    rewrite Ep.
    destruct pages as [|t ps]; [contradiction|]. reflexivity.
Qed.

(** X12.  The scan reports exactly the ports of its list that answer with
    at least one page, each with the pages it answered: a port that
    rejects, times out or answers with no page is left out, and nothing
    else is. *)
Theorem scanForInstances_reports_answering_ports (startPort endPort : Z)
  (probe : Z -> option (list Target)) (port : Z) (pages : list Target) :
  In (port, pages) (scanForInstances startPort endPort probe) <->
  (port = 9222 \/ startPort <= port <= endPort)
  /\ probe port = Some pages /\ pages <> [].
Proof.
  rewrite scanForInstances_In, portsToScan_In. reflexivity.
Qed.

Lemma insertByPriority_perm (t : Target) (l : list Target) :
  Permutation (t :: l) (insertByPriority t l).
Proof.
  induction l as [|u rest IH]; cbn [insertByPriority]; [reflexivity|].
  destruct (comparePriority t u <=? 0); [reflexivity|].
  rewrite Permutation_swap. apply Permutation_skip. exact IH.
Qed.

Lemma ranked_priority (t : Target) :
  ranked t -> exists x, priority t = Some x.
Proof.
  unfold ranked, priority.
  destruct (t_type t); intros H; try (eexists; reflexivity).
  contradiction.
Qed.

Lemma insertByPriority_sorted (t : Target) (l : list Target) :
  ranked t -> List.Forall ranked l ->
  StronglySorted inOrder l -> StronglySorted inOrder (insertByPriority t l).
Proof.
  intros Ht. destruct (ranked_priority t Ht) as [x Ex].
  induction l as [|u rest IH]; intros Hn Hs; cbn [insertByPriority].
  - repeat constructor.
  - apply StronglySorted_inv in Hs as [Hrest Hu].
    apply Forall_cons_iff in Hn as [Hnu Hn].
    destruct (ranked_priority u Hnu) as [y Ey].
    unfold comparePriority. rewrite Ex, Ey.
    destruct (x - y <=? 0) eqn:E.
    + constructor; [constructor; assumption|].
      constructor; [unfold inOrder; rewrite Ex, Ey; lia|].
      eapply List.Forall_impl; [|exact Hu]. cbn. intros a Ha.
      unfold inOrder in *. rewrite Ex. rewrite Ey in Ha.
      destruct (priority a); [lia | exact Ha].
    + constructor; [apply IH; assumption|].
      eapply Permutation_Forall; [apply insertByPriority_perm|].
      constructor; [unfold inOrder; rewrite Ex, Ey; lia | exact Hu].
Qed.

Lemma insertByPriority_class (k : Z) (t : Target) (l : list Target) :
  ranked t -> List.Forall ranked l ->
  List.filter (ofPriority k) (insertByPriority t l)
  = List.filter (ofPriority k) (t :: l).
Proof.
  intros Ht. destruct (ranked_priority t Ht) as [x Ex].
  induction l as [|u rest IH]; intros Hn; cbn [insertByPriority];
    [reflexivity|].
  apply Forall_cons_iff in Hn as [Hnu Hn].
  destruct (ranked_priority u Hnu) as [y Ey].
  unfold comparePriority. rewrite Ex, Ey.
  destruct (x - y <=? 0) eqn:E; [reflexivity|].
  cbn [List.filter] in *. rewrite (IH Hn).
  unfold ofPriority. rewrite Ex, Ey.
  destruct (y =? k) eqn:Eu; destruct (x =? k) eqn:Et; try reflexivity.
  lia.
Qed.

Lemma sortByPriority_ranked (l : list Target) :
  List.Forall ranked l -> List.Forall ranked (sortByPriority l).
Proof.
  intros H. unfold sortByPriority.
  induction l as [|t l IH]; cbn [fold_right]; [constructor|].
  apply Forall_cons_iff in H as [Ht H].
  eapply Permutation_Forall; [apply insertByPriority_perm|].
  constructor; [exact Ht | exact (IH H)].
Qed.

(** X13.  [getPages] resolves with the targets that have a socket address,
    all of them and only them.  When none of these carries a type name
    that objects inherit from [Object.prototype], they come ordered page,
    iframe, other or unlisted, worker, and among targets of one priority
    the order of the response is kept. *)
Theorem getPages_sorts_stably (allPages : list Target) :
  Permutation (List.filter hasSocketUrl allPages) (getPages allPages)
  /\ ((forall t, In t allPages -> hasSocketUrl t = true -> ranked t) ->
      StronglySorted inOrder (getPages allPages)
      /\ forall k,
           List.filter (ofPriority k) (getPages allPages)
           = List.filter (ofPriority k) (List.filter hasSocketUrl allPages)).
Proof.
  unfold getPages. split.
  - unfold sortByPriority.
    induction (List.filter hasSocketUrl allPages) as [|t l IH];
      cbn [fold_right]; [reflexivity|].
    rewrite <- insertByPriority_perm. apply Permutation_skip. exact IH.
  - intros Hnum.
    assert (List.Forall ranked (List.filter hasSocketUrl allPages)) as Hn.
    { apply List.Forall_forall. intros t Ht.
      apply List.filter_In in Ht as [Hin Hurl]. exact (Hnum t Hin Hurl). }
    clear Hnum.
    induction (List.filter hasSocketUrl allPages) as [|t l IH].
    + split; [constructor | reflexivity].
    + apply Forall_cons_iff in Hn as [Ht Hn].
      destruct (IH Hn) as [IHs IHc].
      pose proof (sortByPriority_ranked l Hn) as Hsn.
      cbn [sortByPriority fold_right]. fold (sortByPriority l). split.
      * apply insertByPriority_sorted; assumption.
      * intros k. rewrite insertByPriority_class by assumption.
        cbn [List.filter]. rewrite IHc. reflexivity.
Qed.

Lemma getPages_sorts_stably_witness :
  StronglySorted inOrder (getPages exampleTargets)
  /\ forall k,
       List.filter (ofPriority k) (getPages exampleTargets)
       = List.filter (ofPriority k) (List.filter hasSocketUrl exampleTargets).
Proof.
  apply (proj2 (getPages_sorts_stably exampleTargets)).
  intros t Hin _. cbn in Hin.
  destruct Hin as [<- | [<- | [<- | [<- | [<- | []]]]]]; discriminate.
Defined.

(* ===================================================================== *)
(** * Synchronisation: connecting and injecting *)
(* ===================================================================== *)

Import Sync.

Lemma injectAndStart_step (inject : InjectOutcome) (pageId : string)
  (conns : gmap string CDP.Conn) :
  let conns' := fst (injectAndStart inject pageId conns) in
  let acts := snd (injectAndStart inject pageId conns) in
  (forall p, isInjected conns p = true -> isInjected conns' p = true)
  /\ (forall p, conns !! p <> None -> conns' !! p <> None)
  /\ (forall a, In a acts -> actionPage a = pageId)
  /\ (forall p, In (PushStart p) acts -> isInjected conns' p = true)
  /\ (forall p, In (EvaluateScript p) acts -> isInjected conns p = false)
  /\ (forall p, ~ In (Connect p) acts).
Proof.
  unfold injectAndStart, isInjected.
  destruct (conns !! pageId) as [conn|] eqn:Ec.
  - destruct (CDP.injected conn) eqn:Ei.
    + cbn. repeat split; try tauto.
      * intros a [<- | []]. reflexivity.
      * intros p [E | []]. injection E as <-. rewrite Ec. exact Ei.
      * intros p [E | []]. discriminate.
      * intros p [E | []]. discriminate.
    + destruct inject; cbn; repeat split; try tauto;
        try (intros a [<- | []]; reflexivity);
        try (intros p [E | []]; discriminate);
        try (intros p [E | []]; injection E as <-; rewrite Ec; exact Ei).
      * intros p Hp. destruct (decide (pageId = p)) as [<- | Hne].
        -- rewrite lookup_insert_eq. reflexivity.
        -- rewrite lookup_insert_ne by exact Hne. exact Hp.
      * intros p Hp. destruct (decide (pageId = p)) as [<- | Hne].
        -- rewrite lookup_insert_eq. discriminate.
        -- rewrite lookup_insert_ne by exact Hne. exact Hp.
      * intros a [<- | [<- | []]]; reflexivity.
      * intros p [E | [E | []]]; [discriminate|]. injection E as <-.
        rewrite lookup_insert_eq. reflexivity.
      * intros p [E | [E | []]]; [|discriminate]. injection E as <-.
        rewrite Ec. exact Ei.
      * intros p [E | [E | []]]; discriminate.
  - cbn. rewrite ?Ec. repeat split; tauto.
Qed.

Lemma syncPage_step (opens : string -> bool)
  (injects : string -> InjectOutcome) (page : Target)
  (conns : gmap string CDP.Conn) :
  let conns' := fst (syncPage opens injects page conns) in
  let acts := snd (syncPage opens injects page conns) in
  (forall p, isInjected conns p = true -> isInjected conns' p = true)
  /\ (forall p, conns !! p <> None -> conns' !! p <> None)
  /\ (forall a, In a acts ->
        actionPage a = t_id page /\ t_type page <> TWorker)
  /\ (forall p, In (PushStart p) acts -> isInjected conns' p = true)
  /\ (forall p, In (EvaluateScript p) acts -> isInjected conns p = false)
  /\ (forall p, In (Connect p) acts -> conns !! p = None).
Proof.
  unfold syncPage.
  assert (t_type page = TWorker \/ t_type page <> TWorker) as [Ew | Hnw]
    by (destruct (t_type page); auto; right; discriminate).
  { rewrite Ew. cbn. repeat split; tauto. }
  set (connected :=
         match conns !! t_id page with
         | Some _ => (conns, [])
         | None =>
             (if opens (t_id page)
              then <[t_id page := {| CDP.readyStateOpen := true;
                                     CDP.injected := false |}]> conns
              else conns, [Connect (t_id page)])
         end).
  assert (let conns1 := fst connected in
          let a1 := snd connected in
          (forall p, isInjected conns p = true -> isInjected conns1 p = true)
          /\ (forall p, conns !! p <> None -> conns1 !! p <> None)
          /\ (forall a, In a a1 ->
                a = Connect (t_id page) /\ conns !! t_id page = None)
          /\ (forall p, isInjected conns1 p = true ->
                isInjected conns p = true)) as Hc.
  { subst connected. unfold isInjected.
    destruct (conns !! t_id page) as [c|] eqn:Ec; cbn [fst snd].
    - split; [tauto|]. split; [tauto|]. split; [intros a []|tauto].
    - split; [|split; [|split]].
      + intros p Hp. destruct (opens (t_id page)); [|exact Hp].
        destruct (decide (t_id page = p)) as [<- | Hne].
        * rewrite Ec in Hp. discriminate.
        * rewrite lookup_insert_ne by exact Hne. exact Hp.
      + intros p Hp. destruct (opens (t_id page)); [|exact Hp].
        destruct (decide (t_id page = p)) as [<- | Hne].
        * congruence.
        * rewrite lookup_insert_ne by exact Hne. exact Hp.
      + intros a [<- | []]. split; reflexivity.
      + intros p. destruct (opens (t_id page)); [|tauto].
        destruct (decide (t_id page = p)) as [<- | Hne].
        * rewrite lookup_insert_eq. discriminate.
        * rewrite lookup_insert_ne by exact Hne. tauto. }
  destruct connected as [conns1 a1]. cbn [fst snd] in Hc.
  destruct Hc as [C1 [C2 [C3 C4]]].
  set (started :=
         match conns1 !! t_id page with
         | Some _ => injectAndStart (injects (t_id page)) (t_id page) conns1
         | None => (conns1, [])
         end).
  assert (let conns2 := fst started in
          let a2 := snd started in
          (forall p, isInjected conns1 p = true -> isInjected conns2 p = true)
          /\ (forall p, conns1 !! p <> None -> conns2 !! p <> None)
          /\ (forall a, In a a2 -> actionPage a = t_id page)
          /\ (forall p, In (PushStart p) a2 -> isInjected conns2 p = true)
          /\ (forall p, In (EvaluateScript p) a2 ->
                isInjected conns1 p = false)
          /\ (forall p, ~ In (Connect p) a2)) as Hs.
  { subst started. destruct (conns1 !! t_id page).
    - apply injectAndStart_step.
    - cbn. repeat split; tauto. }
  destruct started as [conns2 a2]. cbn [fst snd] in Hs.
  destruct Hs as [S1 [S2 [S3 [S4 [S5 S6]]]]].
  destruct (t_type page); try contradiction; cbn [fst snd];
    (split; [intros p Hp; apply S1, C1, Hp|];
     split; [intros p Hp; apply S2, C2, Hp|];
     split; [intros a Ha; apply in_app_or in Ha as [Ha | Ha];
             [destruct (C3 a Ha) as [-> _]; split; [reflexivity|assumption]
             |split; [apply S3; exact Ha | assumption]]|];
     split; [intros p Hp; apply in_app_or in Hp as [Hp | Hp];
             [destruct (C3 _ Hp) as [E _]; discriminate | apply S4; exact Hp]|];
     split; [intros p Hp; apply in_app_or in Hp as [Hp | Hp];
             [destruct (C3 _ Hp) as [E _]; discriminate
             |specialize (S5 p Hp); destruct (isInjected conns p) eqn:Ei;
              [rewrite (C1 p Ei) in S5; discriminate | reflexivity]]|];
     intros p Hp; apply in_app_or in Hp as [Hp | Hp];
     [destruct (C3 _ Hp) as [E Hn]; injection E as ->; exact Hn
     |exfalso; exact (S6 p Hp)]).
Qed.

(** X14.  One cycle of [CDPHandler.start] never evaluates the script on a
    connection already injected and never reconnects a page already
    connected; it acts on no worker target; the flag [injected] is never
    taken back; and a start is pushed only to a connection whose flag is
    set when the cycle ends. *)
Theorem syncPages_injects_once (opens : string -> bool)
  (injects : string -> InjectOutcome) (pages : list Target)
  (conns : gmap string CDP.Conn) :
  let conns' := fst (syncPages opens injects pages conns) in
  let actions := snd (syncPages opens injects pages conns) in
  (forall p, isInjected conns p = true ->
     isInjected conns' p = true /\ ~ In (EvaluateScript p) actions)
  /\ (forall p, conns !! p <> None ->
        conns' !! p <> None /\ ~ In (Connect p) actions)
  /\ (forall p, In (PushStart p) actions -> isInjected conns' p = true)
  /\ (forall a, In a actions ->
        exists page, In page pages /\ t_id page = actionPage a
                     /\ t_type page <> TWorker).
Proof.
  revert conns. induction pages as [|page rest IH]; intros conns.
  - cbn. repeat split; tauto.
  - cbn [syncPages].
    pose proof (syncPage_step opens injects page conns) as H1.
    cbv zeta in H1.
    destruct (syncPage opens injects page conns) as [conns1 a1].
    cbn [fst snd] in H1. destruct H1 as [P1 [P2 [P3 [P4 [P5 P6]]]]].
    specialize (IH conns1). cbv zeta in IH.
    destruct (syncPages opens injects rest conns1) as [conns2 a2].
    cbn [fst snd] in *. destruct IH as [I1 [I2 [I3 I4]]].
    split; [|split; [|split]].
    + intros p Hp. destruct (I1 p (P1 p Hp)) as [Hi Hn].
      split; [exact Hi|]. intros Hin.
      apply in_app_or in Hin as [Hin | Hin]; [|exact (Hn Hin)].
      rewrite (P5 p Hin) in Hp. discriminate.
    + intros p Hp. destruct (I2 p (P2 p Hp)) as [Hi Hn].
      split; [exact Hi|]. intros Hin.
      apply in_app_or in Hin as [Hin | Hin]; [|exact (Hn Hin)].
      exact (Hp (P6 p Hin)).
    + intros p Hin. apply in_app_or in Hin as [Hin | Hin].
      * exact (proj1 (I1 p (P4 p Hin))).
      * exact (I3 p Hin).
    + intros a Hin. apply in_app_or in Hin as [Hin | Hin].
      * destruct (P3 a Hin) as [E Hw].
        exists page. split; [left; reflexivity|]. split; [symmetry|]; assumption.
      * destruct (I4 a Hin) as [pg [Hpg Hrest]].
        exists pg. split; [right; exact Hpg | exact Hrest].
Qed.

Lemma syncPages_injects_once_witness :
  isInjected
    (fst (syncPages (fun _ => true) (fun _ => EvalOk)
            [ {| t_id := "main"; t_type := TPage; hasSocketUrl := true |};
              {| t_id := "frame"; t_type := TIframe; hasSocketUrl := true |};
              {| t_id := "sw"; t_type := TWorker; hasSocketUrl := true |} ]
            {[ "main" := {| CDP.readyStateOpen := true;
                            CDP.injected := true |} ]}))
    "frame"
  = true.
Proof.
  refine (proj1 (proj2 (proj2 (syncPages_injects_once (fun _ => true)
                                 (fun _ => EvalOk) _ _))) "frame" _).
  vm_compute. right. right. right. left. reflexivity.
Defined.

(* ===================================================================== *)
(** * Weekly statistics *)
(* ===================================================================== *)

Import ROI.

Lemma loadROIStats_weekStart (week1 week2 : Z) (store : option RoiStats) :
  weekStart (loadedStats (loadROIStats week1 week2 store)) = week2.
Proof.
  unfold loadROIStats.
  destruct store as [s|]; cbn [weekStart defaultStats];
    match goal with
    | |- context [negb (?a =? ?b)] => destruct (Z.eqb_spec a b)
    end; cbn; congruence.
Qed.

(** X15.  A load always returns stats of the current week.  Stats stored
    for the current week come back as they are, with nothing written and
    no summary; stats stored for another week are replaced, in the result
    and under the key, by zero counters for the current week, and the
    summary of the old week is shown exactly when it had clicks.  A second
    load in the same week returns the same stats, writes nothing and shows
    nothing. *)
Theorem loadROIStats_rolls_over (week1 week2 : Z) (store : option RoiStats) :
  let r := loadROIStats week1 week2 store in
  weekStart (loadedStats r) = week2
  /\ (forall s, store = Some s -> weekStart s = week2 ->
        r = {| loadedStats := s; stored := store; summaryShown := false |})
  /\ (forall s, store = Some s -> weekStart s <> week2 ->
        r = {| loadedStats := defaultStats week2;
               stored := Some (defaultStats week2);
               summaryShown := 0 <? clicksThisWeek s |})
  /\ loadROIStats week2 week2 (stored r)
     = {| loadedStats := loadedStats r; stored := stored r;
          summaryShown := false |}.
Proof.
  intros r. subst r. unfold loadROIStats.
  split; [|split; [|split]].
  - apply loadROIStats_weekStart.
  - intros s -> Hw. rewrite Hw, Z.eqb_refl. reflexivity.
  - intros s -> Hw. replace (weekStart s =? week2) with false by lia.
    reflexivity.
  - destruct store as [s|].
    + destruct (Z.eq_dec (weekStart s) week2) as [E | E].
      * rewrite E, Z.eqb_refl. cbn. rewrite E, Z.eqb_refl. reflexivity.
      * replace (weekStart s =? week2) with false by lia.
        cbn. rewrite Z.eqb_refl. reflexivity.
    + cbn [weekStart defaultStats].
      destruct (Z.eq_dec week1 week2) as [E | E].
      * rewrite E, Z.eqb_refl. cbn. rewrite Z.eqb_refl. reflexivity.
      * replace (week1 =? week2) with false by lia.
        cbn. rewrite Z.eqb_refl. reflexivity.
Qed.

Lemma loadROIStats_rolls_over_witness :
  loadROIStats 700 700
    (Some {| weekStart := 100; clicksThisWeek := 12; blockedThisWeek := 1;
             sessionsThisWeek := 3 |})
  = {| loadedStats := defaultStats 700;
       stored := Some (defaultStats 700);
       summaryShown := 0 <? 12 |}.
Proof.
  refine (proj1 (proj2 (proj2 (loadROIStats_rolls_over 700 700 _)))
            {| weekStart := 100; clicksThisWeek := 12; blockedThisWeek := 1;
               sessionsThisWeek := 3 |} _ _).
  - reflexivity.
  - cbn. lia.
Defined.






(* ===================================================================== *)
(** * The instance lock: a record under the id presented *)
(* ===================================================================== *)

Lemma tick_own_id_never_standby_witness :
  lockPing (fst (tick "other-window" 10500 10501 (contended 10000)))
    !! lockKeyOf (currentIDE (contended 10000)) = Some 10501
  /\ synced (snd (tick "other-window" 10500 10501 (contended 10000))) = true
  /\ isLockedOut (fst (tick "other-window" 10500 10501 (contended 10000)))
     = false.
Proof.
  apply tick_own_id_never_standby.
  - reflexivity.
  - vm_compute. reflexivity.
Defined.

(* ===================================================================== *)
(** * The command channel: ids and the pending table *)
(* ===================================================================== *)

Import ChannelLog.

Lemma countingFrom_snoc (first : Z) (count : nat) :
  countingFrom first (S count)
  = countingFrom first count ++ [first + Z.of_nat count].
Proof.
  unfold countingFrom. rewrite seq_S, List.map_app. reflexivity.
Qed.

Lemma sentIds_step (h h' : Handler) (e : CDP.Event) :
  CDP.step h e = Some h' ->
  (sent h' = sent h /\ messageId h' = messageId h)
  \/ (sent h' = sent h ++ [(match e with EvSend p => p | _ => EmptyString end,
                            messageId h, clock h)]
      /\ messageId h' = messageId h + 1).
Proof.
  destruct e as [p | p | p msg | p | id | p | p | p | p | | dt];
    cbn [CDP.step]; intros Hs;
    try (injection Hs as <-; left; split; reflexivity).
  - injection Hs as <-. unfold sendCommand.
    destruct (connections h !! p) as [conn|]; [|left; split; reflexivity].
    destruct (negb (readyStateOpen conn)); [left; split; reflexivity|].
    right. split; reflexivity.
  - injection Hs as <-. left. unfold onMessage.
    destruct (msg_id msg) as [id|]; [|split; reflexivity].
    destruct (id =? 0); [split; reflexivity|].
    destruct (pendingMessages h !! id); split; reflexivity.
  - destruct (isDue id h); [|discriminate]. injection Hs as <-. left.
    unfold onTimeout. cbn [pendingMessages dropTimer].
    destruct (pendingMessages h !! id); split; reflexivity.
  - destruct (0 <=? dt); [|discriminate]. injection Hs as <-. left.
    split; reflexivity.
Qed.

Lemma sentIds_run (es : list CDP.Event) (h h' : Handler) :
  sentIds h = countingFrom 1 (length (sent h)) ->
  messageId h = Z.of_nat (length (sent h)) + 1 ->
  CDP.run h es = Some h' ->
  sentIds h' = countingFrom 1 (length (sent h'))
  /\ messageId h' = Z.of_nat (length (sent h')) + 1.
Proof.
  revert h. induction es as [|e es IH]; intros h Hids Hnext Hrun;
    cbn [CDP.run] in Hrun.
  - injection Hrun as <-. auto.
  - destruct (CDP.step h e) as [h1|] eqn:Hs; [|discriminate].
    apply (IH h1); [| |exact Hrun];
      destruct (sentIds_step h h1 e Hs) as [[E1 E2] | [E1 E2]].
    + unfold sentIds. rewrite E1. exact Hids.
    + unfold sentIds in *. rewrite E1, List.map_app, length_app, Hids.
      cbn [List.map length fst snd]. rewrite Nat.add_1_r, countingFrom_snoc.
      f_equal. f_equal. lia.
    + rewrite E1, E2. exact Hnext.
    + rewrite E1, E2, length_app. cbn [length]. lia.
Qed.

(** X18.  Command ids count up from 1 without a gap: however the handler
    was driven, the ids of the commands written are 1, 2, 3, ... in the
    order written, and the next id is their number plus one.  A command
    for a page without a connection, or with a socket that is not open,
    is refused without an id being used or anything being registered. *)
Theorem command_ids_count_up (t0 : Z) (es : list CDP.Event) (h : Handler) :
  CDP.run (create t0) es = Some h ->
  sentIds h = countingFrom 1 (length (sent h))
  /\ messageId h = Z.of_nat (length (sent h)) + 1
  /\ forall pageId,
       (connections h !! pageId = None
        \/ exists conn, connections h !! pageId = Some conn
                        /\ readyStateOpen conn = false) ->
       sendCommand pageId h = (h, None).
Proof.
  intros Hrun.
  destruct (sentIds_run es (create t0) h) as [H1 H2]; try reflexivity;
    [exact Hrun|].
  split; [exact H1|]. split; [exact H2|].
  intros pageId [Hn | [conn [Hc Ho]]]; unfold sendCommand.
  - rewrite Hn. reflexivity.
  - rewrite Hc, Ho. reflexivity.
Qed.

Lemma command_ids_count_up_witness :
  sentIds afterTwoSent = countingFrom 1 (length (sent afterTwoSent))
  /\ messageId afterTwoSent = Z.of_nat (length (sent afterTwoSent)) + 1.
Proof.
  assert (CDP.run (create 0) twoInFlight = Some afterTwoSent) as Hrun
    by reflexivity.
  destruct (command_ids_count_up 0 twoInFlight afterTwoSent Hrun)
    as [H1 [H2 _]].
  split; assumption.
Defined.

(** X19.  The pending table does not leak: however the handler was driven,
    every entry of the table belongs to a command written to a socket and
    still has its timer armed, so once no timer is armed the table is
    empty. *)
Theorem pending_table_drains (t0 : Z) (es : list CDP.Event) (h : Handler) :
  CDP.run (create t0) es = Some h ->
  (forall id, pendingMessages h !! id <> None ->
     armed id h /\ exists p, sentOn p id h)
  /\ (timers h = [] -> pendingMessages h = ∅).
Proof.
  intros Hrun.
  pose proof (wellFormed_run es (create t0) h (wellFormed_create t0) Hrun)
    as W.
  assert (forall id, pendingMessages h !! id <> None ->
            armed id h /\ exists p, sentOn p id h) as Hp.
  { intros id Hid. destruct (pendingMessages h !! id) as [r|] eqn:El;
      [|contradiction].
    destruct (wf_pending h W id r El) as [_ [Hr [Ha _]]].
    split; [exact Ha|]. apply (wf_sent h W). exact Hr. }
  split; [exact Hp|].
  intros Ht. apply map_empty. intros id.
  destruct (pendingMessages h !! id) as [r|] eqn:El; [|reflexivity].
  destruct (Hp id) as [[due Hin] _]; [congruence|].
  rewrite Ht in Hin. contradiction.
Qed.

Lemma pending_table_drains_witness :
  armed 2 afterTwoSent /\ exists p, sentOn p 2 afterTwoSent.
Proof.
  assert (CDP.run (create 0) twoInFlight = Some afterTwoSent) as Hrun
    by reflexivity.
  apply (proj1 (pending_table_drains 0 twoInFlight afterTwoSent Hrun) 2).
  vm_compute. discriminate.
Defined.

(* ===================================================================== *)
(** * Normalized text and the round of the tabs *)
(* ===================================================================== *)

Lemma collapseWhite_from_units (inRun : bool) (s : jsstring) (c : N) :
  In c (collapseWhite_from inRun s) ->
  (c = 32%N \/ (In c s /\ isWhiteSpace c = false)).
Proof.
  revert inRun. induction s as [|x s IH]; intros inRun; cbn [collapseWhite_from].
  - intros [].
  - destruct (isWhiteSpace x) eqn:Ex.
    + destruct inRun.
      * intros H. destruct (IH true H) as [-> | [Hin Hw]]; [left; reflexivity|].
        right. split; [right; exact Hin | exact Hw].
      * intros [<- | H]; [left; reflexivity|].
        destruct (IH true H) as [-> | [Hin Hw]]; [left; reflexivity|].
        right. split; [right; exact Hin | exact Hw].
    + intros [<- | H].
      * right. split; [left; reflexivity | exact Ex].
      * destruct (IH false H) as [-> | [Hin Hw]]; [left; reflexivity|].
        right. split; [right; exact Hin | exact Hw].
Qed.

Lemma collapseWhite_from_single (inRun : bool) (s : jsstring) :
  (inRun = true -> head (collapseWhite_from inRun s) <> Some 32%N)
  /\ forall i, collapseWhite_from inRun s !! i = Some 32%N ->
               collapseWhite_from inRun s !! S i <> Some 32%N.
Proof.
  revert inRun. induction s as [|x s IH]; intros inRun;
    cbn [collapseWhite_from].
  - split; [discriminate | intros i H; destruct i; discriminate].
  - destruct (isWhiteSpace x) eqn:Ex.
    + destruct inRun.
      * exact (IH true).
      * destruct (IH true) as [Hh Ht]. split; [discriminate|].
        intros [|i] Hi; cbn in *.
        -- specialize (Hh eq_refl).
           destruct (collapseWhite_from true s); [discriminate|].
           cbn in *. exact Hh.
        -- apply Ht. exact Hi.
    + destruct (IH false) as [_ Ht]. split.
      * intros _. cbn. intros E. injection E as ->. discriminate.
      * intros [|i] Hi; cbn in *.
        -- injection Hi as ->. discriminate.
        -- apply Ht. exact Hi.
Qed.

(** X21.  The text the classifier judges holds no zero-width character, no
    white space but the blank, and no two blanks in a row. *)
Theorem normalizedText_is_clean (rt : Runtime) (el : Element) :
  (forall c, In c (normalizedText el) ->
     isZeroWidth c = false /\ (isWhiteSpace c = true -> c = 32%N))
  /\ forall i, normalizedText el !! i = Some 32%N ->
               normalizedText el !! S i <> Some 32%N.
Proof.
  unfold normalizedText, collapseWhite. split.
  - intros c Hc. apply collapseWhite_from_units in Hc.
    destruct Hc as [-> | [Hin Hw]]; [split; reflexivity|].
    split; [|congruence].
    unfold stripZeroWidth in Hin. apply List.filter_In in Hin as [_ Hz].
    apply negb_true_iff in Hz. exact Hz.
  - apply collapseWhite_from_single.
Qed.

Lemma focusSequence_constant (n : Z) (count : nat) (index : Z) :
  0 < n ->
  focusSequence index (repeat n count)
  = List.map (fun i => Some ((index + Z.of_nat i) mod n)) (seq 0 count).
Proof.
  intros Hn. revert index. induction count as [|count IH]; intros index.
  - reflexivity.
  - cbn [repeat focusSequence seq List.map].
    replace (0 <? n) with true by lia. rewrite Z.add_0_r. f_equal.
    rewrite IH, <- seq_shift, List.map_map. apply List.map_ext.
    intros i. f_equal. f_equal. lia.
Qed.

(** How many of the cycles counted by [lengths] found a tab. *)
Lemma focusSequence_cycle (lengths : list Z) (index : Z) (k : nat) (m : Z) :
  lengths !! k = Some m ->
  focusSequence index lengths !! k
  = Some (if 0 <? m
          then Some ((index + cyclesWithTabs (take k lengths)) mod m)
          else None).
Proof.
  revert index k. induction lengths as [|n rest IH]; intros index k Hk.
  - rewrite lookup_nil in Hk. discriminate.
  - destruct k as [|k]; cbn [focusSequence].
    + cbn in Hk. injection Hk as ->. cbn [take cyclesWithTabs].
      unfold cyclesWithTabs. cbn. rewrite Z.add_0_r.
      destruct (0 <? m); reflexivity.
    + cbn in Hk. cbn [take].
      destruct (0 <? n) eqn:En.
      * rewrite lookup_cons. rewrite (IH (index + 1) k Hk).
        unfold cyclesWithTabs. cbn [List.filter]. rewrite En. cbn [length].
        destruct (0 <? m); [|reflexivity].
        do 3 f_equal. lia.
      * rewrite lookup_cons. rewrite (IH index k Hk).
        unfold cyclesWithTabs. cbn [List.filter]. rewrite En. reflexivity.
Qed.

(** X22.  The round of the tabs stays in range and is fair.  A cycle that
    finds [m] tabs focuses the tab whose index is the number of tabs
    focused so far, modulo [m], hence a valid index of the tabs of that
    very cycle; a cycle that finds none focuses none.  Over any [n] cycles
    in a row with [n] tabs every tab is focused, whatever the index (a
    count of tabs focused, never negative) was before. *)
Theorem focusSequence_visits_every_tab (index n : Z) :
  0 <= index ->
  (forall lengths k m,
     lengths !! k = Some m ->
     (0 < m ->
      exists t,
        focusSequence index lengths !! k = Some (Some t)
        /\ t = (index + cyclesWithTabs (take k lengths)) mod m
        /\ 0 <= t < m)
     /\ (m <= 0 -> focusSequence index lengths !! k = Some None))
  /\ (forall j, 0 <= j < n ->
        In (Some j) (focusSequence index (repeat n (Z.to_nat n)))).
Proof.
  intros _. split.
  - intros lengths k m Hk. rewrite (focusSequence_cycle lengths index k m Hk).
    split.
    + intros Hm. replace (0 <? m) with true by lia.
      eexists. split; [reflexivity|]. split; [reflexivity|].
      apply Z.mod_pos_bound. exact Hm.
    + intros Hm. replace (0 <? m) with false by lia. reflexivity.
  - intros j Hj. rewrite focusSequence_constant by lia.
    apply in_map_iff. exists (Z.to_nat ((j - index) mod n)).
    assert (0 <= (j - index) mod n < n) as Hk by (apply Z.mod_pos_bound; lia).
    split.
    + f_equal. rewrite Z2Nat.id by lia.
      rewrite Zplus_mod_idemp_r.
      replace (index + (j - index)) with j by lia.
      apply Z.mod_small. exact Hj.
    + apply in_seq. lia.
Qed.

Lemma focusSequence_visits_every_tab_witness :
  (exists t,
     focusSequence 7 [5; 0; 2] !! 2%nat = Some (Some t)
     /\ t = (7 + cyclesWithTabs (take 2 [5; 0; 2])) mod 2
     /\ 0 <= t < 2)
  /\ In (Some 0) (focusSequence 7 (repeat 3 (Z.to_nat 3))).
Proof.
  pose proof (focusSequence_visits_every_tab 7 3 ltac:(lia)) as [H1 H2].
  split.
  - apply (proj1 (H1 [5; 0; 2] 2%nat 2 eq_refl)). lia.
  - apply H2. lia.
Defined.

(* ===================================================================== *)
(** * The click pass as the event loop runs it *)
(* ===================================================================== *)

Import JS Agent Accounting Async.

Lemma uniqueFound_spec (seen found : list nat) :
  List.NoDup (uniqueFound seen found)
  /\ forall el, In el (uniqueFound seen found) <->
       In el found /\ ~ In el seen.
Proof.
  revert seen. induction found as [|el rest IH]; intros seen.
  - cbn. split; [constructor | intros el; tauto].
  - cbn [uniqueFound].
    destruct (existsb (Nat.eqb el) seen) eqn:E.
    + destruct (IH seen) as [Hnd Hin]. split; [exact Hnd|].
      intros x. rewrite Hin. cbn [In]. split; [tauto|].
      intros [[<- | Hx] Hs]; [|tauto].
      exfalso. apply existsb_exists in E as [y [Hy Ey]].
      apply Nat.eqb_eq in Ey. subst y. contradiction.
    + assert (~ In el seen) as Hns.
      { intros Hs.
        assert (existsb (Nat.eqb el) seen = true) as Ht; [|congruence].
        apply existsb_exists. exists el. split; [exact Hs|].
        apply Nat.eqb_refl. }
      destruct (IH (el :: seen)) as [Hnd Hin]. split.
      * apply NoDup_cons_iff. split; [|exact Hnd].
        rewrite Hin. cbn [In]. tauto.
      * intros x. cbn [In]. rewrite Hin. cbn [In]. split.
        -- intros [<- | [Hx Hs]]; [tauto|]. tauto.
        -- intros [[<- | Hx] Hs]; [tauto|].
           destruct (Nat.eq_dec el x) as [-> | Hne]; [tauto|]. tauto.
Qed.

Lemma afterFirst_spec (p : nat -> bool) (els : list nat) (el : nat) :
  List.NoDup els -> List.find p els = Some el ->
  In el els /\ p el = true
  /\ List.NoDup (afterFirst p els)
  /\ ~ In el (afterFirst p els)
  /\ forall x, In x (afterFirst p els) -> In x els.
Proof.
  induction els as [|y rest IH]; intros Hnd Hf; [discriminate|].
  apply NoDup_cons_iff in Hnd as [Hy Hnd].
  cbn [List.find afterFirst] in *. destruct (p y) eqn:Ey.
  - injection Hf as <-. split; [left; reflexivity|]. split; [exact Ey|].
    split; [exact Hnd|]. split; [exact Hy|].
    intros x Hx. right. exact Hx.
  - destruct (IH Hnd Hf) as [H1 [H2 [H3 [H4 H5]]]].
    split; [right; exact H1|]. split; [exact H2|]. split; [exact H3|].
    split; [exact H4|]. intros x Hx. right. apply H5. exact Hx.
Qed.

Lemma countedBlocks_refl (st : State) : countedBlocks st st.
Proof. exists 0%nat. reflexivity. Qed.

Lemma countedBlocks_trans (a b c : State) :
  countedBlocks a b -> countedBlocks b c -> countedBlocks a c.
Proof.
  intros [n ->] [m ->]. exists (m + n)%nat.
  rewrite Nat.iter_add. reflexivity.
Qed.

Lemma countedBlocks_fields (st st' : State) :
  countedBlocks st st' ->
  bannedCommands st' = bannedCommands st
  /\ isRunning st' = isRunning st
  /\ sessionID st' = sessionID st
  /\ clicksThisSession (stats st') = clicksThisSession (stats st)
  /\ fileEditsThisSession (stats st') = fileEditsThisSession (stats st)
  /\ terminalCommandsThisSession (stats st')
     = terminalCommandsThisSession (stats st)
  /\ actionsWhileAway (stats st') = actionsWhileAway (stats st)
  /\ isWindowFocused (stats st') = isWindowFocused (stats st)
  /\ blockedThisSession (stats st) <= blockedThisSession (stats st').
Proof.
  intros [n ->]. induction n as [|n IH].
  - cbn. repeat split; try reflexivity; lia.
  - rewrite Nat.iter_succ.
    destruct IH as [H1 [H2 [H3 [H4 [H5 [H6 [H7 [H8 H9]]]]]]]].
    set (s := Nat.iter n (withStats trackBlocked) st) in *.
    cbn. repeat split; try assumption; lia.
Qed.

Lemma clickedBy_app (i : nat) (a b : list (nat * Call)) :
  clickedBy i (a ++ b) = clickedBy i a ++ clickedBy i b.
Proof. unfold clickedBy. apply flat_map_app. Qed.

Lemma clickedBy_clickCalls (i j el : nat) :
  clickedBy i (clickCalls j el) = if Nat.eqb j i then [el] else [].
Proof. unfold clickedBy. cbn. destruct (Nat.eqb j i); reflexivity. Qed.

Lemma elementsClicked_app (a b : list (nat * Call)) :
  elementsClicked (a ++ b) = elementsClicked a ++ elementsClicked b.
Proof. unfold elementsClicked. apply flat_map_app. Qed.

Lemma paired_app_clickCalls (calls : list (nat * Call)) (j el : nat) :
  calls = paired calls ->
  calls ++ clickCalls j el = paired (calls ++ clickCalls j el).
Proof.
  intros H. unfold paired. rewrite elementsClicked_app, flat_map_app.
  fold (paired calls). rewrite <- H. reflexivity.
Qed.

Lemma clickedBy_unknown (n : nat) (calls : list (nat * Call)) :
  (forall j c, In (j, c) calls -> (j < n)%nat) -> clickedBy n calls = [].
Proof.
  induction calls as [|[j c] rest IH]; intros H; [reflexivity|].
  unfold clickedBy in *. cbn [flat_map].
  rewrite IH by (intros j' c' Hin; apply (H j' c'); right; exact Hin).
  destruct c as [el | el]; [|reflexivity].
  assert (j < n)%nat as Hj by (apply (H j (NativeClick el)); left; reflexivity).
  replace (Nat.eqb j n) with false; [reflexivity|].
  symmetry. apply Nat.eqb_neq. lia.
Qed.

Lemma sumOf_app (g : Pass -> Z) (ps : list Pass) (p : Pass) :
  sumOf g (ps ++ [p]) = sumOf g ps + g p.
Proof.
  unfold sumOf. induction ps as [|q ps IH]; cbn [app fold_right]; lia.
Qed.

Lemma sumOf_insert (g : Pass -> Z) (ps : list Pass) (i : nat) (p p' : Pass) :
  ps !! i = Some p -> sumOf g (<[i := p']> ps) = sumOf g ps - g p + g p'.
Proof.
  revert i. unfold sumOf.
  induction ps as [|q ps IH]; intros i Hi; [rewrite lookup_nil in Hi; discriminate|].
  destruct i as [|i].
  - cbn in Hi. injection Hi as ->. cbn. lia.
  - cbn in Hi. specialize (IH i Hi).
    change (<[S i := p']> (q :: ps)) with (q :: <[i := p']> ps).
    cbn [fold_right]. lia.
Qed.

Lemma awaiting_sumOf (ps : list Pass) :
  Z.of_nat (length (List.filter isAwaiting ps))
  = sumOf (fun p => if isAwaiting p then 1 else 0) ps.
Proof.
  unfold sumOf. induction ps as [|p ps IH]; [reflexivity|].
  cbn [List.filter fold_right]. destruct (isAwaiting p); cbn [length]; lia.
Qed.

Lemma callsOn_paired (i el : nat) (calls : list (nat * Call)) :
  callsOn i el (paired calls)
  = flat_map (fun x => if Nat.eqb x el then clickCalls i el else [])
             (clickedBy i calls).
Proof.
  unfold paired, elementsClicked, clickedBy, callsOn.
  induction calls as [|[j c] rest IH]; [reflexivity|].
  cbn [flat_map]. rewrite !flat_map_app, List.filter_app, IH. f_equal.
  destruct c as [x | x]; [|reflexivity].
  cbn [flat_map fst snd clickCalls List.filter app].
  destruct (Nat.eqb j i) eqn:Ej; cbn [andb flat_map app].
  - apply Nat.eqb_eq in Ej. subst j.
    destruct (Nat.eqb x el) eqn:Ex; [|reflexivity].
    apply Nat.eqb_eq in Ex. subst x. reflexivity.
  - reflexivity.
Qed.

Lemma flat_map_once (el : nat) (pair : list (nat * Call)) (l : list nat) :
  List.NoDup l ->
  flat_map (fun x => if Nat.eqb x el then pair else []) l
  = if existsb (Nat.eqb el) l then pair else [].
Proof.
  induction l as [|x l IH]; intros Hnd; [reflexivity|].
  apply NoDup_cons_iff in Hnd as [Hx Hnd].
  cbn [flat_map existsb]. rewrite (IH Hnd).
  rewrite (Nat.eqb_sym el x).
  destruct (Nat.eqb x el) eqn:Ex; cbn [orb]; [|reflexivity].
  apply Nat.eqb_eq in Ex. subst x.
  replace (existsb (Nat.eqb el) l) with false; [apply app_nil_r|].
  symmetry. apply not_true_is_false. intros H.
  apply existsb_exists in H as [y [Hy Ey]]. apply Nat.eqb_eq in Ey.
  subst y. contradiction.
Qed.

Lemma paired_length (calls : list (nat * Call)) :
  length (paired calls) = (2 * length (elementsClicked calls))%nat.
Proof.
  unfold paired. induction (elementsClicked calls) as [|c l IH];
    [reflexivity|].
  cbn [flat_map clickCalls app length]. rewrite IH. lia.
Qed.

Section AsyncFacts.
Context {rt : Runtime}.

Lemma isAcceptButton_countedBlocks (st : State) (el : Element) :
  countedBlocks st (snd (isAcceptButton st el)).
Proof.
  destruct (isAcceptButton_outcome st el) as [-> | [_ ->]].
  - apply countedBlocks_refl.
  - exists 1%nat. reflexivity.
Qed.

Lemma clickableNow_stable (dom : Dom) (now : Z) (f f0 : Frame) (el : nat) :
  bannedCommands (f_state f) = bannedCommands (f_state f0) ->
  f_clickedTimestamps f = f_clickedTimestamps f0 ->
  clickableNow dom now f el = clickableNow dom now f0 el.
Proof.
  intros Hb Ht. unfold clickableNow. rewrite Ht.
  rewrite (isAcceptButton_verdict_stable (f_state f) (f_state f0) (dom el) Hb).
  reflexivity.
Qed.

(** A stretch clicks the first element that passes the test of the moment
    and suspends there, or returns when there is none; it leaves the
    counters of the state alone but for the commands it blocks. *)
Lemma visit_spec (i : nat) (dom : Dom) (now c v : Z) (els : list nat)
  (f0 f : Frame) :
  bannedCommands (f_state f) = bannedCommands (f_state f0) ->
  f_clickedTimestamps f = f_clickedTimestamps f0 ->
  f_passes (fst (visit i dom now c v els f)) = f_passes f
  /\ countedBlocks (f_state f) (f_state (fst (visit i dom now c v els f)))
  /\ match List.find (clickableNow dom now f0) els with
     | Some el =>
         f_calls (fst (visit i dom now c v els f))
         = f_calls f ++ clickCalls i el
         /\ f_clickedTimestamps (fst (visit i dom now c v els f))
            = <[el := now]> (f_clickedTimestamps f)
         /\ snd (visit i dom now c v els f)
            = Awaiting now (afterFirst (clickableNow dom now f0) els) el
                (trim (textContent (dom el))) (c + 1) v
     | None =>
         f_calls (fst (visit i dom now c v els f)) = f_calls f
         /\ f_clickedTimestamps (fst (visit i dom now c v els f))
            = f_clickedTimestamps f
         /\ snd (visit i dom now c v els f) = Returned c v
     end.
Proof.
  revert f. induction els as [|el rest IH]; intros f Hb Ht.
  - cbn. split; [reflexivity|]. split; [apply countedBlocks_refl|].
    repeat split; reflexivity.
  - cbn [visit List.find afterFirst].
    rewrite <- (clickableNow_stable dom now f f0 el Hb Ht).
    assert (clickableNow dom now f el
            = negb (inCooldown (f_clickedTimestamps f !! el) now)
              && fst (isAcceptButton (f_state f) (dom el))) as Hc
      by reflexivity.
    destruct (inCooldown (f_clickedTimestamps f !! el) now) eqn:Ec.
    + rewrite Hc. cbn [negb andb]. apply IH; assumption.
    + pose proof (isAcceptButton_true_state (f_state f) (dom el)) as Htrue.
      pose proof (isAcceptButton_countedBlocks (f_state f) (dom el)) as Hcb.
      destruct (isAcceptButton (f_state f) (dom el)) as [accept st1].
      cbn [fst snd negb andb] in *. rewrite Hc. destruct accept.
      * rewrite Htrue by reflexivity.
        cbn [fst snd f_passes f_state f_calls f_clickedTimestamps].
        split; [reflexivity|]. split; [apply countedBlocks_refl|].
        repeat split; reflexivity.
      * destruct (countedBlocks_fields _ _ Hcb) as [Hbc _].
        destruct (IH (withFrameState st1 f)) as [H1 [H2 H3]].
        { cbn [withFrameState f_state]. congruence. }
        { exact Ht. }
        split; [exact H1|]. split.
        { eapply countedBlocks_trans; [exact Hcb | exact H2]. }
        exact H3.
Qed.

(** An entry point leaves the two category counters alone, and the click
    counter too unless it is the reset. *)
Lemma entry_counters (w : World) (e : Agent.Event) :
  loops w = [] ->
  fileEditsThisSession (stats (state (page (Agent.step w e))))
  = fileEditsThisSession (stats (state (page w)))
  /\ terminalCommandsThisSession (stats (state (page (Agent.step w e))))
     = terminalCommandsThisSession (stats (state (page w)))
  /\ clicksThisSession (stats (state (page (Agent.step w e))))
     = match e with
       | EvResetStats _ => 0
       | _ => clicksThisSession (stats (state (page w)))
       end.
Proof.
  intros Hl.
  destruct e as [now config| | l | now | | b | i now found]; cbn [Agent.step];
    try (cbn; repeat split; reflexivity).
  - unfold autoAcceptStart, updateBannedCommands.
    destruct (cfgBannedCommands config);
      destruct (sameConfig _ _ _); cbn; unfold ensureSessionStart;
      repeat match goal with
             | |- context [match ?x with _ => _ end] => destruct x; cbn
             end; repeat split; reflexivity.
  - rewrite Hl, lookup_nil. repeat split; reflexivity.
Qed.

(** What a stretch of activation [i] does to the books of a frame. *)
Lemma visit_consistent (i n : nat) (dom : Dom) (now c v : Z)
  (els : list nat) (g : Frame) :
  f_calls g = paired (f_calls g) ->
  (forall j k, In (j, k) (f_calls g) -> (j < n)%nat) ->
  (i < n)%nat ->
  List.NoDup (clickedBy i (f_calls g)) ->
  c = Z.of_nat (length (clickedBy i (f_calls g))) ->
  c = v ->
  List.NoDup els ->
  (forall x, In x els -> ~ In x (clickedBy i (f_calls g))) ->
  let g' := fst (visit i dom now c v els g) in
  let p := snd (visit i dom now c v els g) in
  f_calls g' = paired (f_calls g')
  /\ (forall j k, In (j, k) (f_calls g') -> (j < n)%nat)
  /\ passConsistent (f_calls g') i p
  /\ (forall j, j <> i -> clickedBy j (f_calls g') = clickedBy j (f_calls g))
  /\ f_passes g' = f_passes g
  /\ trackedOf g' = trackedOf g
  /\ clicksOf g' = clicksOf g
  /\ awayOf g' = awayOf g
  /\ focusedOf g' = focusedOf g
  /\ verifiedOf p = v
  /\ clickedOf p = c + (if isAwaiting p then 1 else 0)
  /\ Z.of_nat (length (elementsClicked (f_calls g')))
     = Z.of_nat (length (elementsClicked (f_calls g)))
       + (if isAwaiting p then 1 else 0).
Proof.
  intros Hpair Hknown Hi Hnd Hc Hcv Hels Hfresh g' p. subst g' p.
  destruct (visit_spec i dom now c v els g g eq_refl eq_refl)
    as [Hp [Hcb Hfind]].
  destruct (countedBlocks_fields _ _ Hcb)
    as [_ [_ [_ [F1 [F2 [F3 [F4 [F5 _]]]]]]]].
  assert (trackedOf (fst (visit i dom now c v els g)) = trackedOf g
          /\ clicksOf (fst (visit i dom now c v els g)) = clicksOf g
          /\ awayOf (fst (visit i dom now c v els g)) = awayOf g
          /\ focusedOf (fst (visit i dom now c v els g)) = focusedOf g)
    as [T1 [T2 [T3 T4]]].
  { unfold trackedOf, clicksOf, awayOf, focusedOf.
    rewrite F1, F2, F3, F4, F5. repeat split; reflexivity. }
  destruct (List.find (clickableNow dom now g) els) as [el|] eqn:Ef.
  - destruct Hfind as [Hcalls [_ Hpass]].
    destruct (afterFirst_spec _ els el Hels Ef) as [Hin [_ [Hnd' [Hnot Hsub]]]].
    rewrite Hcalls, Hpass.
    assert (clickedBy i (f_calls g ++ clickCalls i el)
            = clickedBy i (f_calls g) ++ [el]) as Hmine.
    { rewrite clickedBy_app, clickedBy_clickCalls, Nat.eqb_refl.
      reflexivity. }
    split; [apply paired_app_clickCalls; exact Hpair|].
    split.
    { intros j k Hjk. apply in_app_or in Hjk as [Hjk | Hjk].
      - exact (Hknown j k Hjk).
      - cbn in Hjk. destruct Hjk as [E | [E | []]]; injection E as <- _;
          exact Hi. }
    split.
    { unfold passConsistent. rewrite Hmine. cbn [clickedOf].
      split.
      - apply List.NoDup_app;
          [exact Hnd | constructor; [intros [] | constructor] |].
        intros x Hx [<- | []]. exact (Hfresh el Hin Hx).
      - split.
        + rewrite length_app. cbn [length]. lia.
        + split; [lia|]. split; [exact Hnd'|]. split.
          * intros x Hx Hc'. apply in_app_or in Hc' as [Hc' | [<- | []]].
            -- exact (Hfresh x (Hsub x Hx) Hc').
            -- exact (Hnot Hx).
          * apply last_snoc. }
    split.
    { intros j Hj. rewrite clickedBy_app, clickedBy_clickCalls.
      replace (Nat.eqb i j) with false
        by (symmetry; apply Nat.eqb_neq; congruence).
      apply app_nil_r. }
    split; [exact Hp|].
    split; [exact T1|]. split; [exact T2|]. split; [exact T3|].
    split; [exact T4|].
    cbn [verifiedOf clickedOf isAwaiting].
    split; [reflexivity|]. split; [reflexivity|].
    rewrite elementsClicked_app, length_app. cbn. lia.
  - destruct Hfind as [Hcalls [_ Hpass]]. rewrite Hcalls, Hpass.
    split; [exact Hpair|]. split; [exact Hknown|].
    split.
    { unfold passConsistent. cbn [clickedOf]. split; [exact Hnd|].
      split; [exact Hc | exact Hcv]. }
    split; [reflexivity|]. split; [exact Hp|].
    split; [exact T1|]. split; [exact T2|]. split; [exact T3|].
    split; [exact T4|].
    cbn [verifiedOf clickedOf isAwaiting].
    split; [reflexivity|]. split; lia.
Qed.

Lemma passConsistent_ext (calls calls' : list (nat * Call)) (i : nat)
  (p : Pass) :
  clickedBy i calls' = clickedBy i calls ->
  passConsistent calls i p -> passConsistent calls' i p.
Proof. unfold passConsistent. intros ->. auto. Qed.

Lemma trackClick_counters (buttonText : jsstring) (st : State) :
  let st' := withStats (trackClick buttonText) st in
  clicksThisSession (stats st') = clicksThisSession (stats st) + 1
  /\ fileEditsThisSession (stats st') + terminalCommandsThisSession (stats st')
     = fileEditsThisSession (stats st) + terminalCommandsThisSession (stats st)
       + 1
  /\ actionsWhileAway (stats st')
     = actionsWhileAway (stats st)
       + (if isWindowFocused (stats st) then 0 else 1)
  /\ isWindowFocused (stats st') = isWindowFocused (stats st)
  /\ bannedCommands st' = bannedCommands st
  /\ isRunning st' = isRunning st
  /\ sessionID st' = sessionID st.
Proof.
  cbn. unfold trackClick. cbn.
  destruct (categorizeClick buttonText); destruct (isWindowFocused (stats st));
    repeat split; lia.
Qed.

Lemma enter_consistent (now : Z) (found : list nat) (dom : Dom) (f : Frame) :
  consistent f -> consistent (enterPerformClick now found dom f).
Proof.
  intros [Hpair Hknown Hpasses Htrk Htot Hcv]. unfold enterPerformClick.
  set (n := length (f_passes f)).
  assert (clickedBy n (f_calls f) = []) as Hnone
    by (apply clickedBy_unknown; exact Hknown).
  pose proof (visit_consistent n (S n) dom now 0 0 (uniqueFound [] found) f
                Hpair) as H.
  cbv zeta in H.
  destruct H as [P1 [P2 [P3 [P4 [P5 [P6 [_ [_ [_ [P7 [P8 P9]]]]]]]]]]].
  { intros j k Hjk. specialize (Hknown j k Hjk). fold n in Hknown. lia. }
  { lia. }
  { rewrite Hnone. constructor. }
  { rewrite Hnone. reflexivity. }
  { reflexivity. }
  { apply uniqueFound_spec. }
  { intros x _. rewrite Hnone. intros []. }
  destruct (visit n dom now 0 0 (uniqueFound [] found) f) as [f1 p].
  cbn [fst snd] in *.
  constructor; cbn [withPasses f_calls f_passes].
  - exact P1.
  - intros j k Hjk. rewrite length_app, P5. cbn [length]. fold n.
    specialize (P2 j k Hjk). lia.
  - intros i q Hq. rewrite P5 in Hq.
    apply lookup_app_Some in Hq as [Hq | [Hlen Hq]].
    + apply (passConsistent_ext (f_calls f)).
      * apply P4. apply lookup_lt_Some in Hq. fold n in Hq. lia.
      * exact (Hpasses i q Hq).
    + apply list_lookup_singleton_Some in Hq as [Hi <-].
      fold n in Hlen, Hi. replace i with n by lia. exact P3.
  - unfold trackedOf in *. cbn [withPasses f_state].
    rewrite P5, sumOf_app, P7. lia.
  - rewrite P5, sumOf_app, P8, P9. lia.
  - unfold awaitingCount in *. cbn [withPasses f_passes].
    rewrite awaiting_sumOf in *. rewrite P5, !sumOf_app, P7, P8. lia.
Qed.

Lemma resume_consistent (i : nat) (dom : Dom) (f : Frame) :
  consistent f -> consistent (resumePerformClick i dom f).
Proof.
  intros Hf. pose proof Hf as [Hpair Hknown Hpasses Htrk Htot Hcv].
  unfold resumePerformClick.
  destruct (f_passes f !! i) as [[now rest el bt c v | c v]|] eqn:Ei;
    try exact Hf.
  destruct (Hpasses i _ Ei) as [Hnd [Hc [Hcv' [Hrest [Hfresh _]]]]].
  cbn [clickedOf] in Hc.
  set (g := withFrameState (withStats (trackClick bt) (f_state f)) f).
  pose proof (visit_consistent i (length (f_passes f)) dom now c (v + 1)
                rest g Hpair Hknown) as H.
  cbv zeta in H.
  destruct H as [P1 [P2 [P3 [P4 [P5 [P6 [_ [_ [_ [P7 [P8 P9]]]]]]]]]]];
    try assumption.
  { eapply lookup_lt_Some. exact Ei. }
  destruct (trackClick_counters bt (f_state f)) as [_ [Ttrk _]].
  cbv zeta in Ttrk.
  assert (trackedOf g = trackedOf f + 1) as Hg by exact Ttrk.
  destruct (visit i dom now c (v + 1) rest g) as [f1 p].
  cbn [fst snd] in *. cbn [g withFrameState f_calls f_passes] in *.
  constructor; cbn [withPasses f_calls f_passes].
  - exact P1.
  - intros j k Hjk. rewrite length_insert, P5. exact (P2 j k Hjk).
  - intros j q Hq. rewrite P5 in Hq.
    destruct (decide (i = j)) as [<- | Hne].
    + rewrite list_lookup_insert_eq in Hq
        by (eapply lookup_lt_Some; exact Ei).
      injection Hq as <-. exact P3.
    + rewrite list_lookup_insert_ne in Hq by exact Hne.
      apply (passConsistent_ext (f_calls f)); [apply P4; congruence|].
      exact (Hpasses j q Hq).
  - unfold trackedOf in *. cbn [withPasses f_state].
    rewrite P5, (sumOf_insert _ _ _ _ _ Ei), P7. cbn [verifiedOf]. lia.
  - rewrite P5, (sumOf_insert _ _ _ _ _ Ei), P8, P9. cbn [clickedOf]. lia.
  - unfold awaitingCount in *. cbn [withPasses f_passes].
    rewrite awaiting_sumOf in *.
    rewrite P5, !(sumOf_insert _ _ _ _ _ Ei), P7, P8.
    cbn [verifiedOf clickedOf isAwaiting]. lia.
Qed.

Lemma step_consistent (f : Frame) (e : Async.Event) :
  consistent f -> consistent (Async.step f e).
Proof.
  intros Hf. destruct e as [e | now found dom | i dom]; cbn [Async.step].
  - destruct Hf as [Hpair Hknown Hpasses Htrk Htot Hcv].
    destruct (entry_counters (worldOf f) e eq_refl) as [E1 [E2 _]].
    constructor; cbn [withFrameState f_calls f_passes]; try assumption.
    unfold trackedOf in *. cbn [withFrameState f_state].
    cbn [worldOf page state] in E1, E2. rewrite E1, E2. exact Htrk.
  - apply enter_consistent. exact Hf.
  - apply resume_consistent. exact Hf.
Qed.

Lemma async_run_snoc (f : Frame) (es : list Async.Event) (e : Async.Event) :
  Async.run f (es ++ [e]) = Async.step (Async.run f es) e.
Proof. unfold Async.run. rewrite fold_left_app. reflexivity. Qed.

Lemma run_consistent (now0 : Z) (es : list Async.Event) :
  consistent (Async.run (initialFrame now0) es).
Proof.
  induction es as [|e es IH] using rev_ind.
  - constructor; cbn; try reflexivity.
    + intros j c [].
    + intros i p H. rewrite lookup_nil in H. discriminate.
  - rewrite async_run_snoc. apply step_consistent. exact IH.
Qed.

(** The click counter against the category counters, event by event. *)
Lemma step_collects (f : Frame) (e : Async.Event) :
  (match e with
   | EvEntry (EvResetStats _) => clicksOf f
   | _ => 0
   end) + clicksOf (Async.step f e) - trackedOf (Async.step f e)
  = clicksOf f - trackedOf f
  /\ (0 <= clicksOf f -> 0 <= clicksOf (Async.step f e)).
Proof.
  destruct e as [e | now found dom | i dom]; cbn [Async.step].
  - destruct (entry_counters (worldOf f) e eq_refl) as [E1 [E2 E3]].
    unfold clicksOf, trackedOf. cbn [withFrameState f_state].
    cbn [worldOf page state] in E1, E2, E3. rewrite E1, E2, E3.
    destruct e; split; lia.
  - unfold enterPerformClick.
    destruct (visit_spec (length (f_passes f)) dom now 0 0
                (uniqueFound [] found) f f eq_refl eq_refl) as [_ [Hcb _]].
    destruct (countedBlocks_fields _ _ Hcb) as [_ [_ [_ [F1 [F2 [F3 _]]]]]].
    destruct (visit _ dom now 0 0 _ f) as [f1 p]. cbn [fst] in *.
    unfold clicksOf, trackedOf. cbn [withPasses f_state].
    rewrite F1, F2, F3. split; lia.
  - unfold resumePerformClick.
    destruct (f_passes f !! i) as [[now rest el bt c v | c v]|] eqn:Ei;
      try (split; lia).
    set (g := withFrameState (withStats (trackClick bt) (f_state f)) f).
    destruct (visit_spec i dom now c (v + 1) rest g g eq_refl eq_refl)
      as [_ [Hcb _]].
    destruct (countedBlocks_fields _ _ Hcb) as [_ [_ [_ [F1 [F2 [F3 _]]]]]].
    destruct (trackClick_counters bt (f_state f)) as [T1 [T2 _]].
    cbv zeta in T1, T2.
    destruct (visit i dom now c (v + 1) rest g) as [f1 p]. cbn [fst] in *.
    unfold clicksOf, trackedOf. cbn [withPasses f_state].
    rewrite F1, F2, F3. cbn [g withFrameState f_state]. split; lia.
Qed.

Lemma run_collects (es : list Async.Event) (f : Frame) :
  0 <= clicksOf f ->
  collectedClicks f es + clicksOf (Async.run f es)
  - trackedOf (Async.run f es)
  = clicksOf f - trackedOf f
  /\ 0 <= collectedClicks f es
  /\ 0 <= clicksOf (Async.run f es).
Proof.
  revert f. induction es as [|e es IH]; intros f Hf.
  - cbn. repeat split; lia.
  - cbn [collectedClicks Async.run fold_left].
    fold (Async.run (Async.step f e) es).
    destruct (step_collects f e) as [S1 S2].
    destruct (IH (Async.step f e) (S2 Hf)) as [H1 [H2 H3]].
    unfold clicksOf in *.
    destruct e as [[]| |]; repeat split; lia.
Qed.

Lemma entry_passes (f : Frame) (e : Agent.Event) :
  f_passes (Async.step f (EvEntry e)) = f_passes f
  /\ f_calls (Async.step f (EvEntry e)) = f_calls f
  /\ f_clickedTimestamps (Async.step f (EvEntry e)) = f_clickedTimestamps f.
Proof. repeat split; reflexivity. Qed.

(** A stretch of activation [i] on frame [g], told by the test taken on a
    frame [g0] with the same banned list and time stamps. *)
Lemma stretch_outcome (i : nat) (dom : Dom) (now c v : Z) (els : list nat)
  (g0 g : Frame) (ps : list Pass) :
  bannedCommands (f_state g) = bannedCommands (f_state g0) ->
  f_clickedTimestamps g = f_clickedTimestamps g0 ->
  let r := visit i dom now c v els g in
  match List.find (clickableNow dom now g0) els with
  | Some el =>
      f_calls (fst r) = f_calls g ++ clickCalls i el
      /\ f_clickedTimestamps (fst r) = <[el := now]> (f_clickedTimestamps g)
      /\ snd r = Awaiting now (afterFirst (clickableNow dom now g0) els) el
                   (trim (textContent (dom el))) (c + 1) v
  | None =>
      f_calls (fst r) = f_calls g
      /\ f_clickedTimestamps (fst r) = f_clickedTimestamps g
      /\ snd r = Returned c v
  end.
Proof. intros Hb Ht r. subst r. apply visit_spec; assumption. Qed.

End AsyncFacts.

(** X3.  A pass clicks one element per stretch of its code, judged at that
    moment.  When [performClick] is called, and each time the wait on the
    element it clicked last is over, it takes the elements it has not yet
    taken, in the order found (each at its first occurrence), and clicks
    the first one that is out of cooldown, by the time stamps of that
    moment against the time the pass was called, and that the classifier
    accepts on the page and the banned list of that moment; it stamps that
    element, makes the two click calls on it and waits; when there is no
    such element it makes no call and returns. *)
Theorem performClick_clicks_first_clickable (rt : Runtime) (f : Frame)
  (dom : Dom) :
  (forall now found,
     let f' := Async.step f (EvPerformClick now found dom) in
     let i := length (f_passes f) in
     let els := uniqueFound [] found in
     match List.find (clickableNow dom now f) els with
     | Some el =>
         f_calls f' = f_calls f ++ clickCalls i el
         /\ f_clickedTimestamps f' = <[el := now]> (f_clickedTimestamps f)
         /\ f_passes f'
            = f_passes f
              ++ [Awaiting now (afterFirst (clickableNow dom now f) els) el
                    (trim (textContent (dom el))) 1 0]
     | None =>
         f_calls f' = f_calls f
         /\ f_clickedTimestamps f' = f_clickedTimestamps f
         /\ f_passes f' = f_passes f ++ [Returned 0 0]
     end)
  /\ (forall i now rest el buttonText clicked verified,
        f_passes f !! i
        = Some (Awaiting now rest el buttonText clicked verified) ->
        let f' := Async.step f (EvSettled i dom) in
        match List.find (clickableNow dom now f) rest with
        | Some el' =>
            f_calls f' = f_calls f ++ clickCalls i el'
            /\ f_clickedTimestamps f'
               = <[el' := now]> (f_clickedTimestamps f)
            /\ f_passes f'
               = <[i := Awaiting now
                          (afterFirst (clickableNow dom now f) rest) el'
                          (trim (textContent (dom el')))
                          (clicked + 1) (verified + 1)]> (f_passes f)
        | None =>
            f_calls f' = f_calls f
            /\ f_clickedTimestamps f' = f_clickedTimestamps f
            /\ f_passes f'
               = <[i := Returned clicked (verified + 1)]> (f_passes f)
        end).
Proof.
  split.
  - intros now found f' i els. subst f' i els.
    cbn [Async.step]. unfold enterPerformClick.
    pose proof (visit_spec (length (f_passes f)) dom now 0 0
                  (uniqueFound [] found) f f eq_refl eq_refl)
      as [Hp [_ H]].
    destruct (visit (length (f_passes f)) dom now 0 0
                (uniqueFound [] found) f) as [f1 p].
    cbn [fst snd withPasses f_calls f_clickedTimestamps f_passes] in *.
    destruct (List.find _ _); destruct H as [H1 [H2 H3]];
      rewrite H1, H2, H3, Hp; repeat split; reflexivity.
  - intros i now rest el bt c v Hi f'. subst f'.
    cbn [Async.step]. unfold resumePerformClick. rewrite Hi.
    set (g := withFrameState (withStats (trackClick bt) (f_state f)) f).
    assert (bannedCommands (f_state g) = bannedCommands (f_state f)) as Hb
      by apply (trackClick_counters bt (f_state f)).
    pose proof (visit_spec i dom now c (v + 1) rest f g Hb eq_refl)
      as [Hp [_ H]].
    destruct (visit i dom now c (v + 1) rest g) as [f1 p].
    cbn [fst snd withPasses f_calls f_clickedTimestamps f_passes] in *.
    destruct (List.find _ _); destruct H as [H1 [H2 H3]];
      rewrite H1, H2, H3, Hp; repeat split; reflexivity.
Qed.

Lemma performClick_clicks_first_clickable_witness :
  f_calls (Async.step (rt := asciiRuntime) exampleFrame
             (EvSettled 0 exampleDom))
  = f_calls exampleFrame ++ clickCalls 0 10
  /\ f_clickedTimestamps (Async.step (rt := asciiRuntime) exampleFrame
                            (EvSettled 0 exampleDom))
     = <[10%nat := 1000]> (f_clickedTimestamps exampleFrame)
  /\ f_passes (Async.step (rt := asciiRuntime) exampleFrame
                 (EvSettled 0 exampleDom))
     = <[0%nat := Awaiting 1000 [] 10 (js "Accept") 2 1]>
         (f_passes exampleFrame).
Proof.
  exact (proj2 (performClick_clicks_first_clickable asciiRuntime
                  exampleFrame exampleDom)
           0%nat 1000 [8; 10]%nat 7%nat (js "Accept") 1 0 eq_refl).
Defined.

(** X4.  Every element a pass accepts gets two click calls from it,
    [el.click()] and at once the synthetic [MouseEvent], and gets them
    once: in every state the frame can reach the calls come in such
    pairs, no activation has clicked an element twice, and the calls of
    an activation on an element are that pair or none. *)
Theorem performClick_two_calls_once (rt : Runtime) (now0 : Z)
  (es : list Async.Event) :
  let f := Async.run (initialFrame now0) es in
  f_calls f = paired (f_calls f)
  /\ forall i el,
       List.NoDup (clickedBy i (f_calls f))
       /\ callsOn i el (f_calls f)
          = if existsb (Nat.eqb el) (clickedBy i (f_calls f))
            then clickCalls i el else [].
Proof.
  intros f. destruct (run_consistent now0 es) as [Hpair Hknown Hpasses _ _ _].
  fold f in Hpair, Hknown, Hpasses.
  split; [exact Hpair|]. intros i el.
  assert (List.NoDup (clickedBy i (f_calls f))) as Hnd.
  { destruct (f_passes f !! i) as [p|] eqn:Ei.
    - apply (Hpasses i p Ei).
    - rewrite (clickedBy_unknown i).
      + constructor.
      + intros j c Hjc. specialize (Hknown j c Hjc).
        apply lookup_ge_None in Ei. lia. }
  split; [exact Hnd|].
  rewrite Hpair at 1. rewrite callsOn_paired. apply flat_map_once. exact Hnd.
Qed.

(** X6.  The number a pass returns is the number of elements it clicked;
    while it waits, its count of verified clicks is one behind, for the
    element it waits on, the one it clicked last.  A click is counted
    when its wait is over, not when it is made: then the click total and
    one of the two category counters grow by one, and the away counter
    grows by one when the window is unfocused at that moment; a call of
    [performClick] changes none of these counters before its first wait
    is over. *)
Theorem performClick_returns_clicked (rt : Runtime) (now0 : Z)
  (es : list Async.Event) (i : nat) (p : Pass) :
  let f := Async.run (initialFrame now0) es in
  f_passes f !! i = Some p ->
  clickedOf p = Z.of_nat (length (clickedBy i (f_calls f)))
  /\ match p with
     | Returned clicked verified => verified = clicked
     | Awaiting now rest el buttonText clicked verified =>
         verified = clicked - 1
         /\ last (clickedBy i (f_calls f)) = Some el
         /\ forall dom,
              let f' := Async.step f (EvSettled i dom) in
              clicksOf f' = clicksOf f + 1
              /\ trackedOf f' = trackedOf f + 1
              /\ awayOf f' = awayOf f + (if focusedOf f then 0 else 1)
              /\ exists p', f_passes f' !! i = Some p'
                            /\ verifiedOf p' = verified + 1
     end
  /\ forall now found dom,
       let f' := Async.step f (EvPerformClick now found dom) in
       clicksOf f' = clicksOf f /\ trackedOf f' = trackedOf f
       /\ awayOf f' = awayOf f.
Proof.
  intros f Hi.
  destruct (run_consistent now0 es) as [Hpair Hknown Hpasses _ _ _].
  fold f in Hpair, Hknown, Hpasses.
  destruct (Hpasses i p Hi) as [Hnd [Hc Hp]].
  split; [exact Hc|]. split.
  - destruct p as [now rest el bt c v | c v]; [|lia].
    destruct Hp as [Hcv [Hrest [Hfresh Hlast]]]. cbn [clickedOf] in Hc.
    split; [lia|]. split; [exact Hlast|].
    intros dom f'. subst f'. cbn [Async.step]. unfold resumePerformClick.
    rewrite Hi.
    set (g := withFrameState (withStats (trackClick bt) (f_state f)) f).
    pose proof (visit_consistent i (length (f_passes f)) dom now c (v + 1)
                  rest g Hpair Hknown) as H.
    cbv zeta in H.
    destruct H as [_ [_ [_ [_ [P5 [P6 [P7 [P8 [_ [P9 _]]]]]]]]]];
      try assumption.
    { eapply lookup_lt_Some. exact Hi. }
    destruct (trackClick_counters bt (f_state f)) as [T1 [T2 [T3 _]]].
    cbv zeta in T1, T2, T3.
    destruct (visit i dom now c (v + 1) rest g) as [f1 p'].
    cbn [fst snd] in *.
    unfold clicksOf, trackedOf, awayOf, focusedOf in *.
    cbn [withPasses f_state f_passes g withFrameState] in *.
    rewrite P6, P7, P8. split; [exact T1|]. split; [exact T2|].
    split; [exact T3|].
    exists p'. split; [|exact P9].
    rewrite P5. apply list_lookup_insert_eq. eapply lookup_lt_Some. exact Hi.
  - intros now found dom f'. subst f'. cbn [Async.step].
    unfold enterPerformClick.
    destruct (visit_spec (length (f_passes f)) dom now 0 0
                (uniqueFound [] found) f f eq_refl eq_refl) as [_ [Hcb _]].
    destruct (countedBlocks_fields _ _ Hcb)
      as [_ [_ [_ [F1 [F2 [F3 [F4 _]]]]]]].
    destruct (visit _ dom now 0 0 _ f) as [f1 p1]. cbn [fst] in *.
    unfold clicksOf, trackedOf, awayOf. cbn [withPasses f_state].
    rewrite F1, F2, F3, F4. repeat split; reflexivity.
Qed.

Lemma performClick_returns_clicked_witness :
  clickedOf (Awaiting 1000 [8; 10]%nat 7 (js "Accept") 1 0)
  = Z.of_nat (length (clickedBy 0 (f_calls exampleFrame)))
  /\ last (clickedBy 0 (f_calls exampleFrame)) = Some 7%nat
  /\ clicksOf (Async.step (rt := asciiRuntime) exampleFrame
                 (EvSettled 0 exampleDom))
     = clicksOf exampleFrame + 1.
Proof.
  pose proof (performClick_returns_clicked asciiRuntime 1
                [EvPerformClick 1000 [7; 8; 7; 10]%nat exampleDom]
                0%nat (Awaiting 1000 [8; 10]%nat 7 (js "Accept") 1 0)
                eq_refl) as H.
  cbv zeta in H. destruct H as [H1 [[_ [H2 H3]] _]].
  split; [exact H1|]. split; [exact H2|].
  exact (proj1 (H3 exampleDom)).
Defined.

(** X7.  Collect-and-clear loses no click and counts none twice, once the
    waits are over.  After any history of the frame: the clicks handed
    over by the resets plus the clicks still in the counter are the
    clicks tracked, which the two category counters (a reset leaves them
    alone) sum to and which the passes have verified; the elements
    clicked are the clicks tracked plus one for each pass that waits on
    its last click; and the click calls made are twice the elements
    clicked. *)
Theorem collect_and_clear_conserves_clicks (rt : Runtime) (now0 : Z)
  (es : list Async.Event) :
  let f := Async.run (initialFrame now0) es in
  collectedClicks (initialFrame now0) es + clicksOf f = trackedOf f
  /\ trackedOf f = sumOf verifiedOf (f_passes f)
  /\ trackedOf f + awaitingCount f
     = Z.of_nat (length (elementsClicked (f_calls f)))
  /\ Z.of_nat (length (f_calls f))
     = 2 * Z.of_nat (length (elementsClicked (f_calls f)))
  /\ 0 <= clicksOf f <= trackedOf f.
Proof.
  intros f.
  destruct (run_consistent now0 es) as [Hpair _ _ Htrk Htot Hcv].
  fold f in Hpair, Htrk, Htot, Hcv.
  destruct (run_collects es (initialFrame now0)) as [H1 [H2 H3]].
  { cbn. lia. }
  fold f in H1, H3.
  assert (clicksOf (initialFrame now0) = 0
          /\ trackedOf (initialFrame now0) = 0) as [I1 I2].
  { unfold clicksOf, trackedOf, initialFrame, initialState,
      ensureSessionStart. cbn. auto. }
  split; [lia|]. split; [exact Htrk|]. split; [lia|]. split.
  - rewrite Hpair at 1. rewrite paired_length. lia.
  - lia.
Qed.

(** X23.  A pass in flight is not cancelled.  An entry point that leaves
    the banned list as it is, a stop or a start of another generation
    among them, changes nothing of what the pass does when its wait is
    over: it makes the same calls, sets the same time stamps and goes on
    over the same elements; and the pass writes neither [isRunning] nor
    [sessionID], so after a stop it clicks while the agent is stopped. *)
Theorem stop_spares_pass_in_flight (rt : Runtime) (f : Frame)
  (e : Agent.Event) (i : nat) (dom : Dom) :
  bannedCommands (f_state (Async.step f (EvEntry e)))
  = bannedCommands (f_state f) ->
  let f1 := Async.step f (EvSettled i dom) in
  let f2 := Async.step (Async.step f (EvEntry e)) (EvSettled i dom) in
  f_calls f2 = f_calls f1
  /\ f_clickedTimestamps f2 = f_clickedTimestamps f1
  /\ f_passes f2 = f_passes f1
  /\ isRunning (f_state f2) = isRunning (f_state (Async.step f (EvEntry e)))
  /\ sessionID (f_state f2) = sessionID (f_state (Async.step f (EvEntry e))).
Proof.
  intros Hb f1 f2. subst f1 f2.
  set (fe := Async.step f (EvEntry e)) in *.
  assert (f_passes fe = f_passes f /\ f_calls fe = f_calls f
          /\ f_clickedTimestamps fe = f_clickedTimestamps f)
    as [Ep [Ec Et]] by apply entry_passes.
  cbn [Async.step]. unfold resumePerformClick. rewrite Ep.
  destruct (f_passes f !! i) as [[now rest el bt c v | c v]|] eqn:Ei.
  - set (g1 := withFrameState (withStats (trackClick bt) (f_state f)) f).
    set (g2 := withFrameState (withStats (trackClick bt) (f_state fe)) fe).
    destruct (trackClick_counters bt (f_state f)) as [_ [_ [_ [_ [B1 _]]]]].
    destruct (trackClick_counters bt (f_state fe))
      as [_ [_ [_ [_ [B2 [R2 S2]]]]]].
    cbv zeta in B1, B2, R2, S2.
    pose proof (visit_spec i dom now c (v + 1) rest g1 g1 eq_refl eq_refl)
      as [P1 [_ H1]].
    assert (bannedCommands (f_state g2) = bannedCommands (f_state g1)) as Hb2.
    { cbn [g1 g2 withFrameState f_state]. congruence. }
    pose proof (visit_spec i dom now c (v + 1) rest g1 g2 Hb2 Et)
      as [P2 [Hcb H2]].
    destruct (countedBlocks_fields _ _ Hcb) as [_ [Fr [Fs _]]].
    destruct (visit i dom now c (v + 1) rest g1) as [r1 p1].
    destruct (visit i dom now c (v + 1) rest g2) as [r2 p2].
    cbn [fst snd withPasses f_calls f_clickedTimestamps f_passes f_state] in *.
    cbn [g1 g2 withFrameState f_calls f_clickedTimestamps f_passes f_state]
      in *.
    rewrite P1, P2, Ep, Fr, Fs, R2, S2.
    destruct (List.find _ _); destruct H1 as [A1 [A2 A3]];
      destruct H2 as [C1 [C2 C3]];
      rewrite A1, A2, A3, C1, C2, C3, Ec, Et; repeat split; reflexivity.
  - repeat split; assumption || reflexivity.
  - repeat split; assumption || reflexivity.
Qed.

Lemma stop_spares_pass_in_flight_witness :
  f_calls (Async.step (rt := asciiRuntime)
             (Async.step (rt := asciiRuntime) exampleFrame (EvEntry EvStop))
             (EvSettled 0 exampleDom))
  = [(0%nat, NativeClick 7); (0%nat, SyntheticClick 7);
     (0%nat, NativeClick 10); (0%nat, SyntheticClick 10)]
  /\ isRunning (f_state
       (Async.step (rt := asciiRuntime)
          (Async.step (rt := asciiRuntime) exampleFrame (EvEntry EvStop))
          (EvSettled 0 exampleDom)))
     = false.
Proof.
  pose proof (stop_spares_pass_in_flight asciiRuntime exampleFrame EvStop
                0%nat exampleDom eq_refl) as H.
  cbv zeta in H. destruct H as [H1 [_ [_ [H4 _]]]].
  split.
  - rewrite H1. vm_compute. reflexivity.
  - rewrite H4. vm_compute. reflexivity.
Defined.

Section Refinement.
Context {rt : Runtime}.

Lemma uniqueFrom_map (dom : Dom) (seen found : list nat) :
  (forall el, el_id (dom el) = el) ->
  uniqueFrom seen (List.map dom found)
  = List.map dom (uniqueFound seen found).
Proof.
  intros Hid. revert seen.
  induction found as [|el rest IH]; intros seen; [reflexivity|].
  cbn [List.map uniqueFrom uniqueFound]. rewrite Hid.
  destruct (existsb (Nat.eqb el) seen); [apply IH|].
  cbn [List.map]. rewrite IH. reflexivity.
Qed.

Lemma uniqueFound_length (seen found : list nat) :
  (length (uniqueFound seen found) <= length found)%nat.
Proof.
  revert seen. induction found as [|el rest IH]; intros seen; [cbn; lia|].
  cbn [uniqueFound]. destruct (existsb _ seen); cbn [length].
  - specialize (IH seen). lia.
  - specialize (IH (el :: seen)). lia.
Qed.

(** A stretch carries the activations along without a look at them. *)
Lemma visit_withPasses (i : nat) (dom : Dom) (now c v : Z) (els : list nat)
  (ps : list Pass) (f : Frame) :
  visit i dom now c v els (withPasses ps f)
  = (withPasses ps (fst (visit i dom now c v els f)),
     snd (visit i dom now c v els f)).
Proof.
  revert f. induction els as [|el rest IH]; intros f; [reflexivity|].
  cbn [visit withPasses f_clickedTimestamps f_state].
  destruct (inCooldown _ now); [apply IH|].
  destruct (isAcceptButton (f_state f) (dom el)) as [accept st1].
  destruct accept; [reflexivity|].
  exact (IH (withFrameState st1 f)).
Qed.

(** A stretch reads the page only at the nodes it takes. *)
Lemma visit_ext (i : nat) (dom dom' : Dom) (now c v : Z) (els : list nat)
  (f : Frame) :
  (forall el, In el els -> dom' el = dom el) ->
  visit i dom' now c v els f = visit i dom now c v els f.
Proof.
  revert f. induction els as [|el rest IH]; intros f H; [reflexivity|].
  cbn [visit]. rewrite (H el (or_introl eq_refl)).
  assert (forall x, In x rest -> dom' x = dom x) as Hr
    by (intros x Hx; apply H; right; exact Hx).
  destruct (inCooldown _ now); [apply IH; exact Hr|].
  destruct (isAcceptButton (f_state f) (dom el)) as [accept st1].
  destruct accept; [reflexivity|]. apply IH. exact Hr.
Qed.

Lemma settleWith_returned (i : nat) (doms : list Dom) (f : Frame)
  (c v : Z) :
  f_passes f !! i = Some (Returned c v) -> settleWith i doms f = f.
Proof.
  intros H. unfold settleWith.
  induction doms as [|d ds IH]; [reflexivity|].
  cbn [fold_left]. unfold resumePerformClick at 2. rewrite H. exact IH.
Qed.

Lemma insert_at_end (ps : list Pass) (p q : Pass) :
  <[length ps := p]> (ps ++ [q]) = ps ++ [p].
Proof.
  replace (length ps) with (length ps + 0)%nat by lia.
  rewrite insert_app_r. reflexivity.
Qed.

(** The rest of a pass left alone, against the turns [Agent] gives the
    same elements. *)
Lemma settleWith_clickAll (i : nat) (dom : Dom) (now : Z) :
  (forall el, el_id (dom el) = el) ->
  forall (els : list nat) (f : Frame) (c v : Z) (d : list nat)
         (doms : list Dom),
    List.NoDup els ->
    (i < length (f_passes f))%nat ->
    (length els <= length doms)%nat ->
    let pg := {| state := f_state f;
                 clickedTimestamps := f_clickedTimestamps f;
                 dispatched := d |} in
    let a := clickAll now pg (List.map dom els) in
    exists clicks,
      dispatched (fst a) = d ++ clicks
      /\ ((forall k dom' el,
             doms !! k = Some dom' -> In el els ->
             In el (take (S k) clicks) \/ dom' el = dom el) ->
          let f' := settleWith i doms
                      (storePass i (visit i dom now c v els f)) in
          f_state f' = state (fst a)
          /\ f_clickedTimestamps f' = clickedTimestamps (fst a)
          /\ f_passes f'
             = <[i := Returned (c + snd a) (v + snd a)]> (f_passes f)
          /\ f_calls f'
             = f_calls f ++ flat_map (clickCalls i) clicks).
Proof.
  intros Hid els.
  induction els as [|el rest IH]; intros f c v d doms Hnd Hi Hlen pg a.
  - subst a pg. exists []. cbn [List.map clickAll fst snd dispatched].
    split; [symmetry; apply app_nil_r|]. intros _. cbv zeta.
    cbn [visit]. unfold storePass. cbn [fst snd].
    rewrite (settleWith_returned i doms _ c v).
    + cbn [withPasses f_state f_clickedTimestamps f_passes f_calls
           state clickedTimestamps flat_map].
      rewrite !Z.add_0_r, app_nil_r. repeat split; reflexivity.
    + cbn [withPasses f_passes]. apply list_lookup_insert_eq. exact Hi.
  - apply NoDup_cons_iff in Hnd as [Hel Hnd].
    cbn [length] in Hlen.
    subst a. cbn [List.map clickAll visit].
    unfold clickElement. rewrite Hid.
    subst pg. cbn [clickedTimestamps state].
    destruct (inCooldown (f_clickedTimestamps f !! el) now) eqn:Ec.
    + (* cooling down: skipped *)
      destruct (IH f c v d doms Hnd Hi ltac:(lia)) as [clicks [Hd Hrest]].
      cbv zeta in Hd, Hrest.
      destruct (clickAll now _ (List.map dom rest)) as [pg2 v2].
      cbn [fst snd] in *. exists clicks. split; [exact Hd|].
      intros Hdoms. cbv zeta.
      replace (c + (0 + v2)) with (c + v2) by lia.
      replace (v + (0 + v2)) with (v + v2) by lia.
      apply Hrest. intros k dom' x Hk Hx. apply (Hdoms k dom' x Hk).
      right. exact Hx.
    + destruct (isAcceptButton (f_state f) (dom el)) as [accept st1] eqn:Ea.
      destruct accept.
      * (* accepted: clicked, then the wait *)
        destruct doms as [|d0 doms']; [cbn in Hlen; lia|].
        cbn [length] in Hlen.
        set (f1 := {| f_state := st1;
                      f_clickedTimestamps :=
                        <[el := now]> (f_clickedTimestamps f);
                      f_calls := f_calls f ++ clickCalls i el;
                      f_passes := f_passes f |}).
        set (bt := trim (textContent (dom el))).
        set (g := storePass i
                    (f1, Awaiting now rest el bt (c + 1) v)).
        set (g0 := withFrameState (withStats (trackClick bt) (f_state g)) g).
        assert (i < length (f_passes g0))%nat as Hi0.
        { cbn. rewrite length_insert. exact Hi. }
        destruct (IH g0 (c + 1) (v + 1) (d ++ [el]) doms' Hnd Hi0
                    ltac:(lia)) as [clicks [Hd Hrest]].
        cbv zeta in Hd, Hrest.
        cbn [g0 g storePass withFrameState withPasses f1 fst snd f_state
             f_clickedTimestamps] in Hd, Hrest.
        cbn [withPasses withFrameState f_state f_clickedTimestamps].
        destruct (clickAll now _ (List.map dom rest)) as [pg2 v2].
        cbn [fst snd] in *.
        exists (el :: clicks). split.
        { rewrite Hd, <- app_assoc. reflexivity. }
        intros Hdoms. cbv zeta.
        unfold settleWith. cbn [fold_left].
        fold (settleWith i doms' (resumePerformClick i d0 g)).
        assert (resumePerformClick i d0 g
                = storePass i (visit i dom now (c + 1) (v + 1) rest g0))
          as Hres.
        { unfold resumePerformClick.
          assert (f_passes g !! i
                  = Some (Awaiting now rest el bt (c + 1) v)) as ->.
          { cbn. apply list_lookup_insert_eq. exact Hi. }
          fold g0.
          rewrite (visit_ext i dom d0).
          - unfold storePass.
            destruct (visit i dom now (c + 1) (v + 1) rest g0) as [r p].
            reflexivity.
          - intros x Hx.
            destruct (Hdoms 0%nat d0 x eq_refl (or_intror Hx)) as [H | H];
              [|exact H].
            cbn in H. destruct H as [<- | []]. contradiction. }
        rewrite Hres.
        destruct Hrest as [R1 [R2 [R3 R4]]].
        { intros k dom' x Hk Hx.
          destruct (Hdoms (S k) dom' x Hk (or_intror Hx)) as [H | H];
            [|right; exact H].
          cbn [take] in H. destruct H as [<- | H]; [contradiction|].
          left. exact H. }
        split; [exact R1|]. split; [exact R2|]. split.
        { rewrite R3. cbn [g0 g storePass withFrameState withPasses f1
                           fst snd f_passes].
          rewrite list_insert_insert_eq. f_equal. f_equal; lia. }
        { rewrite R4. cbn [g0 g storePass withFrameState withPasses f1
                           fst snd f_calls flat_map].
          rewrite <- app_assoc. reflexivity. }
      * (* judged and rejected *)
        assert (i < length (f_passes (withFrameState st1 f)))%nat as Hi1
          by exact Hi.
        destruct (IH (withFrameState st1 f) c v d doms Hnd Hi1 ltac:(lia))
          as [clicks [Hd Hrest]].
        cbv zeta in Hd, Hrest.
        cbn [withFrameState f_state f_clickedTimestamps f_passes f_calls]
          in Hd, Hrest.
        cbn [withState state clickedTimestamps dispatched].
        destruct (clickAll now _ (List.map dom rest)) as [pg2 v2].
        cbn [fst snd] in *. exists clicks. split; [exact Hd|].
        intros Hdoms. cbv zeta.
        replace (c + (0 + v2)) with (c + v2) by lia.
        replace (v + (0 + v2)) with (v + v2) by lia.
        apply Hrest. intros k dom' x Hk Hx. apply (Hdoms k dom' x Hk).
        right. exact Hx.
Qed.

End Refinement.

(** X24.  Left alone, a pass of [performClick] does what the pass of
    [Agent] does in one step.  When nothing else runs between the
    stretches of the pass, and every node found looks, each time the pass
    comes back from a wait, as it did when the pass was called, except
    the nodes the pass has clicked by then (these may have changed or be
    gone), then once its waits are over the state, the time stamps and
    the number returned are those of [Agent.performClick] on the nodes as
    found, and the pass has made its two click calls on the elements
    [Agent.performClick] clicks, in that order, and on no other. *)
Theorem performClick_left_alone (rt : Runtime) (f : Frame) (now : Z)
  (found : list nat) (dom : Dom) (doms : list Dom) :
  (forall el, el_id (dom el) = el) ->
  (length found <= length doms)%nat ->
  let clicks := passClicks now (List.map dom found) (pageOf f) in
  (forall k dom' el,
     doms !! k = Some dom' -> In el found ->
     In el (take (S k) clicks) \/ dom' el = dom el) ->
  let i := length (f_passes f) in
  let r := Agent.performClick now (List.map dom found) (pageOf f) in
  let f' := settleWith i doms (Async.step f (EvPerformClick now found dom)) in
  f_state f' = state (fst r)
  /\ f_clickedTimestamps f' = clickedTimestamps (fst r)
  /\ f_passes f' = f_passes f ++ [Returned (snd r) (snd r)]
  /\ f_calls f' = f_calls f ++ flat_map (clickCalls i) clicks.
Proof.
  intros Hid Hlen clicks Hdoms i r f'.
  set (els := uniqueFound [] found).
  set (f0 := withPasses (f_passes f ++ [Returned 0 0]) f).
  assert (Agent.performClick now (List.map dom found) (pageOf f)
          = clickAll now (pageOf f) (List.map dom els)) as Hr.
  { unfold Agent.performClick. rewrite (uniqueFrom_map dom [] found Hid).
    reflexivity. }
  assert (clicks = dispatched (fst r)) as Hclicks.
  { subst clicks r. unfold passClicks. reflexivity. }
  assert (Async.step f (EvPerformClick now found dom)
          = storePass i (visit i dom now 0 0 els f0)) as Hstep.
  { cbn [Async.step]. unfold enterPerformClick, storePass. fold i els.
    subst f0. rewrite visit_withPasses. cbn [fst snd withPasses f_passes].
    pose proof (visit_spec i dom now 0 0 els f f eq_refl eq_refl)
      as [Hp _].
    destruct (visit i dom now 0 0 els f) as [f1 p]. cbn [fst snd] in *.
    unfold withPasses. cbn. rewrite Hp. subst i.
    rewrite insert_at_end. reflexivity. }
  destruct (uniqueFound_spec [] found) as [Hnd Hin].
  destruct (settleWith_clickAll i dom now Hid els f0 0 0 [] doms Hnd)
    as [clicks' [Hd H]].
  { subst f0 i. cbn. rewrite length_app. cbn. lia. }
  { pose proof (uniqueFound_length [] found). fold els in H. lia. }
  cbv zeta in Hd, H.
  assert ({| state := f_state f0;
             clickedTimestamps := f_clickedTimestamps f0;
             dispatched := [] |} = pageOf f) as Hpg by reflexivity.
  rewrite Hpg, <- Hr in Hd, H. fold r in Hd, H.
  cbn [app] in Hd. rewrite <- Hclicks in Hd. subst clicks'.
  destruct H as [H1 [H2 [H3 H4]]].
  { intros k dom' el Hk Hel. apply (Hdoms k dom' el Hk).
    apply Hin. exact Hel. }
  subst f'. rewrite Hstep.
  split; [exact H1|]. split; [exact H2|]. split.
  - rewrite H3. subst f0 i. cbn [withPasses f_passes].
    rewrite insert_at_end. reflexivity.
  - exact H4.
Qed.

Lemma performClick_left_alone_witness :
  let doms := [exampleDomAfter; exampleDomAfter; exampleDomAfter;
               exampleDomAfter] in
  let r := Agent.performClick (rt := asciiRuntime) 1000
             (List.map exampleDom [7; 8; 7; 10]%nat)
             (pageOf (initialFrame 1)) in
  let f' := settleWith (rt := asciiRuntime) 0 doms
              (Async.step (rt := asciiRuntime) (initialFrame 1)
                 (EvPerformClick 1000 [7; 8; 7; 10]%nat exampleDom)) in
  f_state f' = state (fst r)
  /\ f_clickedTimestamps f' = clickedTimestamps (fst r)
  /\ f_passes f' = [Returned (snd r) (snd r)]
  /\ f_calls f'
     = flat_map (clickCalls 0)
         (passClicks (rt := asciiRuntime) 1000
            (List.map exampleDom [7; 8; 7; 10]%nat)
            (pageOf (initialFrame 1))).
Proof.
  apply (performClick_left_alone asciiRuntime (initialFrame 1) 1000
           [7; 8; 7; 10]%nat exampleDom
           [exampleDomAfter; exampleDomAfter; exampleDomAfter;
            exampleDomAfter]).
  - intros el. reflexivity.
  - cbn. lia.
  - intros k dom' el Hk Hel.
    assert (dom' = exampleDomAfter) as ->.
    { destruct k as [|[|[|[|k]]]]; simpl in Hk;
        try (injection Hk as <-; reflexivity).
      destruct k; discriminate. }
    assert (el = 7%nat \/ exampleDomAfter el = exampleDom el) as [-> | H].
    { cbn in Hel.
      destruct Hel as [<- | [<- | [<- | [<- | []]]]];
        (left; reflexivity) || (right; reflexivity). }
    + left. vm_compute. left. reflexivity.
    + right. exact H.
Defined.
